(* ===== verification/_CoqProject ===== *)
-Q . S2P
Prelude.v
Account.v
KubeApi.v
SiteSession.v
Policy.v
Routes.v
Render.v
Router.v
Provider.v
Controller.v
Termination.v
