(* ===== verification/Prelude.v ===== *)
(** * A verification development for passmower's interaction gateway

    passmower is an OIDC gateway (Node.js, koa, oidc-provider, Kubernetes).
    Before an authorization completes, oidc-provider walks an ordered chain
    of interaction prompts; each prompt holds checks that read the account
    stored as a Kubernetes custom object and the request context.  A
    pending prompt suspends the request as an interaction, which the
    routes of the gateway serve; the user's answer finishes the
    interaction and the chain is evaluated again from the top.  This
    library models the code under src/ as executable Rocq definitions and
    proves what makes it correct.

    ** The program and how its parts interact

    - src/implementation/kube-api-service.js, class [KubeApiService]: the
      account store.  [findUser], [createUser] and [updateUser] call the
      Kubernetes custom-objects API and translate its promise into a
      JavaScript value: an [Account], [null] when the API fails with a
      status other than 404, and [undefined] (the catch handler falls
      through) on 404.  [updateUser] turns a profile object into a JSON
      Patch with one "replace" operation per key.
    - src/implementation/setup-policies.js: builds the policy from
      oidc-provider's base policy [login; consent]: it inserts the prompts
      [approval_required], [name], [tos], [groups_required] at indices 1
      to 4 and appends the site-cookie check to the consent prompt (a
      shared object, mutated in place).  The checks read the session's
      account through [ctx.kubeOIDCUserService].
    - src/routes/oidcRoutes.js: the koa routes serving an interaction.
      GET /interaction/:uid dispatches on the prompt (consent grants and
      creates a site session, tos stores the served checksum, approval and
      groups are re-checked on re-entry); POST confirm-tos and update-name
      record the answer and finish with [mergeWithLastSubmission]; the
      error middleware renders [OIDCProviderError]s and rethrows the rest;
      the other routes hand over to login collaborators after auditing.
    - src/implementation/setup-provider.js: [new Provider(ISSUER, ...)]
      with [proxy = true], and the koa middleware that runs helmet with a
      per-response CSP nonce and koa's proxy-aware [secure] flag, helmet
      being configured with the default directives minus [form-action]
      and a nonce [script-src], [useDefaults: false].
    - The same file's router (lines 99-271): koa-router runs the matching
      layers in registration order; the error middleware is registered
      after GET / and /profile and before the interaction routes, so it
      wraps only the latter.  POST routes parse their body with koa-body
      ([json: false, text: false]: forms only).  [render] and
      [sessionDetails] (lines 39-93) build the page, with a debug dump made
      by [debug] (lines 29-37) from a module-level key set.

    oidc-provider (policy evaluation, interaction results, the resume
    cycle), the Kubernetes API server (documents, status codes, RFC 6901
    and 6902), koa, koa-router, koa-body, helmet, lodash, Node's base64,
    client-node's KubeConfig, and the support modules outside src/
    (accounts and conditions, site sessions, grants, group checks, the
    audit log) are modelled from the spec or their documentation and
    marked spec_modelled in the manifest.

    ** Files, in dependency order

    - [Prelude] (this file): the JavaScript exception monad [exc]
      ([Ret]/[Throw] of a [js_error]) and the state-and-exception monad
      [st W A = W -> exc A * W] (effects before a throw persist), with the
      notation scope [js_scope]; JavaScript truthiness of strings; the hint
      databases [passmower]; generic lemmas on binds, strings and options.
    - [Account]: accounts, conditions ([Approved], [ToSv1] pinned to a
      checksum), [checkCondition], clients and [checkAccountGroups]; the
      type classes [UserService] (reads) and [UserStore] (writes, with
      their laws) through which the checks and routes use the store.
    - [KubeApi]: Module [KubeApi] is [KubeApiService] as explicit state
      passing over a [Backend] (a [gmap] of documents and a reachability
      flag): the API calls, the promise translation [settle], the patch
      [updateUser] builds, pointer decoding and atomic patch application.
      The instances [kube_user_service] and [kube_user_store] discharge
      the interfaces of [Account] through Module [KubeStore]; Module
      [KubeClient] is the constructor (kubeconfig, current context, API
      client).
    - [SiteSession]: the site-session store and signed-cookie validation.
    - [Policy]: [Check] and [Prompt] as records whose checks run in
      [st World bool]; [setup_policies] with the library's [add] (a splice
      refusing duplicates); every check body; evaluation [resolve] as the
      library does it (a prompt's checks all run, effects thread, the
      first throw wins; the first pending prompt stops the chain); its
      effect-free specification [first_unsatisfied]; [gateway_decision],
      the decision spelled out for a signed-in account.
    - [Routes]: Section [Routes] holds the interaction handlers over
      [RouteState] (world, audit log, last submission, clients), the
      provider's result merge, the error middleware and the body parser;
      Section [OtherRoutes] the routes that call abstract login
      collaborators (Variables).
    - [Render]: JavaScript values, lodash's [isEmpty], [debug] over the
      key set as explicit state, [sessionDetails], and [render] with the
      object literal the template reads ([page_object], last key wins).
    - [Router]: the registrations as a table of layers, path matching,
      [dispatch], the error middleware with its [cache-control] header,
      [run_layers] (koa-compose) over the route state and the response
      headers, and [handle] for one request.
    - [Provider]: Node's base64 (bit operations on 24-bit groups), the CSP
      directives and helmet options, koa's [request.secure] behind a
      proxy, the security middleware, [setup_provider] and [serve].
    - [Controller]: the gateway as a step relation on [Gateway] states
      (resumption evaluating the chain, interaction pages, answers,
      errors, sign-in) with its reflexive-transitive closure [star].
    - [Termination]: the rounds a user answers ([answer]: a prompt the
      chain decides, the handlers that answer it, the resume) and the
      measure [outstanding] of user conditions still open.

    ** What the theorems show

    - Policy (C1-C7): [setup_policies] builds exactly the chain
      login, approval_required, name, tos, groups_required, consent;
      evaluation with effects refines the effect-free specification (the
      lemma [resolve_refines]: the checks are framed, only the site-session
      write happens, and it does not touch what checks read), so the
      theorems below are proved on the specification; evaluation is
      idempotent; an admin is
      never held at approval; completion implies every condition of every
      prompt; a missing account makes the chain throw, not prompt; a
      middleware client without a valid site cookie never completes.
    - Controller (C8-C10, C20): on every reachable state an account keeps
      its admin flag and groups and its conditions only grow (the lemma
      [star_evolves], by rule induction over [star], compositional lemmas
      in the hint database [gateway]); the scenarios: a fresh Kubernetes account is held at
      approval_required; showing, confirming and resuming the terms
      records the served version and clears the prompt; answering the
      name prompt and resuming clears it, while an empty name is stored,
      audited and asked for again.
    - Routes (C11-C15): each handler on the branches the scenarios
      take: the served terms are the terms recorded; update-name on every
      branch (audit, profile write, nothing else, the prompt assertion);
      the approval re-check; the site session created for any truthy
      client kind; the login-link route returns the verification's outcome
      and audits after it, whether it resolved or rejected.
    - Termination (C16, C17): answering prompts terminates (the answer
      relation is well founded, by the measure through [wf_inverse_image])
      and takes at most three rounds; the witness runs the three rounds on
      a concrete store.
    - Router (C18, C19, C21): provider errors thrown by the root page
      escape the router; [cache-control: no-store] is set
      on every interaction route and never on the root pages (the router
      state pairs the route state with the response headers); an expired
      interaction on the routes that load it ends in the error page and
      changes nothing.
    - KubeApi (C22-C26): [findUser]'s three outcomes; [updateUser] on every
      branch for plain keys (its failure on an absent key is atomic), and
      equal to the profile merge the store interface assumes for plain
      distinct keys (the lemma [updateUser_write]); two concurrent updates
      as one merge where the later wins (commuting on disjoint keys); any
      key holding a "/" makes the whole patch fail, since the path is not
      escaped as RFC 6901 requires; [createUser] on a taken name.
    - Provider (C27-C29): a served request's CSP, HSTS input and restored
      [secure]; the nonce is 24 base64 characters that cannot break out of
      its source; the [secure] swap is skipped on a helmet failure.
    - Render (C30, C31): no route's [extra] replaces the nonce; the
      degraded page when the interaction is gone.

    ** Bounds and fuel

    There is no fuel: every loop of the code is over a finite list (the
    prompt chain, a prompt's checks, a profile's keys, the router's
    layers, an object's entries, a byte string in groups of three) and is
    modelled by structural recursion; every definition computes, and the
    witnesses evaluate them on concrete accounts, clients and backends.
    The interaction cycle itself is a relation, and its termination is a
    theorem (C16), not fuel.  Status codes are Z and are compared only;
    base64 works on 24-bit groups with [Z.shiftl], [Z.lor], [Z.shiftr] and
    [Z.land] (every sextet is below 64, so every index is in range).

    ** Not modelled

    The GitHub and e-mail login implementations (abstract Variables of
    Section [OtherRoutes]), the page templates and [util.inspect] (a
    parameter of [debug]), oidc-provider's configuration and adapter,
    the session service's impersonation lookup on the login page (a read
    whose result only feeds the template), token issuance, cookies other
    than the site-session cookie, qs arrays
    and multipart bodies, an expired interaction on the abort and
    impersonate routes (they reach the interaction only through the
    support modules' [interactionFinished]), failing account writes of
    the support service, and the timing of promises beyond the order of
    their effects.  The components the manifest marks as partly modelled
    are libraries and support modules outside src/ (oidc-provider, the
    Kubernetes API server, koa and its middleware, helmet, lodash, Node,
    client-node, the support modules): they are modelled as far as the
    code under src/ uses them, and the rest of their behaviour is not
    part of this program. *)

From stdpp Require Export base gmap strings list.

(** ** JavaScript exceptions *)

(** The errors the modelled code can throw.  [TypeError] is what reading a
    property of [null] or [undefined] raises; [AssertionError] comes from
    [node:assert]'s [assert.equal]; [OIDCProviderError] carries the HTTP
    status and message that the error middleware renders. *)
Inductive js_error :=
| TypeError
| AssertionError
| OIDCProviderError (status : Z) (message : string)
| PlainError (message : string).

#[export] Instance js_error_eq_dec : EqDecision js_error.
Proof. solve_decision. Defined.

(** A computation that returns an [A] or throws (an [async] function's
    promise, resolved or rejected). *)
Inductive exc (A : Type) :=
| Ret (a : A)
| Throw (e : js_error).
Arguments Ret {A} a.
Arguments Throw {A} e.

#[export] Instance exc_ret : MRet exc := @Ret.
#[export] Instance exc_bind : MBind exc := λ A B f m,
  match m with Ret a => f a | Throw e => Throw e end.
#[export] Instance exc_fmap : FMap exc := λ A B f m,
  match m with Ret a => Ret (f a) | Throw e => Throw e end.

Declare Scope js_scope.
Delimit Scope js_scope with js.
Notation "'throw' e" := (Throw e) (at level 10) : js_scope.
Open Scope js_scope.

(** ** State with exceptions

    An [async] handler that reads and writes shared state: a computation
    [st W A] maps the state before to a result and the state after.  The
    writes done before a [throw] persist, as they do in the program. *)
Definition st (W A : Type) : Type := W → exc A * W.

Definition st_ret {W A} (a : A) : st W A := λ w, (Ret a, w).
Definition st_throw {W A} (e : js_error) : st W A := λ w, (Throw e, w).
Definition st_lift {W A} (m : exc A) : st W A := λ w, (m, w).
Definition st_bind {W A B} (m : st W A) (f : A → st W B) : st W B := λ w,
  match m w with (Ret a, w1) => f a w1 | (Throw e, w1) => (Throw e, w1) end.
Definition st_get {W} : st W W := λ w, (Ret w, w).
(** Run [m] and return its outcome, a rejection included, as a value:
    what a caller sees of a promise it holds without awaiting it. *)
Definition st_attempt {W A} (m : st W A) : st W (exc A) := λ w,
  let '(r, w') := m w in (Ret r, w').
Definition st_put {W} (w : W) : st W unit := λ _, (Ret (), w).

Notation "x <- m ;; k" := (st_bind m (λ x, k))
  (at level 100, m at next level, right associativity) : js_scope.

(** [assert.equal(a, b)] on strings. *)
Definition assert_equal (a b : string) : exc unit :=
  if decide (a = b) then Ret () else throw AssertionError.

(** ** JavaScript truthiness of the values the code tests *)

(** A string is truthy iff it is non-empty; an absent property is
    [undefined], hence falsy. *)
Definition truthy_string (o : option string) : bool :=
  match o with Some s => bool_decide (s ≠ ""%string) | None => false end.

(** ** Automation *)

Create HintDb passmower.
Create Rewrite HintDb passmower.

Section exc_lemmas.
Context {A B C : Type}.

Lemma bind_ret (a : A) (f : A → exc B) : (Ret a ≫= f) = f a.
Proof. done. Qed.

Lemma bind_throw e (f : A → exc B) : (Throw e ≫= f) = Throw e.
Proof. done. Qed.

Lemma bind_assoc (m : exc A) (f : A → exc B) (g : B → exc C) :
  ((m ≫= f) ≫= g) = (m ≫= (λ a, f a ≫= g)).
Proof. by destruct m. Qed.

Lemma bind_ret_inv (m : exc A) (f : A → exc B) b :
  (m ≫= f) = Ret b → ∃ a, m = Ret a ∧ f a = Ret b.
Proof. destruct m; simpl; [eauto | discriminate]. Qed.

Lemma bind_throw_inv (m : exc A) (f : A → exc B) e :
  (m ≫= f) = Throw e → m = Throw e ∨ ∃ a, m = Ret a ∧ f a = Throw e.
Proof. destruct m; simpl; [eauto | intros [= ->]; auto]. Qed.

Lemma assert_equal_ret a b u : assert_equal a b = Ret u → a = b.
Proof. unfold assert_equal. by case_decide. Qed.

Lemma assert_equal_refl a : assert_equal a a = Ret ().
Proof. unfold assert_equal. by rewrite decide_True. Qed.

Lemma assert_equal_neq a b : a ≠ b → assert_equal a b = Throw AssertionError.
Proof. intros. unfold assert_equal. by rewrite decide_False. Qed.

Lemma assert_equal_ne a b : a ≠ b → assert_equal a b = throw AssertionError.
Proof. intros. unfold assert_equal. by rewrite decide_False. Qed.
End exc_lemmas.

Lemma truthy_string_Some s : s ≠ ""%string → truthy_string (Some s) = true.
Proof. intros. simpl. by apply bool_decide_eq_true. Qed.

Lemma truthy_string_true o : truthy_string o = true ↔ ∃ s, o = Some s ∧ s ≠ ""%string.
Proof.
  destruct o as [s|]; simpl; [rewrite bool_decide_eq_true|]; naive_solver.
Qed.

Section st_lemmas.
Context {W A B C : Type}.

Lemma st_bind_ret (a : A) (f : A → st W B) w : st_bind (st_ret a) f w = f a w.
Proof. done. Qed.

Lemma st_bind_assoc (m : st W A) (f : A → st W B) (g : B → st W C) w :
  st_bind (st_bind m f) g w = st_bind m (λ a, st_bind (f a) g) w.
Proof. unfold st_bind. by destruct (m w) as [[] ?]. Qed.

Lemma st_bind_eq (m : st W A) (f : A → st W B) w a w1 :
  m w = (Ret a, w1) → st_bind m f w = f a w1.
Proof. unfold st_bind. by intros ->. Qed.

Lemma st_bind_throw_eq (m : st W A) (f : A → st W B) w e w1 :
  m w = (Throw e, w1) → st_bind m f w = (Throw e, w1).
Proof. unfold st_bind. by intros ->. Qed.
End st_lemmas.

#[export] Hint Rewrite @bind_ret @bind_throw @assert_equal_refl @st_bind_ret : passmower.
#[export] Hint Resolve truthy_string_Some assert_equal_ret : passmower.

(** [exc_simpl] unfolds the monad's operations and rewrites binds away. *)
Ltac exc_simpl :=
  repeat (unfold mbind, exc_bind, mret, exc_ret in *; simpl in *);
  try autorewrite with passmower in *.

(** [exc_inv H] splits a hypothesis [m ≫= f = Ret b] into its two halves. *)
Ltac exc_inv H :=
  let a := fresh "a" in
  let Ha := fresh "Ha" in
  apply bind_ret_inv in H as (a & Ha & H).

(** ** Strings *)

(** stdpp makes [String.append] opaque to [simpl]; [string_app_cons]
    is its defining equation. *)
Lemma string_app_cons c (s t : string) : (String c s ++ t)%string = String c (s ++ t).
Proof. reflexivity. Qed.

Lemma string_app_assoc (s t u : string) : ((s ++ t) ++ u)%string = (s ++ (t ++ u))%string.
Proof. induction s; [done|]. rewrite !string_app_cons. congruence. Qed.

Lemma string_app_nil_r (s : string) : (s ++ "")%string = s.
Proof. induction s; [done|]. rewrite string_app_cons. congruence. Qed.

#[export] Hint Rewrite string_app_cons string_app_assoc string_app_nil_r : passmower.
