(* ===== verification/Account.v ===== *)
(** * Account, conditions and clients

    The data the policy checks read: the account document kept as a
    Kubernetes custom object (support/account.js wraps its body), the
    conditions recorded on it (support/conditions/approved.js and
    tosv1.js, with [checkCondition] and the write path of
    support/confirm-tos.js), the OIDC client entity with its [kind] and
    allowed groups (support/check-account-groups.js), and the
    [UserService] interface through which the checks of
    setup-policies.js load an account ([ctx.kubeOIDCUserService.findUser]),
    and the [UserStore] interface through which the routes write one
    (conditions appended, profile fields merged), with the laws the
    Kubernetes store discharges in KubeApi.v.
    These modules are not under src/: they are modelled from the spec. *)

From S2P Require Import Prelude.

(** ** Accounts *)

(** A recorded condition: its name and the fingerprint (checksum) of the
    content the user accepted, when the condition is versioned. *)
Record ConditionRecord := mkConditionRecord {
  cond_name : string;
  cond_checksum : option string;
}.

#[export] Instance ConditionRecord_eq_dec : EqDecision ConditionRecord.
Proof. solve_decision. Defined.

(** The account, as [new Account(body)] builds it from the custom object:
    [metadata.name] is the id, [spec.profile] the profile, and the admin
    flag, conditions and group memberships are set by the store's owner. *)
Record Account := mkAccount {
  accountId : string;
  profile : gmap string string;
  isAdmin : bool;
  conditions : list ConditionRecord;
  groups : gset string;
}.

(** A condition to check: [Approved] is unversioned, [ToSv1] pins the
    checksum of the terms of service currently displayed. *)
Record Condition := mkCondition {
  condition_name : string;
  condition_version : option string;
}.

Definition Approved : Condition := mkCondition "approved" None.
Definition ToSv1 (current_checksum : string) : Condition :=
  mkCondition "tos" (Some current_checksum).

(** A record satisfies a condition when the names match and, for a
    versioned condition, the recorded checksum is the current one. *)
Definition record_satisfies (c : Condition) (r : ConditionRecord) : bool :=
  bool_decide (cond_name r = condition_name c) &&
  match condition_version c with
  | None => true
  | Some v => bool_decide (cond_checksum r = Some v)
  end.

(** [account.checkCondition(condition)]: fail closed, true only when some
    recorded condition satisfies it. *)
Definition checkCondition (a : Account) (c : Condition) : bool :=
  existsb (record_satisfies c) (conditions a).

(** [confirmCondition(accountId, name, checksum)]: append a record. *)
Definition confirmCondition (name : string) (checksum : option string)
    (a : Account) : Account :=
  {| accountId := accountId a; profile := profile a; isAdmin := isAdmin a;
     conditions := conditions a ++ [mkConditionRecord name checksum];
     groups := groups a |}.

(** [confirmTos(ctx, accountId, tosTextChecksum)]. *)
Definition confirmTos (checksum : string) (a : Account) : Account :=
  confirmCondition "tos" (Some checksum) a.

(** ** Clients *)

(** The OIDC client entity: [kind] marks the gateway's middleware clients
    ([OIDCGWMiddlewareClient]); [allowedGroups] is absent when the client
    does not restrict access. *)
Record Client := mkClient {
  clientId : string;
  kind : option string;
  allowedGroups : option (gset string);
}.

Definition OIDCGWMiddlewareClient : string := "OIDCGWMiddlewareClient".

(** [checkAccountGroups(client, account)]. *)
Definition checkAccountGroups (c : Client) (a : Account) : bool :=
  match allowedGroups c with
  | None => true
  | Some gs => bool_decide (gs ∩ groups a ≠ ∅)
  end.

(** ** The account-loading interface *)

(** What [findUser] resolves to: an [Account], [null] or [undefined]. *)
Inductive js_user :=
| UFound (a : Account)
| UNull
| UUndefined.

(** Reading a property of the loaded user ([kubeUser.isAdmin],
    [kubeUser.profile]) throws a [TypeError] on [null] and [undefined]. *)
Definition deref_user (u : js_user) : exc Account :=
  match u with UFound a => Ret a | UNull | UUndefined => throw TypeError end.

(** The service the checks call as [ctx.kubeOIDCUserService]: a store
    state [S] from which [findUser] loads an account by id.  Its law: in a
    well-formed store, a user found under [id] has that id. *)
Class UserService (S : Type) := {
  findUser : S → string → js_user;
  store_wf : S → Prop;
  findUser_id : ∀ s id a, store_wf s → findUser s id = UFound a → accountId a = id;
}.

(** Replace an account's profile. *)
Definition setProfile (a : Account) (prof : gmap string string) : Account :=
  mkAccount (accountId a) prof (isAdmin a) (conditions a) (groups a).

(** The writes the routes perform through [ctx.kubeOIDCUserService]:
    recording a condition (support/confirm-tos.js) and [updateUserSpec],
    which replaces the given profile fields and keeps the others.  Laws:
    the named account changes as [confirmCondition] or the profile merge
    says, an absent account stays absent, other accounts are untouched,
    and well-formed stores stay well-formed. *)
Class UserStore (S : Type) `{!UserService S} := {
  store_confirmCondition : S → string → string → option string → S;
  store_updateProfile : S → string → gmap string string → S;
  store_confirmCondition_self s id n ck a :
    findUser s id = UFound a →
    findUser (store_confirmCondition s id n ck) id = UFound (confirmCondition n ck a);
  store_confirmCondition_absent s id n ck :
    (∀ a, findUser s id ≠ UFound a) →
    findUser (store_confirmCondition s id n ck) id = findUser s id;
  store_confirmCondition_other s id id' n ck :
    id ≠ id' → findUser (store_confirmCondition s id n ck) id' = findUser s id';
  store_updateProfile_self s id p a :
    findUser s id = UFound a →
    findUser (store_updateProfile s id p) id = UFound (setProfile a (p ∪ profile a));
  store_updateProfile_absent s id p :
    (∀ a, findUser s id ≠ UFound a) →
    findUser (store_updateProfile s id p) id = findUser s id;
  store_updateProfile_other s id id' p :
    id ≠ id' → findUser (store_updateProfile s id p) id' = findUser s id';
  store_confirmCondition_wf s id n ck :
    store_wf s → store_wf (store_confirmCondition s id n ck);
  store_updateProfile_wf s id p : store_wf s → store_wf (store_updateProfile s id p);
}.

(** ** Lemmas *)

Section condition_lemmas.
Implicit Types (a : Account) (c : Condition).

Lemma checkCondition_true a c :
  checkCondition a c = true ↔ ∃ r, r ∈ conditions a ∧ record_satisfies c r = true.
Proof.
  unfold checkCondition. rewrite existsb_exists.
  setoid_rewrite list_elem_of_In. done.
Qed.

Lemma checkCondition_confirm a c name ck :
  checkCondition (confirmCondition name ck a) c =
    checkCondition a c || record_satisfies c (mkConditionRecord name ck).
Proof.
  unfold checkCondition, confirmCondition; simpl.
  rewrite existsb_app; simpl. by rewrite orb_false_r.
Qed.

Lemma record_satisfies_tos v ck :
  record_satisfies (ToSv1 v) (mkConditionRecord "tos" ck) = bool_decide (ck = Some v).
Proof. unfold record_satisfies; cbn -[bool_decide]. by rewrite bool_decide_true. Qed.

Lemma record_satisfies_approved_tos ck :
  record_satisfies Approved (mkConditionRecord "tos" ck) = false.
Proof. done. Qed.
End condition_lemmas.

#[export] Hint Rewrite checkCondition_confirm record_satisfies_tos
  record_satisfies_approved_tos : passmower.

(** ** Properties of the condition model *)

(** version pinning.  Accepting the terms with checksum [F1] does not
    satisfy the check of a later version [F2 ≠ F1]: the ToS condition after
    the confirmation holds exactly when it held before. *)
Theorem tos_version_pinning (a : Account) (F1 F2 : string) :
  F1 ≠ F2 →
  checkCondition (confirmTos F1 a) (ToSv1 F2) = checkCondition a (ToSv1 F2).
Proof.
  intros Hne. unfold confirmTos. autorewrite with passmower.
  rewrite bool_decide_eq_false_2 by congruence. apply orb_false_r.
Qed.

Lemma tos_version_pinning_witness :
  "v1"%string ≠ "v2"%string ∧
  checkCondition (confirmTos "v1" (mkAccount "u" ∅ false [] ∅)) (ToSv1 "v2") =
  checkCondition (mkAccount "u" ∅ false [] ∅) (ToSv1 "v2").
Proof. split; [done | apply tos_version_pinning; done]. Defined.

(** Accepting the displayed version satisfies the ToS check. *)
Lemma confirmTos_satisfies (a : Account) (F : string) :
  checkCondition (confirmTos F a) (ToSv1 F) = true.
Proof.
  unfold confirmTos. autorewrite with passmower.
  rewrite bool_decide_eq_true_2 by done. apply orb_true_r.
Qed.

(** Conditions only grow: a satisfied condition stays satisfied. *)
Lemma checkCondition_confirm_mono (a : Account) c name ck :
  checkCondition a c = true → checkCondition (confirmCondition name ck a) c = true.
Proof. intros H. autorewrite with passmower. by rewrite H. Qed.

(** Recording the ToS never approves an account. *)
Lemma confirmTos_approved (a : Account) F :
  checkCondition (confirmTos F a) Approved = checkCondition a Approved.
Proof. unfold confirmTos. autorewrite with passmower. apply orb_false_r. Qed.

(** A client without a group restriction admits every account. *)
Lemma checkAccountGroups_unrestricted c a :
  allowedGroups c = None → checkAccountGroups c a = true.
Proof. unfold checkAccountGroups. by intros ->. Qed.

(** The group check holds iff the account belongs to an allowed group. *)
Lemma checkAccountGroups_spec c gs a :
  allowedGroups c = Some gs →
  checkAccountGroups c a = true ↔ ∃ g, g ∈ gs ∧ g ∈ groups a.
Proof.
  unfold checkAccountGroups. intros ->. rewrite bool_decide_eq_true.
  split.
  - intros Hne. destruct (set_choose_L (gs ∩ groups a)) as [g Hg]; [done|].
    exists g. set_solver.
  - intros (g & ? & ?) Heq. assert (g ∈ gs ∩ groups a) by set_solver.
    rewrite Heq in H1. set_solver.
Qed.

#[export] Hint Resolve confirmTos_satisfies checkCondition_confirm_mono
  checkAccountGroups_unrestricted : passmower.

Section store_lemmas.
Context {S : Type} `{!UserService S} `{!UserStore S}.

End store_lemmas.
