(* ===== verification/KubeApi.v ===== *)
(** * The account store: [KubeApiService]

    src/implementation/kube-api-service.js keeps accounts as custom
    objects of kind OIDCGWUser in one namespace.  Each method calls the
    API server and translates the promise:
    [.then((r) => new Account(r.body))] on success and, on failure,
    [.catch((e) => { if (e.statusCode !== 404) { ...; return null } })],
    which returns [null] for every error but 404 and [undefined] (the
    handler falls through) for 404.

    The API server is modelled from the Kubernetes semantics: a map of
    documents by name, a [reachable] flag (a transport failure has no
    status code), 404 for a missing object, 409 for a duplicate create,
    and 422 for a JSON Patch that does not apply (RFC 6902: "replace"
    requires its target to exist; the patch is atomic).  JSON pointers
    are decoded as RFC 6901 says (split on "/", then "~1" to "/" and "~0"
    to "~").  Module [KubeClient] models the constructor: the kubeconfig
    it loads, client-node's resolution of the current context, and the
    API client that results.  Each API call is atomic on the server, so
    concurrent requests of the service are the sequences of their calls
    in some order; Module [KubeStore] states what two [updateUser]s in
    either order leave. *)

From S2P Require Import Prelude Account.
From Stdlib Require Import Ascii.

Module KubeApi.

(** ** The API server *)

Record Backend := mkBackend {
  docs : gmap string Account;
  reachable : bool;
}.

(** A response: the object, or an error with its [statusCode] ([None] for
    a transport error, whose [e.statusCode] is [undefined]). *)
Inductive kube_resp :=
| KOk (body : Account)
| KErr (statusCode : option Z).

(** [.then(r => new Account(r.body)).catch(e => { if (e.statusCode !== 404)
    { console.error(e); return null } })]. *)
Definition settle (r : kube_resp) : js_user :=
  match r with
  | KOk body => UFound body
  | KErr sc => if decide (sc = Some 404%Z) then UUndefined else UNull
  end.

(** [getNamespacedCustomObject]. *)
Definition api_get (be : Backend) (id : string) : kube_resp :=
  if reachable be then
    match docs be !! id with Some d => KOk d | None => KErr (Some 404%Z) end
  else KErr None.

(** The custom resource the service addresses (constructor, lines 25-28). *)
Record KubeResource := mkKubeResource {
  group : string;
  version : string;
  plural : string;
  namespace : string;
}.

Definition kube_resource : KubeResource :=
  mkKubeResource "codemowers.io" "v1alpha1" "oidcgatewayusers" "veebkolm-gab7y".

(** The object [createUser] sends (lines 54-63). *)
Record UserBody := mkUserBody {
  apiVersion : string;
  body_kind : string;
  metadata_name : string;
  spec_profile : gmap string string;
}.

Definition create_body (id : string) (prof : gmap string string) : UserBody :=
  mkUserBody "codemowers.io/v1alpha1" "OIDCGWUser" id prof.

(** [new Account(r.body)] on the created object: it has [metadata.name]
    and [spec.profile] and nothing else, so the account has no admin flag,
    no conditions and no groups. *)
Definition new_user_doc (id : string) (prof : gmap string string) : Account :=
  let b := create_body id prof in mkAccount (metadata_name b) (spec_profile b) false [] ∅.

Definition api_create (be : Backend) (d : Account) : Backend * kube_resp :=
  if reachable be then
    match docs be !! accountId d with
    | Some _ => (be, KErr (Some 409%Z))
    | None => (mkBackend (<[accountId d := d]> (docs be)) true, KOk d)
    end
  else (be, KErr None).

(** ** JSON Patch *)

Record PatchOp := mkPatchOp {
  op : string;
  path : string;
  value : string;
}.

(** The patch [updateUser] builds: [Object.keys(profile).map(k =>
    ({op: "replace", path: "/spec/profile/" + k, value: profile[k]}))].
    The profile argument is a JavaScript object, given here as its entries
    in [Object.keys] order. *)
Definition profile_patch_op (kv : string * string) : PatchOp :=
  mkPatchOp "replace" ("/spec/profile/" ++ kv.1) kv.2.

Definition profile_patch (prof : list (string * string)) : list PatchOp :=
  map profile_patch_op prof.

(** RFC 6901: split a pointer's body on "/". *)
Fixpoint split_slash (s : string) (cur : string) : list string :=
  match s with
  | EmptyString => [cur]
  | String c rest =>
      if Ascii.eqb c "/" then cur :: split_slash rest ""
      else split_slash rest (cur ++ String c EmptyString)
  end.

(** RFC 6901: decode a reference token, "~1" to "/" and "~0" to "~". *)
Fixpoint unescape (s : string) : string :=
  match s with
  | String "~" (String "1" rest) => String "/" (unescape rest)
  | String "~" (String "0" rest) => String "~" (unescape rest)
  | String c rest => String c (unescape rest)
  | EmptyString => EmptyString
  end.

Definition parse_pointer (p : string) : option (list string) :=
  match p with
  | EmptyString => Some []
  | String "/" rest => Some (map unescape (split_slash rest ""))
  | _ => None
  end.

(** One "replace" operation on a user document.  A token path longer than
    [spec/profile/k] reaches into a string value and fails; a missing key
    fails (RFC 6902, 4.3). *)
Definition apply_op (d : Account) (o : PatchOp) : option Account :=
  if decide (op o = "replace") then
    match parse_pointer (path o) with
    | Some ["spec"; "profile"; k] =>
        match profile d !! k with
        | Some _ => Some (setProfile d (<[k := value o]> (profile d)))
        | None => None
        end
    | _ => None
    end
  else None.

Fixpoint apply_patch (d : Account) (ops : list PatchOp) : option Account :=
  match ops with
  | [] => Some d
  | o :: ops' => apply_op d o ≫= λ d', apply_patch d' ops'
  end.

(** [patchNamespacedCustomObject] with a JSON Patch: atomic. *)
Definition api_patch (be : Backend) (id : string) (ops : list PatchOp)
    : Backend * kube_resp :=
  if reachable be then
    match docs be !! id with
    | None => (be, KErr (Some 404%Z))
    | Some d =>
        match apply_patch d ops with
        | Some d' => (mkBackend (<[id := d']> (docs be)) true, KOk d')
        | None => (be, KErr (Some 422%Z))
        end
    end
  else (be, KErr None).

(** ** The service's methods *)

(** [async findUser(id)]. *)
Definition findUser (be : Backend) (id : string) : js_user :=
  settle (api_get be id).

(** [async createUser(id, profile)]. *)
Definition createUser (be : Backend) (id : string) (prof : gmap string string)
    : Backend * js_user :=
  let '(be', r) := api_create be (new_user_doc id prof) in (be', settle r).

(** [async updateUser(id, profile)]. *)
Definition updateUser (be : Backend) (id : string) (prof : list (string * string))
    : Backend * js_user :=
  let '(be', r) := api_patch be id (profile_patch prof) in (be', settle r).

(** ** Well-formedness: every document is stored under its own name. *)
Definition backend_wf (be : Backend) : Prop :=
  map_Forall (λ id d, accountId d = id) (docs be).


(** ** Lemmas *)

(** A profile key the pointer syntax leaves alone: no "/" and no "~". *)
Fixpoint safe_key (k : string) : bool :=
  match k with
  | EmptyString => true
  | String c k' => negb (Ascii.eqb c "/" || Ascii.eqb c "~") && safe_key k'
  end.

(** The profile [updateUser] asks for: each key replaced in order. *)
Definition patch_profile (m : gmap string string) (prof : list (string * string))
    : gmap string string :=
  foldl (λ m kv, <[kv.1 := kv.2]> m) m prof.

(** Every key of the patch is present in the stored profile. *)
Definition keys_present (m : gmap string string) (prof : list (string * string)) : bool :=
  forallb (λ kv, bool_decide (is_Some (m !! kv.1))) prof.

Lemma split_slash_safe s cur :
  safe_key s = true → split_slash s cur = [(cur ++ s)%string].
Proof.
  revert cur. induction s as [|c s IH]; intros cur Hs; simpl.
  - by autorewrite with passmower.
  - simpl in Hs. apply andb_true_iff in Hs as [Hc Hs].
    apply negb_true_iff, orb_false_iff in Hc as [-> _].
    rewrite IH by done. by autorewrite with passmower.
Qed.

Lemma unescape_safe s : safe_key s = true → unescape s = s.
Proof.
  induction s as [|c s IH]; intros Hs; [done|].
  simpl in Hs. apply andb_true_iff in Hs as [Hc Hs].
  apply negb_true_iff, orb_false_iff in Hc as [Hc1 Hc2].
  assert (c ≠ "~"%char) by (intros ->; discriminate).
  destruct c as [[] [] [] [] [] [] [] []]; simpl in *;
    try (f_equal; by apply IH); congruence.
Qed.

Lemma parse_profile_pointer k :
  parse_pointer ("/spec/profile/" ++ k) =
    Some ("spec" :: "profile" :: map unescape (split_slash k "")).
Proof. reflexivity. Qed.

Lemma apply_op_profile d k v :
  safe_key k = true →
  apply_op d (profile_patch_op (k, v)) =
    match profile d !! k with
    | Some _ => Some (setProfile d (<[k := v]> (profile d)))
    | None => None
    end.
Proof.
  intros Hk. unfold apply_op. rewrite decide_True by done.
  cbn [path value profile_patch_op fst snd].
  rewrite parse_profile_pointer, split_slash_safe by done. simpl.
  by rewrite unescape_safe.
Qed.

Lemma split_slash_nonempty s cur : 1 ≤ length (split_slash s cur).
Proof.
  revert cur. induction s as [|c s IH]; intros cur; simpl; [lia|].
  destruct (Ascii.eqb c "/"); simpl; [lia | apply IH].
Qed.

(** A key holding a "/" splits into at least two reference tokens. *)
Lemma split_slash_slash k1 k2 cur : 2 ≤ length (split_slash (k1 ++ "/" ++ k2) cur).
Proof.
  revert cur. induction k1 as [|c k1 IH]; intros cur; simpl.
  - pose proof (split_slash_nonempty ("" ++ k2) ""). lia.
  - destruct (Ascii.eqb c "/"); [|apply IH].
    simpl. pose proof (split_slash_nonempty (k1 ++ "/" ++ k2) ""). lia.
Qed.

(** The operation built for a key holding a "/" addresses a path below
    the key's first segment, so it fails on every document. *)
Lemma apply_op_slash d k1 k2 v :
  apply_op d (profile_patch_op ((k1 ++ "/" ++ k2)%string, v)) = None.
Proof.
  unfold apply_op. rewrite decide_True by done.
  cbn [path profile_patch_op fst]. rewrite parse_profile_pointer.
  pose proof (split_slash_slash k1 k2 "") as Hl.
  destruct (split_slash _ _) as [|? [|? ?]]; simpl in *; [lia..|done].
Qed.

(** A patch holding an operation that fails on every document fails. *)
Lemma apply_patch_stuck d ops o :
  o ∈ ops → (∀ d, apply_op d o = None) → apply_patch d ops = None.
Proof.
  revert d. induction ops as [|o' ops IH]; intros d Ho Hfail;
    [by apply elem_of_nil in Ho|].
  simpl. apply elem_of_cons in Ho as [->|Ho].
  - by rewrite Hfail.
  - destruct (apply_op d o'); simpl; [by apply IH | done].
Qed.

Lemma keys_present_insert m k v prof :
  is_Some (m !! k) → keys_present (<[k := v]> m) prof = keys_present m prof.
Proof.
  intros Hk. unfold keys_present. induction prof as [|[k' v'] prof IH]; [done|].
  simpl. rewrite IH. f_equal. apply bool_decide_ext. simpl.
  destruct (decide (k = k')) as [->|]; [by rewrite lookup_insert_eq | by rewrite lookup_insert_ne].
Qed.

(** The patch of safe keys applies exactly when every key is present, and
    then it replaces the profile's values and nothing else. *)
Lemma apply_profile_patch d prof :
  Forall (λ kv, safe_key kv.1 = true) prof →
  apply_patch d (profile_patch prof) =
    if keys_present (profile d) prof
    then Some (setProfile d (patch_profile (profile d) prof)) else None.
Proof.
  revert d. induction prof as [|[k v] prof IH]; intros d Hsafe; [by destruct d|].
  inversion Hsafe as [|? ? Hk Hrest]; subst. simpl.
  rewrite apply_op_profile by done.
  destruct (profile d !! k) eqn:E; simpl.
  - rewrite IH by done. simpl. rewrite keys_present_insert by (rewrite E; eauto).
    done.
  - done.
Qed.

(** A patch changes the profile only. *)
Definition same_but_profile (d d' : Account) : Prop :=
  accountId d' = accountId d ∧ isAdmin d' = isAdmin d ∧
  conditions d' = conditions d ∧ groups d' = groups d.

Lemma apply_patch_same_but_profile d ops d' :
  apply_patch d ops = Some d' → same_but_profile d d'.
Proof.
  revert d. induction ops as [|o ops IH]; intros d H; simpl in H.
  - injection H as <-. done.
  - destruct (apply_op d o) as [d1|] eqn:E; [|discriminate]. simpl in H.
    apply IH in H. unfold apply_op in E.
    repeat case_match; simplify_eq. destruct H as (?&?&?&?). done.
Qed.

Lemma settle_cases r :
  (settle r = UNull ↔ ∃ sc, r = KErr sc ∧ sc ≠ Some 404%Z) ∧
  (settle r = UUndefined ↔ r = KErr (Some 404%Z)) ∧
  (∀ a, settle r = UFound a ↔ r = KOk a).
Proof.
  destruct r as [b|sc]; simpl.
  - split_and!; split; intros; simplify_eq; naive_solver.
  - case_decide; subst; split_and!; split; intros; simplify_eq; naive_solver.
Qed.

Lemma backend_wf_insert be id d :
  backend_wf be → accountId d = id → backend_wf (mkBackend (<[id := d]> (docs be)) true).
Proof.
  intros Hwf Hid id' d'. simpl.
  destruct (decide (id = id')) as [<-|]; [rewrite lookup_insert_eq; congruence|].
  rewrite lookup_insert_ne by done. apply Hwf.
Qed.

Lemma findUser_found be id a :
  findUser be id = UFound a ↔ reachable be = true ∧ docs be !! id = Some a.
Proof. unfold findUser, api_get. destruct (reachable be), (docs be !! id); naive_solver. Qed.

(** ** Properties of the store *)

(** C22: [findUser]'s three outcomes.  It resolves to the stored account
    when the API server answers, to [undefined] exactly when the object is
    missing (404), and to [null] exactly when the API server cannot be
    reached: the two failure cases are distinct values, both falsy. *)
Theorem findUser_outcomes (be : Backend) (id : string) :
  (findUser be id = UNull ↔ reachable be = false) ∧
  (findUser be id = UUndefined ↔ reachable be = true ∧ docs be !! id = None) ∧
  (∀ a, findUser be id = UFound a ↔ reachable be = true ∧ docs be !! id = Some a).
Proof.
  unfold findUser, api_get.
  destruct (reachable be), (docs be !! id); simpl; split_and!; naive_solver.
Qed.

(** C23: The functional behaviour of [updateUser] on every branch, for a
    profile whose keys are plain (no "/" or "~"). *)
Theorem updateUser_spec (be : Backend) (id : string) (prof : list (string * string)) :
  Forall (λ kv, safe_key kv.1 = true) prof →
  updateUser be id prof =
    if reachable be then
      match docs be !! id with
      | None => (be, UUndefined)
      | Some d =>
          if keys_present (profile d) prof then
            let d' := setProfile d (patch_profile (profile d) prof) in
            (mkBackend (<[id := d']> (docs be)) true, UFound d')
          else (be, UNull)
      end
    else (be, UNull).
Proof.
  intros Hsafe. unfold updateUser, api_patch.
  destruct (reachable be); [|done].
  destruct (docs be !! id) as [d|]; [|done].
  rewrite apply_profile_patch by done. by destruct (keys_present _ _).
Qed.

(** A successful [updateUser] writes the profile only: the account's id,
    admin flag, conditions and groups are those stored before, and no
    other account changes. *)
Theorem updateUser_profile_only (be be' : Backend) id prof (d' : Account) :
  updateUser be id prof = (be', UFound d') →
  ∃ d, docs be !! id = Some d ∧ same_but_profile d d' ∧
       docs be' = <[id := d']> (docs be).
Proof.
  unfold updateUser, api_patch.
  destruct (reachable be); [|simpl; intros [=]].
  destruct (docs be !! id) as [d|]; [|simpl; intros [=]].
  destruct (apply_patch d _) as [d1|] eqn:E; simpl; intros [= <- <-].
  eauto using apply_patch_same_but_profile.
Qed.

(** C25: The path is built by string concatenation, not escaped as RFC 6901
    requires ("/" as "~1"): whenever the profile names a key holding a
    "/", that key's operation addresses a path below the key's first
    segment, so the whole patch is rejected (422), even when the stored
    profile has that very key.  The store is unchanged and [updateUser]
    resolves to [null]. *)
Theorem updateUser_unescaped_key (be : Backend) id prof (d : Account) k1 k2 v :
  reachable be = true → docs be !! id = Some d →
  ((k1 ++ "/" ++ k2)%string, v) ∈ prof →
  updateUser be id prof = (be, UNull).
Proof.
  intros Hr Hd Hk. unfold updateUser, api_patch. rewrite Hr, Hd.
  rewrite (apply_patch_stuck _ _ (profile_patch_op ((k1 ++ "/" ++ k2)%string, v))); [done| |].
  - by apply list_elem_of_fmap_2.
  - intros d'. apply apply_op_slash.
Qed.

Lemma updateUser_unescaped_key_witness :
  let d := mkAccount "u" (<["name" := "Ann"]> {["a/b" := "x"]}) false [] ∅ in
  let be := mkBackend {["u" := d]} true in
  reachable be = true ∧ docs be !! "u" = Some d ∧
  (("a" ++ "/" ++ "b")%string, "y") ∈ [("name", "Bob"); ("a/b", "y")] ∧
  updateUser be "u" [("name", "Bob"); ("a/b", "y")] = (be, UNull).
Proof.
  simpl. split_and!; [reflexivity | reflexivity | apply (bool_decide_unpack _); vm_compute; reflexivity |].
  apply (updateUser_unescaped_key _ _ _ (mkAccount "u" (<["name" := "Ann"]> {["a/b" := "x"]}) false [] ∅)
           "a" "b" "y"); [reflexivity | reflexivity | apply (bool_decide_unpack _); vm_compute; reflexivity].
Defined.

(** The object [createUser] sends names the API group and version the
    service addresses, so the API server accepts it under the resource the
    other methods read. *)
Theorem create_body_matches_resource (id : string) (prof : gmap string string) :
  apiVersion (create_body id prof) = (group kube_resource ++ "/" ++ version kube_resource)%string ∧
  metadata_name (create_body id prof) = id.
Proof. split; reflexivity. Qed.

(** C26: [createUser] on a taken id: the API server answers 409, which the
    catch handler turns into [null]; the store is unchanged. *)
Theorem createUser_existing (be : Backend) id prof (d : Account) :
  reachable be = true → docs be !! id = Some d →
  createUser be id prof = (be, UNull).
Proof. intros Hr Hd. unfold createUser, api_create. simpl. by rewrite Hr, Hd. Qed.

(** [createUser] on a fresh id stores and returns the new account. *)
Lemma createUser_fresh (be : Backend) id prof :
  reachable be = true → docs be !! id = None →
  createUser be id prof =
    (mkBackend (<[id := new_user_doc id prof]> (docs be)) true, UFound (new_user_doc id prof)).
Proof. intros Hr Hd. unfold createUser, api_create. simpl. by rewrite Hr, Hd. Qed.

(** The store invariant: [createUser] keeps each document under its
    own name. *)
Theorem createUser_wf (be : Backend) id prof :
  backend_wf be → backend_wf (createUser be id prof).1.
Proof.
  intros Hwf. unfold createUser, api_create.
  destruct (reachable be); [|done]. simpl.
  destruct (docs be !! id); simpl; [done|]. by apply backend_wf_insert.
Qed.

(** The store invariant: [updateUser] keeps each document under its
    own name, whatever the patch does. *)
Theorem updateUser_wf (be : Backend) id prof :
  backend_wf be → backend_wf (updateUser be id prof).1.
Proof.
  intros Hwf. destruct (updateUser be id prof) as [be' r] eqn:E. simpl.
  unfold updateUser, api_patch in E.
  destruct (reachable be); [|by simplify_eq].
  destruct (docs be !! id) as [d|] eqn:Hd; [|by simplify_eq].
  destruct (apply_patch d _) as [d'|] eqn:Ep; simplify_eq; [|done].
  apply backend_wf_insert; [done|].
  destruct (apply_patch_same_but_profile _ _ _ Ep) as [-> _]. eauto.
Qed.

(** ** Witnesses *)

Definition wit_doc : Account := mkAccount "u" {["name" := "A"]} false [] ∅.
Definition wit_backend : Backend := mkBackend {["u" := wit_doc]} true.

Lemma updateUser_spec_witness :
  Forall (λ kv : string * string, safe_key kv.1 = true) [("name", "Bob")] ∧
  updateUser wit_backend "u" [("name", "Bob")] =
    if reachable wit_backend then
      match docs wit_backend !! "u" with
      | None => (wit_backend, UUndefined)
      | Some d =>
          if keys_present (profile d) [("name", "Bob")] then
            let d' := setProfile d (patch_profile (profile d) [("name", "Bob")]) in
            (mkBackend (<["u" := d']> (docs wit_backend)) true, UFound d')
          else (wit_backend, UNull)
      end
    else (wit_backend, UNull).
Proof. split; [by apply (bool_decide_unpack _) | apply updateUser_spec; by apply (bool_decide_unpack _)]. Defined.

Definition wit_doc_bob : Account := mkAccount "u" {["name" := "Bob"]} false [] ∅.

Lemma updateUser_profile_only_witness :
  updateUser wit_backend "u" [("name", "Bob")] =
    ((updateUser wit_backend "u" [("name", "Bob")]).1, UFound wit_doc_bob) ∧
  ∃ d, docs wit_backend !! "u" = Some d ∧ same_but_profile d wit_doc_bob ∧
       docs (updateUser wit_backend "u" [("name", "Bob")]).1 = <["u" := wit_doc_bob]> (docs wit_backend).
Proof.
  assert (updateUser wit_backend "u" [("name", "Bob")] =
            ((updateUser wit_backend "u" [("name", "Bob")]).1, UFound wit_doc_bob)) as H
    by (vm_compute; reflexivity).
  split; [exact H | apply (updateUser_profile_only _ _ _ _ _ H)].
Defined.

Lemma createUser_existing_witness :
  reachable wit_backend = true ∧ docs wit_backend !! "u" = Some wit_doc ∧
  createUser wit_backend "u" ∅ = (wit_backend, UNull).
Proof. split_and!; [reflexivity | reflexivity | apply (createUser_existing _ _ _ wit_doc); reflexivity]. Defined.

Lemma updateUser_wf_witness :
  backend_wf wit_backend ∧ backend_wf (updateUser wit_backend "u" [("name", "Bob")]).1.
Proof.
  assert (backend_wf wit_backend) as H by (apply (bool_decide_unpack _); vm_compute; reflexivity).
  split; [exact H | by apply updateUser_wf].
Defined.

Lemma createUser_fresh_witness :
  docs wit_backend !! "v" = None ∧
  createUser wit_backend "v" ∅ =
    (mkBackend (<["v" := new_user_doc "v" ∅]> (docs wit_backend)) true, UFound (new_user_doc "v" ∅)).
Proof. split; [reflexivity | apply createUser_fresh; reflexivity]. Defined.

Lemma createUser_wf_witness :
  backend_wf wit_backend ∧ backend_wf (createUser wit_backend "v" {["name" := "V"]}).1.
Proof.
  assert (backend_wf wit_backend) as H by (apply (bool_decide_unpack _); vm_compute; reflexivity).
  split; [exact H | by apply createUser_wf].
Defined.

End KubeApi.

(** [KubeApiService] implements the account-loading interface the checks
    use, over well-formed backends. *)
#[export] Program Instance kube_user_service : UserService KubeApi.Backend := {|
  findUser := KubeApi.findUser;
  store_wf := KubeApi.backend_wf;
|}.
Next Obligation.
  intros be id a Hwf H. apply KubeApi.findUser_found in H as [_ H]. eauto.
Qed.

Module KubeStore.
Import KubeApi.

(** The account writes on the same backend (the support service's
    [confirmTos] and [updateUserSpec], modelled from the spec): the write
    reaches the named document when the API server is reachable. *)
Definition write (be : Backend) (id : string) (f : Account → Account) : Backend :=
  if reachable be then mkBackend (alter f id (docs be)) true else be.

Lemma findUser_write_self be id f a :
  findUser be id = UFound a → findUser (write be id f) id = UFound (f a).
Proof.
  intros H. apply findUser_found in H as [Hr Hd].
  unfold write, findUser, api_get. rewrite Hr. simpl. by rewrite lookup_alter_eq, Hd.
Qed.

Lemma findUser_write_absent be id f :
  (∀ a, findUser be id ≠ UFound a) → findUser (write be id f) id = findUser be id.
Proof.
  intros H. unfold write. destruct (reachable be) eqn:Hr; [|done].
  unfold findUser, api_get in *. rewrite Hr in *. simpl. rewrite lookup_alter_eq.
  destruct (docs be !! id) as [d|] eqn:E; [|done]. exfalso. by apply (H d).
Qed.

Lemma findUser_write_other be id id' f :
  id ≠ id' → findUser (write be id f) id' = findUser be id'.
Proof.
  intros Hne. unfold write. destruct (reachable be) eqn:Hr; [|done].
  unfold findUser, api_get. rewrite Hr. simpl. by rewrite lookup_alter_ne.
Qed.

Lemma write_wf be id f :
  (∀ a, accountId (f a) = accountId a) → backend_wf be → backend_wf (write be id f).
Proof.
  intros Hf Hwf id' d. unfold write. destruct (reachable be); [|apply Hwf]. simpl.
  rewrite lookup_alter_Some. intros [(<- & d0 & Hd0 & ->) | [_ Hd]]; [|by apply Hwf].
  rewrite Hf. by apply Hwf.
Qed.

(** The patch's in-order replacements equal the object merge when the keys
    are distinct (as [Object.keys] gives them). *)
Lemma patch_profile_merge m (prof : list (string * string)) :
  NoDup prof.*1 → patch_profile m prof = list_to_map prof ∪ m.
Proof.
  revert m. induction prof as [|[k v] prof IH]; intros m Hnd; simpl.
  - by rewrite map_empty_union.
  - apply NoDup_cons in Hnd as [Hk Hnd]. unfold patch_profile in IH.
    rewrite IH by done. rewrite <-insert_union_r, insert_union_l; [done|].
    by apply not_elem_of_list_to_map_1.
Qed.

Lemma updateUser_write (be : Backend) id (prof : list (string * string)) :
  Forall (λ kv, safe_key kv.1 = true) prof → NoDup prof.*1 →
  (∀ d, docs be !! id = Some d → keys_present (profile d) prof = true) →
  (updateUser be id prof).1 = write be id (λ a, setProfile a (list_to_map prof ∪ profile a)).
Proof.
  intros Hs Hnd Hk. unfold updateUser, api_patch, write.
  destruct (reachable be) eqn:Hr; [|done].
  destruct (docs be !! id) as [d|] eqn:Hd; simpl.
  - rewrite apply_profile_patch, (Hk d), patch_profile_merge by done. simpl.
    f_equal. apply map_eq. intros i. destruct (decide (i = id)) as [->|].
    + by rewrite lookup_insert_eq, lookup_alter_eq, Hd.
    + by rewrite lookup_insert_ne, lookup_alter_ne.
  - destruct be as [ds rb]; simpl in *. subst rb. f_equal. apply map_eq. intros i.
    destruct (decide (i = id)) as [->|]; [by rewrite lookup_alter_eq, Hd|].
    by rewrite lookup_alter_ne.
Qed.

Lemma write_write be id f g : write (write be id f) id g = write be id (λ a, g (f a)).
Proof.
  unfold write. destruct (reachable be) eqn:Hr; simpl; [|by rewrite Hr].
  f_equal. by rewrite alter_alter_eq.
Qed.

Lemma write_ext be id f g : (∀ a, f a = g a) → write be id f = write be id g.
Proof.
  intros Hfg. unfold write. destruct (reachable be); [|done].
  f_equal. apply alter_ext. intros a _. apply Hfg.
Qed.

Lemma write_lookup be id f d :
  docs (write be id f) !! id = Some d → ∃ d0, docs be !! id = Some d0 ∧ (d = f d0 ∨ d = d0).
Proof.
  unfold write. destruct (reachable be); simpl; [|eauto].
  rewrite lookup_alter_eq. destruct (docs be !! id); simpl; intros [= <-]; eauto.
Qed.

Lemma keys_present_merge (m l : gmap string string) prof :
  keys_present m prof = true → keys_present (l ∪ m) prof = true.
Proof.
  unfold keys_present. rewrite !forallb_forall. intros H kv Hkv.
  specialize (H kv Hkv). apply bool_decide_eq_true in H. apply bool_decide_eq_true.
  apply lookup_union_is_Some. by right.
Qed.

Lemma list_to_map_disjoint (p1 p2 : list (string * string)) :
  p1.*1 ## p2.*1 → (list_to_map p1 : gmap string string) ##ₘ list_to_map p2.
Proof.
  intros Hd. apply map_disjoint_spec. intros k v1 v2 H1 H2.
  apply elem_of_list_to_map_2 in H1, H2.
  apply (Hd k); [apply (list_elem_of_fmap_2 fst _ (k, v1)) | apply (list_elem_of_fmap_2 fst _ (k, v2))]; done.
Qed.

(** Two [updateUser] calls, one after the other, are one merge write of
    both profiles, the later one's values winning. *)
Lemma updateUser_twice be id p1 p2 :
  Forall (λ kv, safe_key kv.1 = true) p1 → Forall (λ kv, safe_key kv.1 = true) p2 →
  NoDup p1.*1 → NoDup p2.*1 →
  (∀ d, docs be !! id = Some d → keys_present (profile d) p1 = true ∧ keys_present (profile d) p2 = true) →
  (updateUser (updateUser be id p1).1 id p2).1 =
    write be id (λ a, setProfile a (list_to_map p2 ∪ (list_to_map p1 ∪ profile a))).
Proof.
  intros Hs1 Hs2 Hn1 Hn2 Hk. rewrite (updateUser_write be id p1) by (done || naive_solver).
  rewrite updateUser_write, write_write; [done..|].
  intros d Hd. apply write_lookup in Hd as (d0 & Hd0 & [->| ->]); simpl;
    [apply keys_present_merge|]; by apply Hk.
Qed.

(** C24: two requests updating the same account's profile
    concurrently (blind patches, no version check: spec, section 9).
    Each patch is atomic on the API server, so any interleaving is one of
    the two orders, and the order decides: the result is one merge write
    in which the later request's values win; when the two requests touch
    disjoint keys the order does not matter. *)
Theorem concurrent_profile_updates be id p1 p2 :
  Forall (λ kv, safe_key kv.1 = true) p1 → Forall (λ kv, safe_key kv.1 = true) p2 →
  NoDup p1.*1 → NoDup p2.*1 →
  (∀ d, docs be !! id = Some d → keys_present (profile d) p1 = true ∧ keys_present (profile d) p2 = true) →
  (updateUser (updateUser be id p1).1 id p2).1 =
    write be id (λ a, setProfile a (list_to_map p2 ∪ (list_to_map p1 ∪ profile a))) ∧
  (p1.*1 ## p2.*1 →
     (updateUser (updateUser be id p1).1 id p2).1 = (updateUser (updateUser be id p2).1 id p1).1).
Proof.
  intros Hs1 Hs2 Hn1 Hn2 Hk. rewrite !updateUser_twice by (done || naive_solver).
  split; [done|]. intros Hdis. apply write_ext. intros a.
  rewrite !map_union_assoc, (map_union_comm (list_to_map p2)); [done|].
  by apply map_disjoint_sym, list_to_map_disjoint.
Qed.

Lemma concurrent_profile_updates_witness :
  let be := mkBackend {["u" := mkAccount "u" {["name" := "Ann"; "email" := "a@x"]} false [] ∅]} true in
  (updateUser (updateUser be "u" [("name", "Bob")]).1 "u" [("email", "b@x")]).1 =
    (updateUser (updateUser be "u" [("email", "b@x")]).1 "u" [("name", "Bob")]).1 ∧
  (updateUser (updateUser be "u" [("name", "Bob")]).1 "u" [("name", "Eve")]).1 =
    write be "u" (λ a, setProfile a (list_to_map [("name", "Eve")] ∪ (list_to_map [("name", "Bob")] ∪ profile a))).
Proof.
  intros be.
  assert (Hk : ∀ p1 p2, p1 ∈ [[("name", "Bob")]; [("email", "b@x")]; [("name", "Eve")]] →
            p2 ∈ [[("name", "Bob")]; [("email", "b@x")]; [("name", "Eve")]] →
            ∀ d, docs be !! "u" = Some d →
            keys_present (profile d) p1 = true ∧ keys_present (profile d) p2 = true).
  { intros p1 p2 H1 H2 d Hd. vm_compute in Hd. injection Hd as <-.
    repeat (apply elem_of_cons in H1 as [->|H1]); [..|by apply elem_of_nil in H1];
    repeat (apply elem_of_cons in H2 as [->|H2]); try (by apply elem_of_nil in H2); done. }
  assert (Hdis : [("name", "Bob")].*1 ## [("email", "b@x")].*1).
  { intros x Hx1 Hx2. simpl in *. apply list_elem_of_singleton in Hx1, Hx2. congruence. }
  split.
  - refine (proj2 (concurrent_profile_updates be "u" [("name", "Bob")] [("email", "b@x")]
                     _ _ _ _ _) Hdis);
      [apply (bool_decide_unpack _); vm_compute; reflexivity.. | apply Hk; repeat constructor].
  - refine (proj1 (concurrent_profile_updates be "u" [("name", "Bob")] [("name", "Eve")]
                     _ _ _ _ _));
      [apply (bool_decide_unpack _); vm_compute; reflexivity.. | apply Hk; repeat constructor].
Defined.

End KubeStore.

#[export] Program Instance kube_user_store : UserStore KubeApi.Backend := {|
  store_confirmCondition be id n ck := KubeStore.write be id (confirmCondition n ck);
  store_updateProfile be id p := KubeStore.write be id (λ a, setProfile a (p ∪ profile a));
|}.
Next Obligation. intros. by apply KubeStore.findUser_write_self. Qed.
Next Obligation. intros. by apply KubeStore.findUser_write_absent. Qed.
Next Obligation. intros. by apply KubeStore.findUser_write_other. Qed.
Next Obligation.
  intros be id p a H. exact (KubeStore.findUser_write_self be id (λ a, setProfile a (p ∪ profile a)) a H).
Qed.
Next Obligation. intros. by apply KubeStore.findUser_write_absent. Qed.
Next Obligation. intros. by apply KubeStore.findUser_write_other. Qed.
Next Obligation. intros. by apply KubeStore.write_wf. Qed.
Next Obligation. intros. by apply KubeStore.write_wf. Qed.

(** ** The API client the constructor builds (lines 6-29) *)

Module KubeClient.

Record NamedCluster := mkCluster { cluster_name : string; server : string }.
Record NamedUser := mkUser { user_name : string; token : string }.
Record NamedContext := mkContext {
  context_name : string;
  context_user : string;
  context_cluster : string;
}.

(** A [KubeConfig] after [loadFromOptions]. *)
Record KubeConfig := mkKubeConfig {
  clusters : list NamedCluster;
  users : list NamedUser;
  contexts : list NamedContext;
  currentContext : string;
}.

(** [kc.loadFromOptions({...})] (lines 7-23), [token] being the contents
    of the service account's token file. *)
Definition kube_config (tok : string) : KubeConfig :=
  mkKubeConfig [mkCluster "codemowers" "https://kube.codemowers.eu"]
               [mkUser "oidc-gateway" tok]
               [mkContext "codemowers" "oidc-gateway" "codemowers"]
               "codemowers".

(** client-node's [findObject]: the first entry of that name. *)
Definition find_named {A} (name_of : A → string) (n : string) (l : list A) : option A :=
  List.find (λ x, bool_decide (name_of x = n)) l.

Definition getContextObject (kc : KubeConfig) : option NamedContext :=
  find_named context_name (currentContext kc) (contexts kc).

Definition getCurrentCluster (kc : KubeConfig) : option NamedCluster :=
  getContextObject kc ≫= λ c, find_named cluster_name (context_cluster c) (clusters kc).

Definition getCurrentUser (kc : KubeConfig) : option NamedUser :=
  getContextObject kc ≫= λ c, find_named user_name (context_user c) (users kc).

(** A generated API client: its base path and the [Authorization] header
    [applyToRequest] adds. *)
Record ApiClient := mkApiClient { basePath : string; authorization : option string }.

(** [kc.makeApiClient(k8s.CustomObjectsApi)]: without a current cluster it
    throws ["No active cluster!"]; a user's token is sent as a bearer
    token. *)
Definition makeApiClient (kc : KubeConfig) : exc ApiClient :=
  match getCurrentCluster kc with
  | None => throw (PlainError "No active cluster!")
  | Some cl =>
      Ret (mkApiClient (server cl)
             (match getCurrentUser kc with
              | Some u => Some ("Bearer " ++ token u)%string
              | None => None
              end))
  end.

(** [new KubeApiService()]: the client and the resource coordinates. *)
Definition kube_api_service (tok : string) : exc (ApiClient * KubeApi.KubeResource) :=
  c ← makeApiClient (kube_config tok); Ret (c, KubeApi.kube_resource).

(** The constructor never throws: the current context names the cluster
    and the user it declares, so every request goes to the codemowers API
    server with the service account's token, whatever that token is. *)
Lemma kube_api_service_client tok :
  kube_api_service tok =
    Ret (mkApiClient "https://kube.codemowers.eu" (Some ("Bearer " ++ tok)%string), KubeApi.kube_resource).
Proof. reflexivity. Qed.
End KubeClient.

