(* ===== verification/SiteSession.v ===== *)
(** * The site-session bridge

    support/site-session.js (not under src/, modelled from the spec): a
    middleware client (a reverse proxy guarding another site) gets a site
    session tied to the OIDC session's id ([Session.jti]).  The store is
    keyed by the site session's own id, which the browser holds in a signed
    cookie bound to the client.  [validateSiteSession] never throws: a
    missing cookie, a bad signature or another client's cookie all give
    [false].  [updateSiteSession] overwrites the stored [sessionId] only;
    [addSiteSession] creates a session under a fresh id. *)

From S2P Require Import Prelude Account.

Record SiteSession := mkSiteSession {
  siteSessionId : string;
  sessionId : string;
  ss_accountId : string;
  ss_clientId : string;
}.

#[export] Instance SiteSession_eq_dec : EqDecision SiteSession.
Proof. solve_decision. Defined.

(** The signed cookie as the request carries it: whose site session it
    names, for which client it was issued, and whether its signature
    verifies. *)
Record SiteCookie := mkSiteCookie {
  ck_siteSessionId : string;
  ck_clientId : string;
  ck_signature_ok : bool;
}.

(** [validateSiteSession(ctx, clientId)]. *)
Definition validateSiteSession (cookie : option SiteCookie) (cid : string) : bool :=
  match cookie with
  | Some ck => ck_signature_ok ck && bool_decide (ck_clientId ck = cid)
  | None => false
  end.

(** [updateSiteSession(siteSession)]: rebind [sessionId] of the stored
    record, or store the record when there is none. *)
Definition updateSiteSession (store : gmap string SiteSession) (ss : SiteSession)
    : gmap string SiteSession :=
  match store !! siteSessionId ss with
  | Some old =>
      <[siteSessionId ss := mkSiteSession (siteSessionId old) (sessionId ss)
                                          (ss_accountId old) (ss_clientId old)]> store
  | None => <[siteSessionId ss := ss]> store
  end.

(** [addSiteSession(ctx, provider, jti, accountId, client)], with the
    fresh id it draws given as [fresh]. *)
Definition addSiteSession (store : gmap string SiteSession) (fresh jti aid : string)
    (c : Client) : gmap string SiteSession * SiteSession :=
  let ss := mkSiteSession fresh jti aid (clientId c) in (<[fresh := ss]> store, ss).

(** ** Lemmas *)

Lemma validateSiteSession_true cookie cid :
  validateSiteSession cookie cid = true ↔
  ∃ ck, cookie = Some ck ∧ ck_signature_ok ck = true ∧ ck_clientId ck = cid.
Proof.
  destruct cookie as [ck|]; simpl; [|naive_solver].
  rewrite andb_true_iff, bool_decide_eq_true. naive_solver.
Qed.

(** Rebinding is idempotent: a second [updateSiteSession] with the same
    session leaves the store as the first left it. *)
Lemma updateSiteSession_idem store ss :
  updateSiteSession (updateSiteSession store ss) ss = updateSiteSession store ss.
Proof.
  unfold updateSiteSession.
  destruct (store !! siteSessionId ss) as [old|] eqn:E;
    rewrite lookup_insert_eq; simpl; rewrite insert_insert_eq; by destruct ss.
Qed.

(** After the update the stored session is bound to [sessionId ss]. *)
Lemma updateSiteSession_lookup store ss :
  ∃ s, updateSiteSession store ss !! siteSessionId ss = Some s ∧
       sessionId s = sessionId ss.
Proof.
  unfold updateSiteSession.
  destruct (store !! siteSessionId ss); rewrite lookup_insert_eq; eauto.
Qed.

(** Other site sessions are untouched. *)
Lemma updateSiteSession_other store ss sid :
  sid ≠ siteSessionId ss → updateSiteSession store ss !! sid = store !! sid.
Proof.
  intros Hne. unfold updateSiteSession.
  destruct (store !! siteSessionId ss); by rewrite lookup_insert_ne.
Qed.

#[export] Hint Rewrite updateSiteSession_idem : passmower.
