(* ===== verification/Policy.v ===== *)
(** * The policy chain

    src/implementation/setup-policies.js builds the interaction policy
    from oidc-provider's [base()] policy: four prompts are inserted with
    [basePolicy.add(prompt, i)] (an [Array.prototype.splice] at [i]) and a
    check is appended to the consent prompt that [basePolicy.get('consent')]
    returns (the same object the policy holds, mutated in place).

    oidc-provider (not under src/, modelled from the spec and the library's
    documented behaviour) evaluates the policy on every authorization
    request and every resumption: prompts in list order; for a prompt, all
    of its checks run ([Promise.all]: every check runs and its effects
    happen, a rejection wins over the verdicts); a check returning a truthy
    value ([Check.REQUEST_PROMPT]) makes the prompt pending, and the first
    pending prompt becomes the interaction's prompt, later prompts being
    not evaluated.  When no prompt is pending the authorization resumes.

    The checks read the session's account through the [UserService]
    interface (Account.v): the theorems here hold for any store that
    implements it.  A check is a computation in [st World bool]: it reads
    and may write the shared state [World]. *)

From S2P Require Import Prelude Account KubeApi SiteSession.

(** ** oidc-provider entities *)

(** A value stored in the interaction's result object: the keys the code
    writes are [login], [consent], [siteSession] and [tosTextChecksum]; a
    key written with the value [undefined] is present but falsy. *)
Inductive RVal :=
| RUndefined
| RLogin (accountId : string)
| RConsent (grantId : string)
| RSiteSession (ss : SiteSession)
| RText (s : string).

(** The request context a check reads ([ctx.oidc]): the session's account
    id and [jti], the client entity, the requested scopes, and the signed
    site-session cookie of the request. *)
Record OidcCtx := mkCtx {
  session_accountId : option string;
  session_jti : string;
  client : Client;
  requested_scopes : gset string;
  site_cookie : option SiteCookie;
}.

Section Policy.
Context {S : Type} `{!UserService S}.

(** The state shared by the checks and the handlers: the account store,
    the site sessions, the grants by (account, client), and the pending
    interaction's result object ([None] while it is [undefined]). *)
Record World := mkWorld {
  users : S;
  site_sessions : gmap string SiteSession;
  grants : gmap (string * string) (gset string);
  interaction_result : option (gmap string RVal);
}.

(** [new Check(reason, description, error, check)]. *)
Record Check := mkCheck {
  reason : string;
  description : string;
  error : string;
  check : OidcCtx → st World bool;
}.

(** [new Prompt({ name, requestable }, ...checks)]. *)
Record Prompt := mkPrompt {
  name : string;
  requestable : bool;
  checks : list Check;
}.

(** ** The library's list operations *)

(** [policy.get(name)]: the first prompt with that name. *)
Definition policy_get (pol : list Prompt) (n : string) : option Prompt :=
  find (λ p, bool_decide (name p = n)) pol.

(** [policy.add(prompt, i)]: refuses a duplicate name, then
    [this.splice(i, 0, prompt)], which appends when [i] is past the end. *)
Definition policy_add (p : Prompt) (i : nat) (pol : list Prompt) : exc (list Prompt) :=
  match policy_get pol (name p) with
  | Some _ => throw (PlainError "prompt already exists")
  | None => Ret (take i pol ++ p :: drop i pol)
  end.

(** [prompt.checks.add(check)]: refuses a duplicate reason, then pushes. *)
Definition checks_add (c : Check) (cs : list Check) : exc (list Check) :=
  match find (λ c', bool_decide (reason c' = reason c)) cs with
  | Some _ => throw (PlainError "check already exists")
  | None => Ret (cs ++ [c])
  end.

(** The consent prompt is one object shared by the policy and the
    variable [consentPolicy]: writing its checks changes the first prompt
    of the policy with that name. *)
Fixpoint policy_set_checks (n : string) (cs : list Check) (pol : list Prompt)
    : list Prompt :=
  match pol with
  | [] => []
  | p :: pol' =>
      if bool_decide (name p = n) then mkPrompt (name p) (requestable p) cs :: pol'
      else p :: policy_set_checks n cs pol'
  end.

(** ** The checks *)

(** [await kubeOIDCUserService.findUser(oidc.session.accountId)] followed by
    a property read: [null] and [undefined] throw a [TypeError]; a session
    without an account id makes the service call reject. *)
Definition session_user (ctx : OidcCtx) : st World Account := λ w,
  (match session_accountId ctx with
   | Some id => deref_user (findUser (users w) id)
   | None => throw (PlainError "RequiredError")
   end, w).

(** base() login prompt, check [no_session]. *)
Definition no_session_check : Check :=
  mkCheck "no_session" "End-User authentication is required" "login_required"
    (λ ctx, st_ret (negb (bool_decide (is_Some (session_accountId ctx))))).

(** base() consent prompt, check [op_scopes_missing]: the grant of this
    account to this client lacks a requested scope. *)
Definition op_scopes_missing_check : Check :=
  mkCheck "op_scopes_missing" "requested scopes not granted" "consent_required"
    (λ ctx w,
      (Ret match session_accountId ctx with
           | Some a =>
               negb (bool_decide (requested_scopes ctx ⊆
                       default ∅ (grants w !! (a, clientId (client ctx)))))
           | None => true
           end, w)).

(** setup-policies.js lines 14-18. *)
Definition approval_required_check : Check :=
  mkCheck "approval_required" "User needs to be approved" "interaction_required"
    (λ ctx, kubeUser <- session_user ctx ;;
            st_ret (if isAdmin kubeUser then false
                    else negb (checkCondition kubeUser Approved))).

(** setup-policies.js lines 25-29: [kubeUser.profile.name] is tested for
    truthiness, so an empty name still requests the prompt. *)
Definition name_required_check : Check :=
  mkCheck "name_required" "User profile requires name" "interaction_required"
    (λ ctx, kubeUser <- session_user ctx ;;
            st_ret (negb (truthy_string (profile kubeUser !! "name")))).

(** setup-policies.js lines 36-40; [new ToSv1()] pins the checksum of the
    terms currently served, [tos_checksum]. *)
Definition tos_not_accepted_check (tos_checksum : string) : Check :=
  mkCheck "tos_not_accepted" "ToS needs to be accepted" "interaction_required"
    (λ ctx, kubeUser <- session_user ctx ;;
            st_ret (negb (checkCondition kubeUser (ToSv1 tos_checksum)))).

(** setup-policies.js lines 47-50; [oidc.entities.Account] is the account
    the provider loaded for the session, read here from the same store. *)
Definition allowed_groups_required_check : Check :=
  mkCheck "allowed_groups_required" "Allowed groups required" "interaction_required"
    (λ ctx, account <- session_user ctx ;;
            st_ret (negb (checkAccountGroups (client ctx) account))).

(** setup-policies.js lines 55-68.  When the interaction's result holds a
    provisional site session, the check rebinds its [sessionId] to the
    current session's [jti] on the shared result object and persists it. *)
Definition site_cookie_required_check : Check :=
  mkCheck "site_cookie_required" "Site cookie required" "interaction_required"
    (λ ctx w,
      if bool_decide (kind (client ctx) = Some OIDCGWMiddlewareClient) then
        if negb (validateSiteSession (site_cookie ctx) (clientId (client ctx))) then
          (Ret true, w)
        else
          match interaction_result w ≫= (.!! "siteSession") with
          | Some (RSiteSession ss) =>
              let ss' := mkSiteSession (siteSessionId ss) (session_jti ctx)
                                       (ss_accountId ss) (ss_clientId ss) in
              (Ret false,
               mkWorld (users w) (updateSiteSession (site_sessions w) ss')
                       (grants w)
                       (<["siteSession" := RSiteSession ss']> <$> interaction_result w))
          | _ => (Ret false, w)
          end
      else (Ret false, w)).

(** ** The prompts and the policy *)

(** oidc-provider's [base()]: the login prompt, then the consent prompt. *)
Definition base_policy : list Prompt :=
  [mkPrompt "login" true [no_session_check]; mkPrompt "consent" true [op_scopes_missing_check]].

Definition approvalRequiredPolicy : Prompt :=
  mkPrompt "approval_required" false [approval_required_check].
Definition namePolicy : Prompt := mkPrompt "name" true [name_required_check].
Definition tosPolicy (tos_checksum : string) : Prompt :=
  mkPrompt "tos" true [tos_not_accepted_check tos_checksum].
Definition allowedGroupsPolicy : Prompt :=
  mkPrompt "groups_required" true [allowed_groups_required_check].

(** The exported function of setup-policies.js. *)
Definition setup_policies (tos_checksum : string) : exc (list Prompt) :=
  pol ← policy_add approvalRequiredPolicy 1 base_policy;
  pol ← policy_add namePolicy 2 pol;
  pol ← policy_add (tosPolicy tos_checksum) 3 pol;
  pol ← policy_add allowedGroupsPolicy 4 pol;
  match policy_get pol "consent" with
  | None => throw TypeError
  | Some consentPolicy =>
      cs ← checks_add site_cookie_required_check (checks consentPolicy);
      Ret (policy_set_checks "consent" cs pol)
  end.

(** ** Evaluation (oidc-provider's interaction resolution) *)

(** [Promise.all] over a prompt's checks: every check runs, in order, on
    the state the previous ones left; the reasons of the checks that
    request the prompt are collected; the first rejection wins. *)
Fixpoint run_checks (cs : list Check) (ctx : OidcCtx) : st World (list string) := λ w,
  match cs with
  | [] => (Ret [], w)
  | c :: cs' =>
      let '(r1, w1) := check c ctx w in
      let '(r2, w2) := run_checks cs' ctx w1 in
      (match r1, r2 with
       | Ret b, Ret rs => Ret (if b then reason c :: rs else rs)
       | Throw e, _ => Throw e
       | Ret _, Throw e => Throw e
       end, w2)
  end.

(** The first prompt with a requesting check, with its reasons; [None]
    when every prompt is satisfied and the authorization resumes. *)
Fixpoint resolve (pol : list Prompt) (ctx : OidcCtx)
    : st World (option (string * list string)) :=
  match pol with
  | [] => st_ret None
  | p :: pol' =>
      rs <- run_checks (checks p) ctx ;;
      match rs with
      | [] => resolve pol' ctx
      | _ :: _ => st_ret (Some (name p, rs))
      end
  end.

(** ** The abstract specification of evaluation *)

(** A prompt's reasons judged on one state, without effects. *)
Fixpoint check_reasons (cs : list Check) (ctx : OidcCtx) (w : World) : exc (list string) :=
  match cs with
  | [] => Ret []
  | c :: cs' =>
      match (check c ctx w).1, check_reasons cs' ctx w with
      | Ret b, Ret rs => Ret (if b then reason c :: rs else rs)
      | Throw e, _ => Throw e
      | Ret _, Throw e => Throw e
      end
  end.

(** The first unsatisfied prompt of the chain, judged on one state. *)
Fixpoint first_unsatisfied (pol : list Prompt) (ctx : OidcCtx) (w : World)
    : exc (option (string * list string)) :=
  match pol with
  | [] => Ret None
  | p :: pol' =>
      rs ← check_reasons (checks p) ctx w;
      match rs with
      | [] => first_unsatisfied pol' ctx w
      | _ :: _ => Ret (Some (name p, rs))
      end
  end.
End Policy.

Arguments World S : clear implicits.

(** ** Lemmas and theorems *)

Section PolicyFacts.
Context {S : Type} `{!UserService S}.
Implicit Types (w : World S) (ctx : OidcCtx).

(** The policy [setup_policies] is expected to build: base login, the four
    gateway prompts in priority order, and consent with the site-cookie
    check after the base consent check. *)
Definition gateway_policy (tos_checksum : string) : list (Prompt (S:=S)) :=
  [mkPrompt "login" true [no_session_check]; approvalRequiredPolicy; namePolicy; tosPolicy tos_checksum;
   allowedGroupsPolicy;
   mkPrompt "consent" true [op_scopes_missing_check; site_cookie_required_check]].

(** Two states a check cannot tell apart: the same store and grants. *)
Definition same_reads w w' : Prop := users w = users w' ∧ grants w = grants w'.

#[export] Instance same_reads_equiv : Equivalence same_reads.
Proof.
  unfold same_reads. split.
  - done.
  - intros w w' [??]. done.
  - intros w1 w2 w3 [??] [??]. split; congruence.
Qed.

(** A framed check reads the store and the grants only, and writes
    neither. *)
Definition check_framed (c : Check) : Prop :=
  ∀ ctx w w', same_reads w w' →
    (check c ctx w).1 = (check c ctx w').1 ∧ same_reads w (check c ctx w).2.

Definition policy_framed (pol : list (Prompt (S:=S))) : Prop :=
  Forall (λ p, Forall check_framed (checks p)) pol.

Section framed.
Context (ctx : OidcCtx).

Lemma check_reasons_proper cs :
  Forall check_framed cs → Proper (same_reads ==> eq) (check_reasons cs ctx).
Proof.
  induction 1 as [|c cs Hc Hcs IH]; intros w w' Hw; [done|]. simpl.
  rewrite (IH w w' Hw). by rewrite (proj1 (Hc ctx w w' Hw)).
Qed.

Lemma first_unsatisfied_proper pol :
  policy_framed pol → Proper (same_reads ==> eq) (first_unsatisfied pol ctx).
Proof.
  induction 1 as [|p pol Hp Hpol IH]; intros w w' Hw; [done|]. simpl.
  rewrite (check_reasons_proper _ Hp w w' Hw).
  destruct (check_reasons _ _ w') as [[|??]|]; simpl; [by apply IH|done..].
Qed.

(** [Promise.all] over framed checks computes the effect-free reasons
    and keeps the store and grants. *)
Lemma run_checks_framed cs w :
  Forall check_framed cs →
  (run_checks cs ctx w).1 = check_reasons cs ctx w ∧ same_reads w (run_checks cs ctx w).2.
Proof.
  intros Hcs. revert w. induction Hcs as [|c cs Hc Hcs IH]; intros w; [done|].
  simpl. destruct (check c ctx w) as [r1 w1] eqn:E1.
  destruct (Hc ctx w w (reflexivity _)) as [_ Hw1]. rewrite E1 in Hw1. simpl in Hw1.
  destruct (run_checks cs ctx w1) as [r2 w2] eqn:E2.
  destruct (IH w1) as [Hr2 Hw2]. rewrite E2 in Hr2, Hw2. simpl in Hr2, Hw2.
  split; [|by etrans].
  rewrite Hr2, <-(check_reasons_proper cs Hcs w w1 Hw1). by destruct r1, r2.
Qed.
End framed.

(** Evaluating a chain of framed checks, with every check's effects,
    gives the same verdict as the effect-free specification: the first
    prompt whose checks request it, with the reasons of those checks. *)
Theorem resolve_refines (pol : list Prompt) ctx w :
  policy_framed pol → (resolve pol ctx w).1 = first_unsatisfied pol ctx w.
Proof.
  intros Hpol. revert w. induction Hpol as [|p pol Hp Hpol IH]; intros w; [done|].
  simpl. unfold st_bind.
  destruct (run_checks_framed ctx (checks p) w Hp) as [Hr Hw].
  destruct (run_checks (checks p) ctx w) as [[rs|e] w1]; simpl in *; rewrite <-Hr; [|done].
  destruct rs; [|done]. simpl. rewrite IH.
  by apply first_unsatisfied_proper.
Qed.

(** [first_unsatisfied] returns the first prompt, in chain order, whose
    checks request it; every prompt before it is satisfied. *)
Lemma first_unsatisfied_Some (pol : list Prompt) ctx w n rs :
  first_unsatisfied pol ctx w = Ret (Some (n, rs)) ↔
  ∃ pre p post, pol = pre ++ p :: post ∧
    Forall (λ q, check_reasons (checks q) ctx w = Ret []) pre ∧
    check_reasons (checks p) ctx w = Ret rs ∧ rs ≠ [] ∧ name p = n.
Proof.
  split.
  - induction pol as [|p pol IH]; simpl; [done|].
    destruct (check_reasons (checks p) ctx w) as [[|r rs']|] eqn:E; simpl; intros H.
    + destruct (IH H) as (pre & q & post & -> & Hpre & ?).
      exists (p :: pre), q, post. naive_solver.
    + injection H as <- <-. exists [], p, pol. naive_solver.
    + done.
  - intros (pre & p & post & -> & Hpre & Hp & Hrs & <-).
    induction Hpre as [|q pre Hq Hpre IH]; simpl.
    + rewrite Hp. by destruct rs.
    + by rewrite Hq.
Qed.

Lemma first_unsatisfied_None (pol : list Prompt) ctx w :
  first_unsatisfied pol ctx w = Ret None ↔
  Forall (λ q, check_reasons (checks q) ctx w = Ret []) pol.
Proof.
  induction pol as [|p pol IH]; simpl; [split; by constructor|].
  rewrite Forall_cons, <-IH.
  destruct (check_reasons (checks p) ctx w) as [[|??]|]; simpl; naive_solver.
Qed.

(** ** The gateway's chain *)

(** C1: [setup_policies] builds the chain login, approval_required,
    name, tos, groups_required, consent, with the site-cookie check
    appended after the base consent check. *)
Theorem setup_policies_chain (tos_checksum : string) :
  setup_policies tos_checksum = Ret (gateway_policy tos_checksum).
Proof. reflexivity. Qed.

Ltac framed_check :=
  let ctx := fresh "ctx" in let w := fresh "w" in let w' := fresh "w'" in
  let Hu := fresh "Hu" in let Hg := fresh "Hg" in
  intros ctx w w' [Hu Hg]; cbn -[findUser]; rewrite ?Hu, ?Hg;
  repeat case_match; simplify_eq/=; split; try done; try split; try done.

Lemma gateway_policy_framed tos_checksum : policy_framed (gateway_policy tos_checksum).
Proof.
  repeat first [apply List.Forall_nil | apply List.Forall_cons].
  all: framed_check.
Qed.

Lemma elem_of_gateway_policy tos_checksum (p : Prompt) :
  p ∈ gateway_policy tos_checksum →
  p = mkPrompt "login" true [no_session_check] ∨ p = approvalRequiredPolicy ∨ p = namePolicy ∨
  p = tosPolicy tos_checksum ∨ p = allowedGroupsPolicy ∨
  p = mkPrompt "consent" true [op_scopes_missing_check; site_cookie_required_check].
Proof. unfold gateway_policy. rewrite !elem_of_cons, elem_of_nil. naive_solver. Qed.

(** The chain stops at prompt [n] with reasons [rs] only if the prompt
    of the chain named [n] requests itself, on the current state. *)
Lemma gateway_resolve_Some tos_checksum ctx w n rs :
  (resolve (gateway_policy tos_checksum) ctx w).1 = Ret (Some (n, rs)) →
  ∃ p, p ∈ gateway_policy tos_checksum ∧ name p = n ∧
       check_reasons (checks p) ctx w = Ret rs ∧ rs ≠ [].
Proof.
  rewrite resolve_refines by apply gateway_policy_framed.
  intros (pre & p & post & Hpol & _ & Hp & Hrs & Hn)%first_unsatisfied_Some.
  exists p. split_and!; try done. rewrite Hpol. set_solver.
Qed.

(** [kubeUser.isAdmin ? NO_NEED_TO_PROMPT : !checkCondition(Approved)] *)
Lemma approval_reasons ctx w id (a : Account) :
  session_accountId ctx = Some id → findUser (users w) id = UFound a →
  check_reasons (checks approvalRequiredPolicy) ctx w =
    Ret (if isAdmin a || checkCondition a Approved then [] else ["approval_required"]).
Proof.
  intros Hid Ha. cbn -[findUser checkCondition]. rewrite Hid, Ha. simpl.
  by destruct (isAdmin a), (checkCondition a Approved).
Qed.

(** C2: the admin bypass.  For a session whose account has [isAdmin], the
    chain never stops at [approval_required], whatever conditions the
    account has recorded. *)
Theorem admin_bypasses_approval tos_checksum ctx w id (a : Account) rs :
  session_accountId ctx = Some id → findUser (users w) id = UFound a →
  isAdmin a = true →
  (resolve (gateway_policy tos_checksum) ctx w).1 ≠ Ret (Some ("approval_required", rs)).
Proof.
  intros Hid Ha Hadm (p & Hin & Hn & Hp & Hrs)%gateway_resolve_Some.
  apply elem_of_gateway_policy in Hin.
  destruct_or!; subst p; try discriminate.
  rewrite (approval_reasons _ _ _ _ Hid Ha), Hadm in Hp. by simplify_eq.
Qed.

(** ** Idempotence of evaluation *)

(** The state a check leaves. *)
Definition eff (c : Check) ctx w : World S := (check c ctx w).2.

Definition check_pure (c : Check) : Prop := ∀ ctx w, eff c ctx w = w.
Definition check_idem (c : Check) : Prop := ∀ ctx w, eff c ctx (eff c ctx w) = eff c ctx w.
Definition checks_commute (c c' : Check) : Prop :=
  ∀ ctx w, eff c ctx (eff c' ctx w) = eff c' ctx (eff c ctx w).

Fixpoint eff_list (cs : list Check) ctx w : World S :=
  match cs with [] => w | c :: cs' => eff_list cs' ctx (eff c ctx w) end.

(** The checks of a chain, in order. *)
Definition policy_checks (pol : list (Prompt (S:=S))) : list Check := pol ≫= checks.

Lemma run_checks_eff cs ctx w : (run_checks cs ctx w).2 = eff_list cs ctx w.
Proof.
  revert w. induction cs as [|c cs IH]; intros w; [done|]. simpl.
  unfold eff. destruct (check c ctx w) as [r1 w1]. simpl.
  rewrite <-IH. by destruct (run_checks cs ctx w1).
Qed.

Lemma eff_list_app cs1 cs2 ctx w :
  eff_list (cs1 ++ cs2) ctx w = eff_list cs2 ctx (eff_list cs1 ctx w).
Proof. revert w. induction cs1; simpl; auto. Qed.

Lemma pure_idem c : check_pure c → check_idem c.
Proof. intros Hc ctx w. by rewrite !Hc. Qed.

Lemma pure_commute_l c c' : check_pure c → checks_commute c c'.
Proof. intros Hc ctx w. by rewrite !Hc. Qed.

Lemma pure_commute_r c c' : check_pure c' → checks_commute c c'.
Proof. intros Hc ctx w. by rewrite !Hc. Qed.

Lemma eff_list_commute c cs ctx w :
  (∀ c', c' ∈ cs → checks_commute c c') →
  eff c ctx (eff_list cs ctx w) = eff_list cs ctx (eff c ctx w).
Proof.
  revert w. induction cs as [|c' cs IH]; intros w Hcs; [done|]. simpl.
  rewrite IH by set_solver. f_equal. apply Hcs. set_solver.
Qed.

(** Idempotent, pairwise commuting effects compose to an idempotent
    effect. *)
Lemma eff_list_idem cs ctx w :
  (∀ c, c ∈ cs → check_idem c) →
  (∀ c c', c ∈ cs → c' ∈ cs → checks_commute c c') →
  eff_list cs ctx (eff_list cs ctx w) = eff_list cs ctx w.
Proof.
  revert w. induction cs as [|c cs IH]; intros w Hidem Hcomm; [done|]. simpl.
  rewrite eff_list_commute by (intros; apply Hcomm; set_solver).
  rewrite (Hidem c) by set_solver. apply IH; intros; [apply Hidem | apply Hcomm]; set_solver.
Qed.

Lemma run_checks_same_reads cs ctx w :
  Forall check_framed cs → same_reads w (eff_list cs ctx w).
Proof. intros Hcs. rewrite <-run_checks_eff. apply run_checks_framed, Hcs. Qed.

Lemma run_checks_pair cs ctx w :
  Forall check_framed cs → run_checks cs ctx w = (check_reasons cs ctx w, eff_list cs ctx w).
Proof.
  intros Hcs. rewrite <-run_checks_eff, <-(proj1 (run_checks_framed ctx cs w Hcs)).
  by destruct (run_checks cs ctx w).
Qed.

Lemma eff_list_same_reads cs ctx w w' :
  Forall check_framed cs → same_reads w w' →
  same_reads (eff_list cs ctx w) (eff_list cs ctx w').
Proof.
  intros Hcs Hw. etrans; [symmetry; by apply run_checks_same_reads|].
  etrans; [apply Hw|]. by apply run_checks_same_reads.
Qed.

(** Evaluation applies the effects of one list of the chain's checks, the
    same list from every state with the same store and grants. *)
Lemma resolve_eff (pol : list Prompt) ctx w :
  policy_framed pol →
  ∃ L, (∀ c, c ∈ L → c ∈ policy_checks pol) ∧
       ∀ w', same_reads w w' → (resolve pol ctx w').2 = eff_list L ctx w'.
Proof.
  intros Hpol. revert w. induction Hpol as [|p pol Hp Hpol IH]; intros w.
  { exists []. split; [set_solver | done]. }
  assert (∀ w', same_reads w w' → resolve (p :: pol) ctx w' =
    match check_reasons (checks p) ctx w with
    | Ret [] => resolve pol ctx (eff_list (checks p) ctx w')
    | Ret rs => (Ret (Some (name p, rs)), eff_list (checks p) ctx w')
    | Throw e => (Throw e, eff_list (checks p) ctx w')
    end) as Hunfold.
  { intros w' Hw'. simpl. unfold st_bind. rewrite run_checks_pair by done.
    rewrite <-(check_reasons_proper ctx _ Hp w w' Hw'). by repeat case_match. }
  assert (∀ c, c ∈ checks p → c ∈ policy_checks (p :: pol)) as Hin.
  { intros c. unfold policy_checks. simpl. set_solver. }
  destruct (check_reasons (checks p) ctx w) as [[|r rs]|e] eqn:Er.
  - destruct (IH (eff_list (checks p) ctx w)) as (L & HL & Hres).
    exists (checks p ++ L). split.
    { intros c. rewrite elem_of_app. intros [?|?%HL]; [by apply Hin|].
      unfold policy_checks in *. simpl. set_solver. }
    intros w' Hw'. rewrite Hunfold by done. rewrite eff_list_app.
    by apply Hres, eff_list_same_reads.
  - exists (checks p). split; [done|]. intros w' Hw'. by rewrite Hunfold.
  - exists (checks p). split; [done|]. intros w' Hw'. by rewrite Hunfold.
Qed.

Lemma resolve_same_reads (pol : list Prompt) ctx w :
  policy_framed pol → same_reads w (resolve pol ctx w).2.
Proof.
  intros Hpol. revert w. induction Hpol as [|p pol Hp Hpol IH]; intros w; [done|].
  simpl. unfold st_bind. rewrite run_checks_pair by done.
  pose proof (run_checks_same_reads (checks p) ctx w Hp).
  repeat case_match; simpl; try done. by etrans; [|apply IH].
Qed.

(** Evaluating the chain a second time on the state the first evaluation
    left gives the same verdict and leaves that state unchanged, when the
    checks are framed and their effects idempotent and pairwise
    commuting. *)
Lemma resolve_idempotent_gen (pol : list Prompt) ctx w :
  policy_framed pol →
  (∀ c, c ∈ policy_checks pol → check_idem c) →
  (∀ c c', c ∈ policy_checks pol → c' ∈ policy_checks pol → checks_commute c c') →
  resolve pol ctx (resolve pol ctx w).2 = resolve pol ctx w.
Proof.
  intros Hpol Hidem Hcomm.
  pose proof (resolve_same_reads pol ctx w Hpol) as Hw1.
  destruct (resolve_eff pol ctx w Hpol) as (L & HL & Heff).
  apply injective_projections.
  - rewrite !resolve_refines by done. symmetry. by apply first_unsatisfied_proper.
  - rewrite (Heff _ Hw1), (Heff w) by done.
    apply eff_list_idem; intros; [apply Hidem | apply Hcomm]; auto.
Qed.

(** The site-cookie check is the chain's one writer, and writing twice
    is writing once: the rebound session already carries the [jti]. *)
Lemma site_cookie_required_idem : check_idem site_cookie_required_check.
Proof.
  intros ctx [u sss g [r|]]; unfold eff; cbn; repeat case_match; simplify_eq/=; try done.
  all: rewrite ?lookup_insert_eq in *; simplify_eq/=.
  f_equal; [apply updateSiteSession_idem | f_equal; apply insert_insert_eq].
Qed.

Lemma gateway_checks_pure_or_site tos_checksum c :
  c ∈ policy_checks (gateway_policy tos_checksum) →
  check_pure c ∨ c = site_cookie_required_check.
Proof.
  unfold policy_checks, gateway_policy. simpl.
  rewrite !elem_of_cons, elem_of_nil.
  intros Hc; destruct_or!; subst c; auto; left; intros ctx w; unfold eff; cbn;
    by repeat case_match.
Qed.

(** C4: idempotence.  Evaluating the gateway's chain twice in a row, with
    no change in between, yields the same pending prompt (or the same
    completion, or the same error) and the second evaluation leaves the
    state, including the rebound site session, as the first left it. *)
Theorem gateway_resolve_idempotent tos_checksum ctx w :
  resolve (gateway_policy tos_checksum) ctx (resolve (gateway_policy tos_checksum) ctx w).2 =
  resolve (gateway_policy tos_checksum) ctx w.
Proof.
  apply resolve_idempotent_gen; [apply gateway_policy_framed| |].
  - intros c [?| ->]%gateway_checks_pure_or_site;
      [by apply pure_idem | apply site_cookie_required_idem].
  - intros c c' [?| ->]%gateway_checks_pure_or_site [?| ->]%gateway_checks_pure_or_site;
      try (by apply pure_commute_l); try (by apply pure_commute_r). done.
Qed.

(** ** The gateway's decision for a signed-in session *)

(** The reasons of the consent prompt: the base check, then the
    site-cookie check. *)
Definition consent_reasons ctx (g : gmap (string * string) (gset string)) (id : string)
    : list string :=
  (if bool_decide (requested_scopes ctx ⊆ default ∅ (g !! (id, clientId (client ctx))))
   then [] else ["op_scopes_missing"]) ++
  (if bool_decide (kind (client ctx) = Some OIDCGWMiddlewareClient) &&
      negb (validateSiteSession (site_cookie ctx) (clientId (client ctx)))
   then ["site_cookie_required"] else []).

(** What the chain decides for the account [a] of the session: the
    first prompt, in priority order, whose condition fails. *)
Definition gateway_decision (tos_checksum : string) ctx
    (g : gmap (string * string) (gset string)) (id : string) (a : Account)
    : option (string * list string) :=
  if negb (isAdmin a || checkCondition a Approved) then
    Some ("approval_required", ["approval_required"])
  else if negb (truthy_string (profile a !! "name")) then Some ("name", ["name_required"])
  else if negb (checkCondition a (ToSv1 tos_checksum)) then Some ("tos", ["tos_not_accepted"])
  else if negb (checkAccountGroups (client ctx) a) then
    Some ("groups_required", ["allowed_groups_required"])
  else match consent_reasons ctx g id with [] => None | rs => Some ("consent", rs) end.

(** The site-cookie check's verdict: a middleware client without a
    valid cookie. *)
Lemma site_cookie_verdict ctx w :
  (check site_cookie_required_check ctx w).1 =
    Ret (bool_decide (kind (client ctx) = Some OIDCGWMiddlewareClient) &&
         negb (validateSiteSession (site_cookie ctx) (clientId (client ctx)))).
Proof. cbn -[validateSiteSession]. by repeat case_match. Qed.

Lemma resolve_signed_in tos_checksum ctx w id (a : Account) :
  session_accountId ctx = Some id → findUser (users w) id = UFound a →
  (resolve (gateway_policy tos_checksum) ctx w).1 =
    Ret (gateway_decision tos_checksum ctx (grants w) id a).
Proof.
  intros Hid Ha. rewrite resolve_refines by apply gateway_policy_framed.
  unfold gateway_decision, consent_reasons.
  cbn -[findUser checkCondition checkAccountGroups truthy_string site_cookie_required_check].
  rewrite Hid, Ha, site_cookie_verdict.
  cbn -[checkCondition checkAccountGroups truthy_string validateSiteSession].
  destruct (isAdmin a), (checkCondition a Approved), (truthy_string _),
    (checkCondition a (ToSv1 _)), (checkAccountGroups _ _); try done.
  all: simpl; destruct (bool_decide (requested_scopes ctx ⊆ _)),
    (bool_decide (kind _ = _)), (validateSiteSession _ _); reflexivity.
Qed.

(** C5: the gateway's chain, evaluated for a session whose account the
    store returns, decides [gateway_decision]: approval (unless admin or
    approved), then a non-empty name, then the current terms, then the
    client's groups, then consent with the site cookie. *)
Theorem gateway_resolve_signed_in tos_checksum ctx w id (a : Account) :
  session_accountId ctx = Some id → findUser (users w) id = UFound a →
  (resolve (gateway_policy tos_checksum) ctx w).1 =
    Ret (gateway_decision tos_checksum ctx (grants w) id a).
Proof. apply resolve_signed_in. Qed.

(** Before sign-in the chain asks for [login]. *)
Lemma gateway_resolve_no_session tos_checksum ctx w :
  session_accountId ctx = None →
  (resolve (gateway_policy tos_checksum) ctx w).1 = Ret (Some ("login", ["no_session"])).
Proof.
  intros Hid. rewrite resolve_refines by apply gateway_policy_framed.
  cbn. by rewrite Hid.
Qed.

(** C7: when the store answers [null] (API failure) or [undefined]
    (404) for the session's account, reading [kubeUser.isAdmin] throws a
    [TypeError]: the failure is not a prompt and the authorization
    request fails. *)
Theorem gateway_resolve_user_missing tos_checksum ctx w id :
  session_accountId ctx = Some id →
  findUser (users w) id = UNull ∨ findUser (users w) id = UUndefined →
  (resolve (gateway_policy tos_checksum) ctx w).1 = Throw TypeError.
Proof.
  intros Hid Hu. rewrite resolve_refines by apply gateway_policy_framed.
  cbn -[findUser]. rewrite Hid. by destruct Hu as [-> | ->].
Qed.

(** C6: a middleware client whose request has no valid site cookie never
    completes the chain: consent is requested even when the grant covers
    every scope. *)
Theorem middleware_without_cookie_never_completes tos_checksum ctx w :
  kind (client ctx) = Some OIDCGWMiddlewareClient →
  validateSiteSession (site_cookie ctx) (clientId (client ctx)) = false →
  (resolve (gateway_policy tos_checksum) ctx w).1 ≠ Ret None.
Proof.
  intros Hk Hv. rewrite resolve_refines by apply gateway_policy_framed.
  intros Hall%first_unsatisfied_None. rewrite Forall_forall in Hall.
  specialize (Hall (mkPrompt "consent" true [op_scopes_missing_check; site_cookie_required_check])
                   ltac:(apply list_elem_of_In; simpl; auto 10)).
  cbn -[site_cookie_required_check] in Hall.
  rewrite site_cookie_verdict, Hk, Hv in Hall. simpl in Hall. by repeat case_match.
Qed.

(** C3: completion is safe.  When the chain lets a signed-in session's
    authorization resume, the account is an admin or approved, has a
    non-empty name, accepted the current terms, is in an allowed group of
    the client, the grant covers the requested scopes, and a middleware
    client's request carries a valid site cookie. *)
Theorem gateway_completes_only_if tos_checksum ctx w id (a : Account) :
  session_accountId ctx = Some id → findUser (users w) id = UFound a →
  (resolve (gateway_policy tos_checksum) ctx w).1 = Ret None →
  (isAdmin a = true ∨ checkCondition a Approved = true) ∧
  truthy_string (profile a !! "name") = true ∧
  checkCondition a (ToSv1 tos_checksum) = true ∧
  checkAccountGroups (client ctx) a = true ∧
  requested_scopes ctx ⊆ default ∅ (grants w !! (id, clientId (client ctx))) ∧
  (kind (client ctx) = Some OIDCGWMiddlewareClient →
     validateSiteSession (site_cookie ctx) (clientId (client ctx)) = true).
Proof.
  intros Hid Ha. rewrite (resolve_signed_in _ _ _ _ _ Hid Ha).
  unfold gateway_decision, consent_reasons.
  destruct (isAdmin a), (checkCondition a Approved), (truthy_string _),
    (checkCondition a (ToSv1 _)), (checkAccountGroups _ _); simpl; try discriminate.
  all: destruct (bool_decide (requested_scopes ctx ⊆ _)) eqn:Hs,
    (bool_decide (kind (client ctx) = _)) eqn:Hk,
    (validateSiteSession _ _); simpl; try discriminate; intros _.
  all: apply bool_decide_eq_true in Hs; split_and!; auto.
  all: intros Hkk; by rewrite bool_decide_eq_true_2 in Hk.
Qed.
End PolicyFacts.

(** ** Witnesses on the Kubernetes store *)

Definition wit_client : Client := mkClient "app" None None.
Definition wit_middleware : Client := mkClient "proxy" (Some OIDCGWMiddlewareClient) None.
Definition wit_ctx (sid : option string) (c : Client) : OidcCtx :=
  mkCtx sid "jti-1" c {["openid"]} None.
Definition wit_world (a : Account) (g : gmap (string * string) (gset string))
    : World KubeApi.Backend :=
  mkWorld (KubeApi.mkBackend {[accountId a := a]} true) ∅ g None.
Definition wit_admin : Account := mkAccount "alice" ∅ true [] ∅.
Definition wit_ready : Account :=
  mkAccount "bob" {["name" := "Bob"]} false
    [mkConditionRecord "approved" None; mkConditionRecord "tos" (Some "tos-v1")] ∅.

Lemma admin_bypasses_approval_witness :
  session_accountId (wit_ctx (Some "alice") wit_client) = Some "alice" ∧
  findUser (users (wit_world wit_admin ∅)) "alice" = UFound wit_admin ∧
  isAdmin wit_admin = true ∧
  (resolve (gateway_policy "tos-v1") (wit_ctx (Some "alice") wit_client) (wit_world wit_admin ∅)).1
    ≠ Ret (Some ("approval_required", ["approval_required"])).
Proof.
  split_and!; [reflexivity..|].
  apply (admin_bypasses_approval "tos-v1" _ _ "alice" wit_admin); reflexivity.
Defined.

Lemma gateway_resolve_signed_in_witness :
  session_accountId (wit_ctx (Some "bob") wit_client) = Some "bob" ∧
  findUser (users (wit_world wit_ready ∅)) "bob" = UFound wit_ready ∧
  (resolve (gateway_policy "tos-v1") (wit_ctx (Some "bob") wit_client) (wit_world wit_ready ∅)).1 =
    Ret (gateway_decision "tos-v1" (wit_ctx (Some "bob") wit_client)
           (grants (wit_world wit_ready ∅)) "bob" wit_ready).
Proof.
  split_and!; [reflexivity..|].
  apply (gateway_resolve_signed_in "tos-v1" _ _ "bob" wit_ready); reflexivity.
Defined.

Lemma gateway_completes_only_if_witness :
  session_accountId (wit_ctx (Some "bob") wit_client) = Some "bob" ∧
  findUser (users (wit_world wit_ready {[("bob", "app") := {["openid"]}]})) "bob" = UFound wit_ready ∧
  (resolve (gateway_policy "tos-v1") (wit_ctx (Some "bob") wit_client)
     (wit_world wit_ready {[("bob", "app") := {["openid"]}]})).1 = Ret None ∧
  checkCondition wit_ready (ToSv1 "tos-v1") = true.
Proof.
  split_and!; [reflexivity | reflexivity | vm_compute; reflexivity |].
  apply (gateway_completes_only_if "tos-v1" (wit_ctx (Some "bob") wit_client)
           (wit_world wit_ready {[("bob", "app") := {["openid"]}]}) "bob" wit_ready);
    [reflexivity | reflexivity | vm_compute; reflexivity].
Defined.

Lemma middleware_without_cookie_never_completes_witness :
  kind (client (wit_ctx (Some "bob") wit_middleware)) = Some OIDCGWMiddlewareClient ∧
  validateSiteSession (site_cookie (wit_ctx (Some "bob") wit_middleware))
    (clientId (client (wit_ctx (Some "bob") wit_middleware))) = false ∧
  (resolve (gateway_policy "tos-v1") (wit_ctx (Some "bob") wit_middleware)
     (wit_world wit_ready {[("bob", "proxy") := {["openid"]}]})).1 ≠ Ret None.
Proof.
  split_and!; [reflexivity | reflexivity |].
  apply middleware_without_cookie_never_completes; reflexivity.
Defined.

Lemma gateway_resolve_user_missing_witness :
  session_accountId (wit_ctx (Some "carol") wit_client) = Some "carol" ∧
  (findUser (users (wit_world wit_ready ∅)) "carol" = UNull ∨
   findUser (users (wit_world wit_ready ∅)) "carol" = UUndefined) ∧
  (resolve (gateway_policy "tos-v1") (wit_ctx (Some "carol") wit_client) (wit_world wit_ready ∅)).1 =
    Throw TypeError.
Proof.
  split_and!; [reflexivity | right; reflexivity |].
  apply gateway_resolve_user_missing with "carol"; [reflexivity | right; reflexivity].
Defined.
