(* ===== verification/Routes.v ===== *)
(** * The interaction routes

    src/routes/oidcRoutes.js: the koa handlers that serve a pending
    interaction.  Each handler is a computation [st RouteState Response]:
    it reads [provider.interactionDetails], may write the account store,
    the grants, the site sessions, the interaction's result and the audit
    log, and answers with a rendered page, a finished interaction (the
    browser is redirected to resume the authorization, and the chain of
    Policy.v runs again), [next()] or an error page.

    The provider calls are modelled from oidc-provider's documented
    behaviour: [interactionResult(req, res, result)] stores
    [{...lastSubmission, ...result}] as the interaction's result (the merge
    is skipped for a result carrying [error]); [interactionFinished] does
    the same and redirects.  [addGrant], [addSiteSession], [accessDenied]
    and [auditLog] are support modules, modelled from the spec.  The
    bodies of the POST routes pass through the shared koa-body middleware
    of lines 95-97 ([with_body]), which parses form bodies only. *)

From S2P Require Import Prelude Account KubeApi SiteSession Policy.

(** An audit record: who, and what happened. *)
Record AuditEvent := mkAuditEvent {
  audit_actor : option string;
  audit_action : string;
}.

(** What [provider.interactionDetails(ctx.req, ctx.res)] gives the
    handlers: the prompt's name and the scopes its details ask for, the
    session's account id and [jti], the client id of the request, and the
    grant id of an earlier consent. *)
Record Details := mkDetails {
  uid : string;
  prompt_name : string;
  prompt_scopes : gset string;
  d_accountId : option string;
  d_jti : string;
  params_client_id : string;
  d_grantId : option string;
}.

(** A handler's answer. *)
Inductive Response :=
| Render (template title : string)
| Finished (result : gmap string RVal)
| Delegated (upstream : string)
| Next
| NoResponse
| ErrorPage (status : Z) (message : string).

(** The inputs a request brings besides the interaction: the checksum of
    the terms served now ([sha256(getText(ToSTextName))]), the account the
    session middleware loaded ([ctx.currentAccount]), the fresh ids the
    grant and site-session code draw, and the request body's fields. *)
Record Request := mkRequest {
  tos_checksum : string;
  currentAccount : js_user;
  fresh_grant_id : string;
  fresh_site_session_id : string;
  body_name : option string;
  body_upstream : option string;
  body_code : option string;
}.

(** ** The body parser (lines 95-97) *)

(** The request's [Content-Type], as koa-body classifies it. *)
Inductive ContentType := CtForm | CtJson | CtText | CtMultipart | CtOther.

Record BodyOptions := mkBodyOptions {
  opt_json : bool;
  opt_text : bool;
  opt_urlencoded : bool;
  opt_multipart : bool;
}.

(** [bodyParser({text: false, json: false, patchNode: true, patchKoa:
    true})]; koa-body's defaults leave [urlencoded] on and [multipart]
    off. *)
Definition body_options : BodyOptions := mkBodyOptions false false true false.

(** koa-body's [ctx.request.body]: the fields of a body whose parser is on,
    [{}] for any other (a text body would be a string, without fields). *)
Definition parse_body (o : BodyOptions) (ct : ContentType) (fields : list (string * string))
    : list (string * string) :=
  if match ct with
     | CtForm => opt_urlencoded o
     | CtJson => opt_json o
     | CtMultipart => opt_multipart o
     | CtText | CtOther => false
     end
  then fields else [].

(** [ctx.request.body.k] for a field given once. *)
Definition body_field (k : string) (b : list (string * string)) : option string :=
  snd <$> List.find (λ kv, bool_decide (kv.1 = k)) b.

(** The request as the handlers behind [body] see it. *)
Definition with_body (req : Request) (ct : ContentType) (fields : list (string * string)) : Request :=
  let b := parse_body body_options ct fields in
  mkRequest (tos_checksum req) (currentAccount req) (fresh_grant_id req) (fresh_site_session_id req)
            (body_field "name" b) (body_field "upstream" b) (body_field "code" b).

Section Routes.
Context {S : Type} `{!UserService S} `{!UserStore S}.

(** The state the handlers share: the checks' world, the audit log, the
    interaction's last submission and the registered clients. *)
Record RouteState := mkRouteState {
  world : World S;
  audit_log : list AuditEvent;
  last_submission : option (gmap string RVal);
  clients : gmap string Client;
}.

Definition modify_world (f : World S → World S) : st RouteState unit := λ rs,
  (Ret (), mkRouteState (f (world rs)) (audit_log rs) (last_submission rs) (clients rs)).

Definition modify_users (f : S → S) : st RouteState unit :=
  modify_world (λ w, mkWorld (f (users w)) (site_sessions w) (grants w) (interaction_result w)).

(** ** The collaborators *)

(** [auditLog(ctx, payload, action)]: append, never fails. *)
Definition auditLog (actor : option string) (action : string) : st RouteState unit := λ rs,
  (Ret (), mkRouteState (world rs) (audit_log rs ++ [mkAuditEvent actor action])
                        (last_submission rs) (clients rs)).

(** [provider.Client.find(params.client_id)] followed by a property
    read: an unknown client is [undefined] and the read throws. *)
Definition find_client (cid : string) : st RouteState Client := λ rs,
  (match clients rs !! cid with Some c => Ret c | None => throw TypeError end, rs).

(** The session's account id, where the handler passes it on to code that
    needs one (the prompts that use it come after [login]). *)
Definition require_account (d : Details) : st RouteState string :=
  st_lift (match d_accountId d with Some a => Ret a | None => throw TypeError end).

(** [addGrant(provider, prompt, grantId, accountId, client)]: extend the
    grant of (account, client) with the scopes the prompt asks for; its
    id is the interaction's grant id, or a fresh one. *)
Definition addGrant (req : Request) (d : Details) (c : Client) : st RouteState string :=
  aid <- require_account d ;;
  _ <- modify_world (λ w,
         mkWorld (users w) (site_sessions w)
           (<[(aid, clientId c) := prompt_scopes d ∪ default ∅ (grants w !! (aid, clientId c))]>
              (grants w))
           (interaction_result w)) ;;
  st_ret (default (fresh_grant_id req) (d_grantId d)).

(** [addSiteSession(ctx, provider, session.jti, session.accountId, client)]. *)
Definition addSiteSession_st (req : Request) (d : Details) (c : Client)
    : st RouteState SiteSession :=
  aid <- require_account d ;;
  λ rs, let '(store', ss) :=
          addSiteSession (site_sessions (world rs)) (fresh_site_session_id req) (d_jti d) aid c in
        (Ret ss, mkRouteState
                   (mkWorld (users (world rs)) store' (grants (world rs))
                            (interaction_result (world rs)))
                   (audit_log rs) (last_submission rs) (clients rs)).

(** [provider.interactionResult(req, res, result)] with
    [mergeWithLastSubmission]: the stored result is
    [{...lastSubmission, ...result}]; a result with an [error] key is
    stored as it is. *)
Definition interactionResult (result : gmap string RVal) : st RouteState (gmap string RVal) :=
  λ rs,
    let merged := if bool_decide (is_Some (result !! "error")) then result
                  else result ∪ default ∅ (last_submission rs) in
    (Ret merged,
     mkRouteState (mkWorld (users (world rs)) (site_sessions (world rs))
                           (grants (world rs)) (Some merged))
                  (audit_log rs) (last_submission rs) (clients rs)).

(** [provider.interactionFinished(req, res, result, { mergeWithLastSubmission: true })]. *)
Definition interactionFinished (result : gmap string RVal) : st RouteState Response :=
  merged <- interactionResult result ;; st_ret (Finished merged).

(** ** GET /interaction/:uid (lines 128-192) *)

Definition get_consent (req : Request) (d : Details) : st RouteState Response :=
  client <- find_client (params_client_id d) ;;
  grant <- addGrant req d client ;;
  siteSession <- (if truthy_string (kind client)
                  then ss <- addSiteSession_st req d client ;; st_ret (RSiteSession ss)
                  else st_ret RUndefined) ;;
  _ <- auditLog (d_accountId d) "Client authorized" ;;
  interactionFinished (<["consent" := RConsent grant]> {["siteSession" := siteSession]}).

Definition get_tos (req : Request) : st RouteState Response :=
  _ <- interactionResult {["tosTextChecksum" := RText (tos_checksum req)]} ;;
  st_ret (Render "tos" "Terms of Service").

(** Re-checked on every visit, so that an approval granted meanwhile lets
    the flow continue. *)
Definition get_approval_required (req : Request) (d : Details) : st RouteState Response :=
  a <- st_lift (deref_user (currentAccount req)) ;;
  if checkCondition a Approved then interactionFinished ∅
  else _ <- auditLog (d_accountId d) "User is not authorized" ;;
       st_ret (Render "approval_required" "Approval required").

Definition get_groups_required (req : Request) (d : Details) : st RouteState Response :=
  client <- find_client (params_client_id d) ;;
  a <- st_lift (deref_user (currentAccount req)) ;;
  if checkAccountGroups client a then interactionFinished ∅
  else _ <- auditLog (d_accountId d) "User does not have required groups" ;;
       st_ret (Render "message" "Access denied").

(** The dispatch on the prompt's name (lines 131-191); an unknown prompt
    calls [next()].  The login page's [impersonation] value, read from
    the session service for the template, is not part of the model. *)
Definition get_interaction (req : Request) (d : Details) : st RouteState Response :=
  if bool_decide (prompt_name d = "login") then st_ret (Render "login" "Sign-in")
  else if bool_decide (prompt_name d = "consent") then get_consent req d
  else if bool_decide (prompt_name d = "tos") then get_tos req
  else if bool_decide (prompt_name d = "approval_required") then get_approval_required req d
  else if bool_decide (prompt_name d = "groups_required") then get_groups_required req d
  else if bool_decide (prompt_name d = "name") then st_ret (Render "enter-name" "Enter your name")
  else st_ret Next.

(** ** POST handlers *)

(** POST /interaction/:uid/federated (lines 194-206): only during
    [login]; "gh" is audited (as the callback when the body carries a
    [code]) and handed to the GitHub login (not modelled); anything else
    returns [undefined]. *)
Definition post_federated (req : Request) (d : Details) : st RouteState Response :=
  _ <- st_lift (assert_equal (prompt_name d) "login") ;;
  match body_upstream req with
  | Some "gh"%string =>
      _ <- auditLog (d_accountId d)
             (if truthy_string (body_code req) then "GitHub login callback received"
              else "GitHub login initiated") ;;
      st_ret (Delegated "gh")
  | _ => st_ret NoResponse
  end.

(** POST /interaction/:uid/confirm-tos (lines 241-249): records the
    checksum stored when the terms were shown, not the current one. *)
Definition post_confirm_tos (d : Details) : st RouteState Response :=
  _ <- st_lift (assert_equal (prompt_name d) "tos") ;;
  r <- (λ rs, (match interaction_result (world rs) with
               | Some m => Ret m
               | None => throw TypeError
               end, rs)) ;;
  aid <- require_account d ;;
  _ <- modify_users (λ s, store_confirmCondition s aid "tos"
                           (match r !! "tosTextChecksum" with
                            | Some (RText ck) => Some ck
                            | _ => None
                            end)) ;;
  _ <- auditLog (d_accountId d) "ToS approved" ;;
  interactionFinished ∅.

(** POST /interaction/:uid/update-name (lines 251-265): the audit record
    is written before the profile.  The route always passes
    [customProfile: {name: ctx.request.body.name}]; when the body has no
    [name] that object is [{name: undefined}].  [updateUserSpec] is not
    under src/ and the spec's [updatePartial] only applies the fields it
    is given; a field whose value is [undefined] is dropped when the
    object is serialised to JSON, so such a call is modelled as the empty
    patch.  No theorem below depends on that branch. *)
Definition post_update_name (req : Request) (d : Details) : st RouteState Response :=
  _ <- st_lift (assert_equal (prompt_name d) "name") ;;
  _ <- auditLog (d_accountId d) "User name updated" ;;
  aid <- require_account d ;;
  _ <- modify_users (λ s, store_updateProfile s aid
                           (match body_name req with
                            | Some n => {["name" := n]}
                            | None => ∅
                            end)) ;;
  interactionFinished ∅.

(** GET /interaction/:uid/abort (lines 267-269): [accessDenied] finishes
    the interaction with an [access_denied] error. *)
Definition get_abort : st RouteState Response :=
  interactionFinished (<["error" := RText "access_denied"]>
                         {["error_description" := RText "End-User aborted interaction"]}).

(** ** The error middleware (lines 113-126) *)

(** An [OIDCProviderError] becomes an error page with its status and
    message ([ctx.status = err.status], [renderError]); any other error
    propagates.  The header the middleware sets first is the router's
    (Router.v); here the middleware is stated for any state. *)
Definition error_middleware {W} (h : st W Response) : st W Response := λ rs,
  match h rs with
  | (Throw (OIDCProviderError status msg), rs') => (Ret (ErrorPage status msg), rs')
  | r => r
  end.
End Routes.

Arguments RouteState S : clear implicits.

(** ** The other routes (lines 102-111, 208-239) *)

Section OtherRoutes.
Context {S : Type} `{!UserService S} `{!UserStore S}.

(** The collaborators these routes hand over to, left abstract: whether
    the browser is signed in to the gateway itself, the self client's
    redirect set-up, the session service's impersonation record (its
    account id, [None] for [undefined]), the login result for an account,
    and the e-mail link's sending and verification. *)
Variable signedInToSelf : st (RouteState S) bool.
Variable enableAndGetRedirectUri : st (RouteState S) string.
Variable getImpersonation : st (RouteState S) (option string).
Variable getLoginResult : js_user → st (RouteState S) (gmap string RVal).
Variable sendLink : st (RouteState S) Response.
Variable verifyLink : st (RouteState S) Response.

(** GET / and /profile (lines 102-111). *)
Definition get_root : st (RouteState S) Response :=
  signed <- signedInToSelf ;;
  if signed then st_ret (Render "frontend" "oidc-gateway")
  else _ <- enableAndGetRedirectUri ;; st_ret (Render "hi" "Welcome to oidc-gateway").

(** GET /interaction/callback/gh (lines 208-211). *)
Definition get_callback_gh : st (RouteState S) Response := st_ret (Render "repost" "").

(** POST /interaction/:uid/email (lines 213-217). *)
Definition post_email : st (RouteState S) Response :=
  _ <- auditLog None "Email login initiated" ;; sendLink.

(** POST /interaction/:uid/impersonate (lines 219-226): the audit record
    is written before the login result is built and the interaction
    finished. *)
Definition post_impersonate : st (RouteState S) Response :=
  impersonation <- getImpersonation ;;
  aid <- st_lift (match impersonation with Some a => Ret a | None => throw TypeError end) ;;
  account <- (λ rs, (Ret (findUser (users (world rs)) aid), rs)) ;;
  _ <- auditLog (Some aid) "Impersonation used to log in" ;;
  result <- getLoginResult account ;;
  interactionFinished result.

(** GET /interaction/:uid/email-sent (lines 228-232). *)
Definition get_email_sent : st (RouteState S) Response :=
  st_ret (Render "message" "Email sent").

(** GET /interaction/:uid/verify-email/:token (lines 234-239):
    [verifyLink] is called first and its promise is not awaited; the
    audit record is written next, whatever that promise will settle to,
    and the handler returns the promise, so the route's outcome is the
    verification's.  [verifyLink] is an abstract collaborator whose
    effects are taken as one step before the record; writes it would make
    after an [await] of its own would follow the record in the code. *)
Definition get_verify_email : st (RouteState S) Response :=
  result <- st_attempt verifyLink ;;
  _ <- auditLog None "Login link used" ;;
  st_lift result.
End OtherRoutes.

(** ** Lemmas and theorems *)

Section RouteFacts.
Context {S : Type} `{!UserService S} `{!UserStore S}.
Implicit Types (rs : RouteState S) (d : Details) (req : Request).

Lemma interactionResult_merged result rs :
  result !! "error" = None →
  interactionResult result rs =
    (Ret (result ∪ default ∅ (last_submission rs)),
     mkRouteState (mkWorld (users (world rs)) (site_sessions (world rs)) (grants (world rs))
                           (Some (result ∪ default ∅ (last_submission rs))))
                  (audit_log rs) (last_submission rs) (clients rs)).
Proof. intros He. unfold interactionResult. by rewrite He. Qed.

(** the merge.  [interactionFinished] with [mergeWithLastSubmission]
    keeps every field of the last submission that the new result does
    not set, and the new result's fields win: a resumed step never drops
    what an earlier step submitted. *)
Theorem interactionFinished_merges result rs k :
  result !! "error" = None →
  ∃ merged rs', interactionFinished result rs = (Ret (Finished merged), rs') ∧
    interaction_result (world rs') = Some merged ∧
    merged !! k = (match result !! k with
                   | Some v => Some v
                   | None => default ∅ (last_submission rs) !! k
                   end).
Proof.
  intros He. unfold interactionFinished, st_bind.
  rewrite interactionResult_merged by done. do 2 eexists. split_and!; [done | done |].
  rewrite lookup_union. by destruct (result !! k), (default ∅ _ !! k).
Qed.

(** The assertion of a POST handler: on any other prompt it throws
    before touching anything. *)
Lemma assert_prompt_throws (h : st (RouteState S) Response) (n : string) d rs :
  prompt_name d ≠ n →
  (_ <- st_lift (assert_equal (prompt_name d) n) ;; h) rs = (Throw AssertionError, rs).
Proof. intros Hne. unfold st_bind, st_lift. by rewrite assert_equal_ne. Qed.

(** [route_unfold] runs a handler symbolically: the store's operations,
    the assertion and the map operations stay folded. *)
Ltac route_unfold :=
  unfold get_tos, post_confirm_tos, post_update_name, get_approval_required,
    get_groups_required, get_consent, addGrant, addSiteSession_st, find_client,
    interactionFinished, interactionResult, st_bind, st_lift, st_ret,
    require_account, modify_users, modify_world, auditLog;
  cbn -[findUser store_confirmCondition store_updateProfile assert_equal
        union lookup singletonM insert].

(** The error test of [interactionResult] on the handlers' results. *)
Lemma no_error_key (k : string) (v : RVal) :
  k ≠ "error"%string → bool_decide (is_Some (({[k := v]} : gmap string RVal) !! "error")) = false.
Proof. intros. rewrite lookup_singleton_ne by done. done. Qed.

Lemma no_error_empty : bool_decide (is_Some ((∅ : gmap string RVal) !! "error")) = false.
Proof. done. Qed.

(** The handlers' runs on the path the user takes. *)
Lemma get_tos_run req rs :
  get_tos req rs =
    (Ret (Render "tos" "Terms of Service"),
     mkRouteState (mkWorld (users (world rs)) (site_sessions (world rs)) (grants (world rs))
                     (Some ({["tosTextChecksum" := RText (tos_checksum req)]}
                            ∪ default ∅ (last_submission rs))))
                  (audit_log rs) (last_submission rs) (clients rs)).
Proof. route_unfold. by rewrite no_error_key. Qed.

Lemma post_confirm_tos_run d rs aid (r : gmap string RVal) :
  prompt_name d = "tos" → d_accountId d = Some aid → interaction_result (world rs) = Some r →
  post_confirm_tos d rs =
    (Ret (Finished (∅ ∪ default ∅ (last_submission rs))),
     mkRouteState
       (mkWorld (store_confirmCondition (users (world rs)) aid "tos"
                   (match r !! "tosTextChecksum" with Some (RText ck) => Some ck | _ => None end))
                (site_sessions (world rs)) (grants (world rs))
                (Some (∅ ∪ default ∅ (last_submission rs))))
       (audit_log rs ++ [mkAuditEvent (Some aid) "ToS approved"]) (last_submission rs) (clients rs)).
Proof. intros Hn Hd Hr. route_unfold. by rewrite Hn, assert_equal_refl, Hr, Hd. Qed.

Lemma post_update_name_run req d rs aid n :
  prompt_name d = "name" → d_accountId d = Some aid → body_name req = Some n →
  post_update_name req d rs =
    (Ret (Finished (∅ ∪ default ∅ (last_submission rs))),
     mkRouteState
       (mkWorld (store_updateProfile (users (world rs)) aid {["name" := n]})
                (site_sessions (world rs)) (grants (world rs))
                (Some (∅ ∪ default ∅ (last_submission rs))))
       (audit_log rs ++ [mkAuditEvent (Some aid) "User name updated"]) (last_submission rs) (clients rs)).
Proof. intros Hn Hd Hb. route_unfold. by rewrite ?Hn, ?assert_equal_refl, Hd, Hb. Qed.

(** C11: the terms shown are the terms recorded.  Showing the ToS prompt
    stores the checksum of the text served, and confirming it records a
    ToS condition with exactly that checksum on the session's account,
    appends the audit record and finishes the interaction. *)
Theorem tos_shown_then_confirmed req d rs aid (a : Account) :
  prompt_name d = "tos" → d_accountId d = Some aid →
  findUser (users (world rs)) aid = UFound a →
  ∃ r rs', st_bind (get_tos req) (λ _, post_confirm_tos d) rs = (Ret (Finished r), rs') ∧
    findUser (users (world rs')) aid = UFound (confirmTos (tos_checksum req) a) ∧
    audit_log rs' = audit_log rs ++ [mkAuditEvent (Some aid) "ToS approved"].
Proof.
  intros Hn Hd Ha. unfold st_bind. rewrite get_tos_run.
  erewrite (post_confirm_tos_run _ _ aid); [|done..]. simpl.
  rewrite lookup_union, lookup_singleton_eq, union_Some_l.
  do 2 eexists. split_and!; [reflexivity | by apply store_confirmCondition_self | done].
Qed.

(** C12: the name update, every branch.  During the [name] prompt,
    submitting the name [n] appends the audit record "User name updated"
    with the session's account as actor, writes [n] to that account's
    profile keeping its other fields, leaves every other account, the
    site sessions and the grants as they were, and finishes the
    interaction merged with the last submission.  Under any other prompt
    the assertion rejects first: nothing is audited and nothing is
    written. *)
Theorem update_name_sets_profile req d rs aid (a : Account) n :
  d_accountId d = Some aid → body_name req = Some n →
  findUser (users (world rs)) aid = UFound a →
  (prompt_name d = "name" →
     let '(r, rs') := post_update_name req d rs in
     r = Ret (Finished (default ∅ (last_submission rs))) ∧
     findUser (users (world rs')) aid = UFound (setProfile a (<["name" := n]> (profile a))) ∧
     (∀ id, id ≠ aid → findUser (users (world rs')) id = findUser (users (world rs)) id) ∧
     site_sessions (world rs') = site_sessions (world rs) ∧ grants (world rs') = grants (world rs) ∧
     audit_log rs' = audit_log rs ++ [mkAuditEvent (Some aid) "User name updated"]) ∧
  (prompt_name d ≠ "name" →
     post_update_name req d rs = (Throw AssertionError, rs)).
Proof.
  intros Hd Hb Ha. split.
  - intros Hn. rewrite (post_update_name_run _ _ _ aid n Hn Hd Hb). simpl.
    rewrite map_empty_union, (store_updateProfile_self _ _ _ a Ha), insert_union_singleton_l.
    split_and!; try done. intros id Hid. by apply store_updateProfile_other.
  - intros Hn. route_unfold. by rewrite assert_equal_neq.
Qed.

(** C13: the approval re-check.  Revisiting [approval_required] finishes
    the interaction once the account is approved, and otherwise renders
    the approval page and audits the refusal; it never consults the
    admin flag. *)
Theorem approval_recheck req d rs (a : Account) :
  currentAccount req = UFound a →
  (checkCondition a Approved = true →
     ∃ r rs', get_approval_required req d rs = (Ret (Finished r), rs') ∧
              audit_log rs' = audit_log rs) ∧
  (checkCondition a Approved = false →
     get_approval_required req d rs =
       (Ret (Render "approval_required" "Approval required"),
        mkRouteState (world rs) (audit_log rs ++ [mkAuditEvent (d_accountId d) "User is not authorized"])
                     (last_submission rs) (clients rs))).
Proof.
  intros Hc. route_unfold. rewrite Hc. simpl.
  split; intros ->; [|done]. by do 2 eexists.
Qed.

(** What consent writes, whatever the client's kind: the grant of the
    session's account to the client is extended with the prompt's scopes,
    and the accounts are untouched. *)
Lemma get_consent_grants req d rs (c : Client) aid :
  clients rs !! params_client_id d = Some c → d_accountId d = Some aid →
  users (world (get_consent req d rs).2) = users (world rs) ∧
  grants (world (get_consent req d rs).2) =
    <[(aid, clientId c) := prompt_scopes d ∪ default ∅ (grants (world rs) !! (aid, clientId c))]>
      (grants (world rs)).
Proof.
  intros Hc Hd. route_unfold. rewrite Hc, Hd. simpl.
  by destruct (truthy_string (kind c)); simpl; rewrite ?Hd.
Qed.

(** C14: consent creates a site session for every client whose [kind] is
    truthy ([if (client.kind)]), not only for middleware clients, and
    stores it in the interaction's result next to the grant; the grant
    of (account, client) gains the prompt's scopes. *)
Theorem consent_site_session_any_kind req d rs (c : Client) aid k :
  clients rs !! params_client_id d = Some c → d_accountId d = Some aid →
  kind c = Some k → k ≠ ""%string →
  let ss := mkSiteSession (fresh_site_session_id req) (d_jti d) aid (clientId c) in
  ∃ r rs', get_consent req d rs = (Ret (Finished r), rs') ∧
    r !! "siteSession" = Some (RSiteSession ss) ∧
    r !! "consent" = Some (RConsent (default (fresh_grant_id req) (d_grantId d))) ∧
    site_sessions (world rs') !! fresh_site_session_id req = Some ss ∧
    grants (world rs') !! (aid, clientId c) =
      Some (prompt_scopes d ∪ default ∅ (grants (world rs) !! (aid, clientId c))).
Proof.
  intros Hc Hd Hk Hk' ss. route_unfold. rewrite Hc, Hd. simpl.
  rewrite Hk, truthy_string_Some by done. simpl.
  rewrite bool_decide_eq_false_2; last first.
  { rewrite lookup_insert_ne, lookup_singleton_ne by done. by intros []. }
  do 2 eexists. split; [reflexivity|]. simpl.
  rewrite !lookup_union, lookup_insert_eq, lookup_insert_ne, lookup_singleton_eq,
    !union_Some_l by done.
  split_and!; try done; by rewrite lookup_insert_eq.
Qed.

(** the error middleware renders an [OIDCProviderError] as an error
    page with its status and message, and lets every other error
    propagate unchanged: an assertion failure of a POST handler sent on
    the wrong prompt is fatal to the request and changes no state. *)
Theorem error_middleware_classifies h rs :
  (∀ status msg rs', h rs = (Throw (OIDCProviderError status msg), rs') →
     error_middleware h rs = (Ret (ErrorPage status msg), rs')) ∧
  (∀ e rs', h rs = (Throw e, rs') → (∀ status msg, e ≠ OIDCProviderError status msg) →
     error_middleware h rs = (Throw e, rs')).
Proof.
  unfold error_middleware. split.
  - intros status msg rs' ->. done.
  - intros e rs' -> He. destruct e; try done. by destruct (He status message).
Qed.

Lemma confirm_tos_wrong_prompt d rs :
  prompt_name d ≠ "tos" → error_middleware (post_confirm_tos d) rs = (Throw AssertionError, rs).
Proof. intros Hn. unfold error_middleware, post_confirm_tos. by rewrite assert_prompt_throws. Qed.
End RouteFacts.

Section AuditFacts.
Context {S : Type} `{!UserService S} `{!UserStore S}.
Variable getImpersonation : st (RouteState S) (option string).
Variable getLoginResult : js_user → st (RouteState S) (gmap string RVal).
Variable verifyLink : st (RouteState S) Response.

(** The collaborators never erase audit records. *)
Hypothesis getLoginResult_log : ∀ u rs r rs',
  getLoginResult u rs = (r, rs') → audit_log rs `prefix_of` audit_log rs'.
(** Every impersonated login is audited.  When the impersonation
    route finishes the interaction, the audit log holds, after what it
    held before the impersonation record was read, an entry naming the
    impersonated account. *)
Theorem impersonation_audited rs r rs' :
  post_impersonate getImpersonation getLoginResult rs = (Ret (Finished r), rs') →
  ∃ aid rs1, getImpersonation rs = (Ret (Some aid), rs1) ∧
    (audit_log rs1 ++ [mkAuditEvent (Some aid) "Impersonation used to log in"])
      `prefix_of` audit_log rs'.
Proof.
  unfold post_impersonate, st_bind, st_lift.
  destruct (getImpersonation rs) as [[[aid|]|e] rs1] eqn:E1; try discriminate.
  cbn. destruct (getLoginResult _ _) as [[res|e] rs2] eqn:E2; [|discriminate].
  unfold interactionFinished, st_bind. destruct (interactionResult res rs2) eqn:E3.
  unfold interactionResult in E3. injection E3 as <- <-. intros [= _ <-].
  exists aid, rs1. split; [done|]. exact (getLoginResult_log _ _ _ _ E2).
Qed.

(** C15: a used login link is audited whatever the verification's
    outcome.  The route runs [verifyLink], appends the record "Login link
    used" after whatever the verification did, and answers with the
    verification's outcome: a rejection reaches the caller, after the
    audit record. *)
Theorem verify_email_always_audited rs r rs1 :
  verifyLink rs = (r, rs1) →
  get_verify_email verifyLink rs =
    (r, mkRouteState (world rs1) (audit_log rs1 ++ [mkAuditEvent None "Login link used"])
                     (last_submission rs1) (clients rs1)).
Proof. intros E. unfold get_verify_email, st_bind, st_attempt, auditLog, st_lift. by rewrite E. Qed.
End AuditFacts.

(** ** Witnesses on the Kubernetes store *)

Definition wit_acct : Account := mkAccount "u" {["name" := "Ann"]} false [] ∅.
Definition wit_rs (ls : option (gmap string RVal)) : RouteState KubeApi.Backend :=
  mkRouteState (mkWorld (KubeApi.mkBackend {["u" := wit_acct]} true) ∅ ∅ None) [] ls
               {["app" := mkClient "app" (Some "web") None]}.
Definition wit_req : Request := mkRequest "tos-v2" (UFound wit_acct) "g-1" "s-1" (Some "Ann B") None None.
Definition wit_details (n : string) : Details := mkDetails "i-1" n {["openid"]} (Some "u") "jti-1" "app" None.

Lemma tos_shown_then_confirmed_witness :
  prompt_name (wit_details "tos") = "tos" ∧ d_accountId (wit_details "tos") = Some "u" ∧
  findUser (users (world (wit_rs None))) "u" = UFound wit_acct ∧
  ∃ r rs', st_bind (get_tos wit_req) (λ _, post_confirm_tos (wit_details "tos")) (wit_rs None)
             = (Ret (Finished r), rs') ∧
    findUser (users (world rs')) "u" = UFound (confirmTos (tos_checksum wit_req) wit_acct) ∧
    audit_log rs' = audit_log (wit_rs None) ++ [mkAuditEvent (Some "u") "ToS approved"].
Proof. split_and!; [reflexivity..|]. apply tos_shown_then_confirmed; reflexivity. Defined.

Lemma update_name_sets_profile_witness :
  d_accountId (wit_details "name") = Some "u" ∧ body_name wit_req = Some "Ann B" ∧
  findUser (users (world (wit_rs None))) "u" = UFound wit_acct ∧
  post_update_name wit_req (wit_details "tos") (wit_rs None) = (Throw AssertionError, wit_rs None) ∧
  audit_log (post_update_name wit_req (wit_details "name") (wit_rs None)).2 =
    [mkAuditEvent (Some "u") "User name updated"].
Proof.
  destruct (update_name_sets_profile wit_req (wit_details "name") (wit_rs None) "u" wit_acct "Ann B")
    as [H1 _]; [reflexivity..|].
  destruct (update_name_sets_profile wit_req (wit_details "tos") (wit_rs None) "u" wit_acct "Ann B")
    as [_ H2]; [reflexivity..|].
  split_and!; [reflexivity..| apply H2; discriminate |].
  destruct (post_update_name _ _ _) as [r rs'] eqn:E. simpl. apply H1. reflexivity.
Defined.

Lemma approval_recheck_witness :
  currentAccount wit_req = UFound wit_acct ∧
  (checkCondition wit_acct Approved = true →
     ∃ r rs', get_approval_required wit_req (wit_details "approval_required") (wit_rs None)
                = (Ret (Finished r), rs') ∧ audit_log rs' = audit_log (wit_rs None)) ∧
  (checkCondition wit_acct Approved = false →
     get_approval_required wit_req (wit_details "approval_required") (wit_rs None) =
       (Ret (Render "approval_required" "Approval required"),
        mkRouteState (world (wit_rs None))
          (audit_log (wit_rs None) ++
             [mkAuditEvent (d_accountId (wit_details "approval_required")) "User is not authorized"])
          (last_submission (wit_rs None)) (clients (wit_rs None)))).
Proof. split; [reflexivity | apply approval_recheck; reflexivity]. Defined.

Lemma consent_site_session_any_kind_witness :
  clients (wit_rs None) !! params_client_id (wit_details "consent") = Some (mkClient "app" (Some "web") None) ∧
  d_accountId (wit_details "consent") = Some "u" ∧
  kind (mkClient "app" (Some "web") None) = Some "web" ∧ "web"%string ≠ ""%string ∧
  let ss := mkSiteSession (fresh_site_session_id wit_req) (d_jti (wit_details "consent")) "u" "app" in
  ∃ r rs', get_consent wit_req (wit_details "consent") (wit_rs None) = (Ret (Finished r), rs') ∧
    r !! "siteSession" = Some (RSiteSession ss) ∧
    r !! "consent" = Some (RConsent (default (fresh_grant_id wit_req) (d_grantId (wit_details "consent")))) ∧
    site_sessions (world rs') !! fresh_site_session_id wit_req = Some ss ∧
    grants (world rs') !! ("u", "app") =
      Some (prompt_scopes (wit_details "consent") ∪ default ∅ (grants (world (wit_rs None)) !! ("u", "app"))).
Proof.
  split_and!; [reflexivity | reflexivity | reflexivity | done |].
  exact (consent_site_session_any_kind wit_req (wit_details "consent") (wit_rs None)
           (mkClient "app" (Some "web") None) "u" "web" eq_refl eq_refl eq_refl ltac:(done)).
Defined.

Lemma interactionFinished_merges_witness :
  ({["tosTextChecksum" := RText "x"]} : gmap string RVal) !! "error" = None ∧
  ∃ merged rs', interactionFinished {["tosTextChecksum" := RText "x"]}
                  (wit_rs (Some {["consent" := RConsent "g-0"]})) = (Ret (Finished merged), rs') ∧
    interaction_result (world rs') = Some merged ∧
    merged !! "consent" =
      (match ({["tosTextChecksum" := RText "x"]} : gmap string RVal) !! "consent" with
       | Some v => Some v
       | None => default ∅ (last_submission (wit_rs (Some {["consent" := RConsent "g-0"]}))) !! "consent"
       end).
Proof. split; [reflexivity | apply interactionFinished_merges; reflexivity]. Defined.

Definition wit_impersonation : st (RouteState KubeApi.Backend) (option string) :=
  λ rs, (Ret (Some "u"), rs).
Definition wit_login_result : js_user → st (RouteState KubeApi.Backend) (gmap string RVal) :=
  λ _ rs, (Ret {["login" := RLogin "u"]}, rs).
Definition wit_verify_rejects : st (RouteState KubeApi.Backend) Response :=
  λ rs, (Throw (PlainError "invalid token"), rs).

Lemma wit_login_result_log u rs r rs' :
  wit_login_result u rs = (r, rs') → audit_log rs `prefix_of` audit_log rs'.
Proof. unfold wit_login_result. intros [= _ <-]. done. Qed.

Lemma impersonation_audited_witness :
  ∃ r rs', post_impersonate wit_impersonation wit_login_result (wit_rs None) = (Ret (Finished r), rs') ∧
    ∃ aid rs1, wit_impersonation (wit_rs None) = (Ret (Some aid), rs1) ∧
      (audit_log rs1 ++ [mkAuditEvent (Some aid) "Impersonation used to log in"])
        `prefix_of` audit_log rs'.
Proof.
  eexists _, _. split; [reflexivity|].
  eapply (impersonation_audited wit_impersonation wit_login_result wit_login_result_log).
  reflexivity.
Defined.

Lemma verify_email_always_audited_witness :
  wit_verify_rejects (wit_rs None) = (Throw (PlainError "invalid token"), wit_rs None) ∧
  get_verify_email wit_verify_rejects (wit_rs None) =
    (Throw (PlainError "invalid token"),
     mkRouteState (world (wit_rs None)) [mkAuditEvent None "Login link used"] None (clients (wit_rs None))).
Proof.
  split; [reflexivity|].
  apply (verify_email_always_audited wit_verify_rejects (wit_rs None)). reflexivity.
Defined.
