(* ===== verification/Render.v ===== *)
(** * Page rendering and the debug dump

    src/routes/oidcRoutes.js, lines 29-93: [sessionDetails] reads the
    interaction (falling back, when that or the client lookup fails, to a
    degraded view with only the session), and [render] hands the page to
    the template with, outside production, a debug dump of the request
    parameters, the prompt and the session.  The dump is built by [debug]
    (lines 29-37), which keeps a module-level [Set] of every key it has
    ever seen: the set is shared by all requests of the process and is
    threaded here as explicit state.  [debug] skips the values lodash's
    [isEmpty] calls empty (which include every number and boolean), prints
    the others with [util.inspect] (a parameter), and joins the entries
    with [querystring.stringify], whose [encodeURIComponent] hook bolds any
    key or value that is in the set. *)

From S2P Require Import Prelude Account.
From stdpp Require Import pretty.

(** ** JavaScript values *)

Inductive JsVal :=
| JUndefined
| JNull
| JBool (b : bool)
| JNum (n : Z)
| JStr (s : string)
| JArr (l : list JsVal)
| JObj (props : list (string * JsVal)).

(** lodash's [isEmpty]: [null] and [undefined], numbers and booleans (no
    own enumerable keys), and empty strings, arrays and objects. *)
Definition isEmpty (v : JsVal) : bool :=
  match v with
  | JUndefined | JNull | JBool _ | JNum _ => true
  | JStr s => bool_decide (s = "")
  | JArr l => match l with [] => true | _ => false end
  | JObj l => match l with [] => true | _ => false end
  end.

(** [Object.entries(v)]: [null] and [undefined] throw. *)
Definition entries (v : JsVal) : exc (list (string * JsVal)) :=
  match v with
  | JUndefined | JNull => throw TypeError
  | JObj l => Ret l
  | JArr l => Ret (imap (λ i x, (pretty (N.of_nat i), x)) l)
  | JStr s => Ret (imap (λ i c, (pretty (N.of_nat i), JStr (String c EmptyString)))
                        (String.list_ascii_of_string s))
  | JBool _ | JNum _ => Ret []
  end.

(** The first property named [p]. *)
Definition prop_lookup (p : string) (l : list (string * JsVal)) : option JsVal :=
  (λ ikv : nat * (string * JsVal), ikv.2.2) <$> list_find (λ kv : string * JsVal, kv.1 = p) l.

(** A property read [v.p]: [null] and [undefined] throw, a missing
    property is [undefined]. *)
Definition get_prop (v : JsVal) (p : string) : exc JsVal :=
  match v with
  | JUndefined | JNull => throw TypeError
  | JObj l => Ret (default JUndefined (prop_lookup p l))
  | _ => Ret JUndefined
  end.

(** The value of the last property named [k]: in an object literal a
    repeated key keeps its last value. *)
Definition prop_last {V} (k : string) (l : list (string * V)) : option V :=
  foldl (λ acc kv, if bool_decide (kv.1 = k) then Some kv.2 else acc) None l.

(** ** [debug] (lines 29-37) *)

(** The [encodeURIComponent] hook: a string in the key set is bolded. *)
Definition encode (keys : gset string) (x : string) : string :=
  if bool_decide (x ∈ keys) then "<strong>" ++ x ++ "</strong>" else x.

(** [querystring.stringify]'s join. *)
Fixpoint join (sep : string) (l : list string) : string :=
  match l with
  | [] => ""
  | [x] => x
  | x :: l' => x ++ sep ++ join sep l'
  end.

Section Debug.
Variable inspect : JsVal → string.

(** The [reduce] adds every key to the set (empty values included) and
    keeps the inspected non-empty values; [stringify] then encodes keys and
    values with the set as it stands after the [reduce]. *)
Definition debug (obj : JsVal) : st (gset string) string := λ keys,
  match entries obj with
  | Throw e => (Throw e, keys)
  | Ret es =>
      let keys' := foldl (λ ks kv, {[kv.1]} ∪ ks) keys es in
      let acc := filter (λ kv, isEmpty kv.2 = false) es in
      (Ret (join "<br/>" (map (λ kv : string * JsVal, encode keys' kv.1 ++ ": " ++ encode keys' (inspect kv.2))%string acc)),
       keys')
  end.

(** ** [sessionDetails] (lines 39-65) *)

(** What [provider.interactionDetails] returns. *)
Record InteractionDetails := mkInteractionDetails {
  id_uid : string;
  id_prompt : JsVal;
  id_params : JsVal;
  id_session : JsVal;
}.

(** The client the view carries: the registered client, [undefined] for
    an unknown id, or [{}] in the degraded view. *)
Inductive ViewClient :=
| VClient (c : Client)
| VUndefined
| VEmptyObject.

Record View := mkView {
  v_uid : option string;
  v_prompt : JsVal;
  v_details : JsVal;
  v_params : JsVal;
  v_session : JsVal;
  v_client : ViewClient;
}.

(** The [try] block: any rejection (of [interactionDetails], the client
    lookup or the property reads) gives the [catch] block's view, with the
    session [provider.Session.get] finds. *)
Definition sessionDetails (details : exc InteractionDetails)
    (client_find : JsVal → exc (option Client)) (session_get : JsVal) : View :=
  let degraded := mkView None (JObj []) (JObj []) (JObj []) session_get VEmptyObject in
  match details with
  | Throw _ => degraded
  | Ret i =>
      match get_prop (id_params i) "client_id" ≫= client_find with
      | Throw _ => degraded
      | Ret c =>
          let details :=
            match id_prompt i with
            | JUndefined => Ret (JObj [])
            | p => get_prop p "details"
            end in
          match details with
          | Throw _ => degraded
          | Ret dt =>
              mkView (Some (id_uid i)) (id_prompt i) dt (id_params i) (id_session i)
                     (match c with Some c => VClient c | None => VUndefined end)
          end
      end
  end.

(** ** [render] (lines 67-93) *)

(** What [ctx.render] receives besides the template: the view's client,
    [uid], details and params, the title, the debug dump (params, prompt,
    session), the route's [extra] properties, the [wide] flag and the
    response's nonce. *)
Record Page := mkPage {
  page_template : string;
  page_client : ViewClient;
  page_uid : option string;
  page_details : JsVal;
  page_params : JsVal;
  page_title : string;
  page_dbg : option (string * string * string);
  page_extra : list (string * JsVal);
  page_wide : bool;
  page_nonce : option string;
}.

(** A property of the object literal the template reads. *)
Inductive PageVal :=
| PClient (c : ViewClient)
| PUid (u : option string)
| PJs (v : JsVal)
| PStr (s : string)
| PDbg (d : option (string * string * string))
| PBool (b : bool)
| PNonce (n : option string).

(** The object literal of lines 82-92 in source order, [...extra] spread
    between [dbg] and [wide]. *)
Definition page_object (p : Page) : list (string * PageVal) :=
  [("client", PClient (page_client p)); ("uid", PUid (page_uid p));
   ("details", PJs (page_details p)); ("params", PJs (page_params p));
   ("title", PStr (page_title p)); ("dbg", PDbg (page_dbg p))] ++
  map (λ kv : string * JsVal, (kv.1, PJs kv.2)) (page_extra p) ++
  [("wide", PBool (page_wide p)); ("nonce", PNonce (page_nonce p))].

(** A property of an object literal: the last definition of the key wins. *)
Definition page_get (p : Page) (k : string) : option PageVal :=
  prop_last k (page_object p).

Definition render (production : bool) (v : View) (template title : string)
    (extra : list (string * JsVal)) (wide : bool) (nonce : option string)
    : st (gset string) Page :=
  let page dbg := mkPage template (v_client v) (v_uid v) (v_details v) (v_params v) title dbg
                         extra wide nonce in
  if production then st_ret (page None)
  else
    let sess := match v_session v with JUndefined => JObj [] | s => s end in
    p1 <- debug (v_params v) ;;
    p2 <- debug (v_prompt v) ;;
    p3 <- debug sess ;;
    st_ret (page (Some (p1, p2, p3))).
End Debug.

(** ** Properties *)

Lemma prop_last_acc {V} k (l : list (string * V)) acc :
  foldl (λ acc kv, if bool_decide (kv.1 = k) then Some kv.2 else acc) acc l =
    match prop_last k l with Some v => Some v | None => acc end.
Proof.
  unfold prop_last. revert acc. induction l as [|[k' v'] l IH]; intros acc; [done|]. simpl.
  rewrite (IH (if bool_decide (k' = k) then _ else acc)), (IH (if bool_decide (k' = k) then _ else None)).
  destruct (foldl _ None l); [done | by case_bool_decide].
Qed.

Lemma prop_last_app {V} k (l1 l2 : list (string * V)) :
  prop_last k (l1 ++ l2) = match prop_last k l2 with Some v => Some v | None => prop_last k l1 end.
Proof. unfold prop_last at 1. rewrite foldl_app. apply prop_last_acc. Qed.

Lemma prop_last_map {V W} (f : V → W) k (l : list (string * V)) :
  prop_last k (map (λ kv : string * V, (kv.1, f kv.2)) l) = f <$> prop_last k l.
Proof.
  unfold prop_last. change (@None W) with (f <$> @None V). generalize (@None V).
  induction l as [|[k' v'] l IH]; intros o; [done|]. simpl.
  rewrite <-IH. by case_bool_decide.
Qed.

(** C30: the object the template reads.  [wide] and [nonce] come after
    the route's [extra] properties, so no route can replace the response's
    CSP nonce or the layout flag; every other key the route passes
    replaces the view's value of that name (its title or debug dump
    included). *)
Theorem page_object_spread (p : Page) k :
  page_get p "nonce" = Some (PNonce (page_nonce p)) ∧
  page_get p "wide" = Some (PBool (page_wide p)) ∧
  (k ≠ "wide" → k ≠ "nonce" → ∀ v, prop_last k (page_extra p) = Some v →
     page_get p k = Some (PJs v)).
Proof.
  unfold page_get, page_object. rewrite !prop_last_app.
  split_and!; [done | done |]. intros Hw Hn v Hv.
  rewrite prop_last_map, Hv. unfold prop_last at 1. cbn [foldl fst snd].
  by rewrite !bool_decide_eq_false_2 by congruence.
Qed.

Section DebugFacts.
Variable inspect : JsVal → string.

Lemma debug_empty keys : debug inspect (JObj []) keys = (Ret "", keys).
Proof. reflexivity. Qed.

(** C31: the degraded page.  When [interactionDetails] rejects (an expired
    or unknown interaction), the page has no [uid], the client [{}], no
    details, and empty dumps of the parameters and the prompt, which leave
    the key set as it was; only the session found by
    [provider.Session.get] is dumped. *)
Theorem degraded_render e client_find (session : list (string * JsVal)) template title extra wide nonce keys :
  ∃ dump keys',
    render inspect false (sessionDetails (Throw e) client_find (JObj session)) template title extra wide nonce keys =
      (Ret (mkPage template VEmptyObject None (JObj []) (JObj []) title (Some ("", "", dump)) extra wide nonce),
       keys') ∧
    debug inspect (JObj session) keys = (Ret dump, keys').
Proof.
  unfold render, st_bind. cbn -[debug]. rewrite !debug_empty.
  destruct (debug inspect (JObj session) keys) as [[dump|err] keys'] eqn:E.
  - by exists dump, keys'.
  - unfold debug in E. simpl in E. simplify_eq.
Qed.
End DebugFacts.

Lemma page_object_spread_witness :
  let p := mkPage "hi" VUndefined None (JObj []) (JObj []) "Welcome" None
                  [("title", JStr "Hi"); ("nonce", JStr "forged")] false (Some "abc") in
  "title" ≠ "wide"%string ∧ "title" ≠ "nonce"%string ∧
  prop_last "title" (page_extra p) = Some (JStr "Hi") ∧
  page_get p "nonce" = Some (PNonce (Some "abc")) ∧ page_get p "title" = Some (PJs (JStr "Hi")).
Proof.
  intros p. split_and!; [discriminate | discriminate | reflexivity | |].
  - exact (proj1 (page_object_spread p "title")).
  - apply (proj2 (proj2 (page_object_spread p "title"))); [discriminate | discriminate | reflexivity].
Defined.
