(* ===== verification/Router.v ===== *)
(** * The router: registration order and dispatch

    src/routes/oidcRoutes.js registers its handlers on one koa-router
    (lines 99-271): GET / and /profile first, then the error middleware
    ([router.use], lines 113-126), then the interaction routes.  koa-router
    (modelled from its documented behaviour) dispatches a request to the
    layers whose path matches and whose methods include the request's
    ([router.get] registers GET and HEAD; a [use] layer has no methods and
    matches every path as a prefix); the request is served only when one of
    them is a route, and the matched layers run composed in registration
    order, each reaching the next through [next()].  Paths are matched as
    path-to-regexp does by default: segment by segment, literals without
    regard to case, a parameter matching one non-empty segment, and a
    trailing slash allowed.  The layers run on the route state paired with
    the response headers, which the error middleware writes
    ([cache-control: no-store]) before it calls the rest. *)

From S2P Require Import Prelude Account KubeApi SiteSession Policy Routes.
From Stdlib Require Import Ascii.

Inductive Method := GET | HEAD | POST.

#[export] Instance Method_eq_dec : EqDecision Method.
Proof. solve_decision. Defined.

(** A segment of a registered path: a literal, or a named parameter. *)
Inductive Seg :=
| Lit (s : string)
| Param (name : string).

#[export] Instance Seg_eq_dec : EqDecision Seg.
Proof. solve_decision. Defined.

(** The handlers of the file, by the route they serve. *)
Inductive RouteId :=
| R_root | R_interaction | R_federated | R_callback_gh | R_email | R_impersonate
| R_email_sent | R_verify_email | R_confirm_tos | R_update_name | R_abort.

#[export] Instance RouteId_eq_dec : EqDecision RouteId.
Proof. solve_decision. Defined.

(** What a layer runs: the error middleware, or a route's handler. *)
Inductive Mw :=
| ErrorMw
| Route (r : RouteId).

#[export] Instance Mw_eq_dec : EqDecision Mw.
Proof. solve_decision. Defined.

(** A koa-router layer: its methods ([[]] for [use]), its path, whether
    the path must match to its end ([false] for [use], a prefix match),
    whether the [body] parser runs before the handler, and what it runs. *)
Record Layer := mkLayer {
  methods : list Method;
  pattern : list Seg;
  exact : bool;
  with_body : bool;
  mw : Mw;
}.

#[export] Instance Layer_eq_dec : EqDecision Layer.
Proof. solve_decision. Defined.

Definition get_layer (p : list Seg) (r : RouteId) : Layer := mkLayer [HEAD; GET] p true false (Route r).
Definition post_layer (p : list Seg) (r : RouteId) : Layer := mkLayer [POST] p true true (Route r).
Definition error_layer : Layer := mkLayer [] [] false false ErrorMw.

(** The registrations of lines 102-111: GET / and GET /profile. *)
Definition root_layers : list Layer :=
  [ get_layer [] R_root; get_layer [Lit "profile"] R_root ].

(** The registrations of lines 128-269. *)
Definition interaction_layers : list Layer :=
  [ get_layer [Lit "interaction"; Param "uid"] R_interaction;
    post_layer [Lit "interaction"; Param "uid"; Lit "federated"] R_federated;
    get_layer [Lit "interaction"; Lit "callback"; Lit "gh"] R_callback_gh;
    post_layer [Lit "interaction"; Param "uid"; Lit "email"] R_email;
    post_layer [Lit "interaction"; Param "uid"; Lit "impersonate"] R_impersonate;
    get_layer [Lit "interaction"; Param "uid"; Lit "email-sent"] R_email_sent;
    get_layer [Lit "interaction"; Param "uid"; Lit "verify-email"; Param "token"] R_verify_email;
    post_layer [Lit "interaction"; Param "uid"; Lit "confirm-tos"] R_confirm_tos;
    post_layer [Lit "interaction"; Param "uid"; Lit "update-name"] R_update_name;
    get_layer [Lit "interaction"; Param "uid"; Lit "abort"] R_abort ].

(** The router of lines 99-271: the registrations in order, the error
    middleware between GET / and the interaction routes. *)
Definition router_table : list Layer := root_layers ++ error_layer :: interaction_layers.

(** ** Path matching (path-to-regexp, [sensitive: false], [strict: false]) *)

Definition ascii_lower (c : ascii) : ascii :=
  let n := nat_of_ascii c in if (65 <=? n) && (n <=? 90) then ascii_of_nat (n + 32) else c.

Fixpoint lower (s : string) : string :=
  match s with
  | EmptyString => EmptyString
  | String c rest => String (ascii_lower c) (lower rest)
  end.

Definition seg_matches (p : Seg) (a : string) : bool :=
  match p with
  | Lit s => bool_decide (lower a = s)
  | Param _ => bool_decide (a ≠ "")
  end.

Fixpoint segs_match (ps : list Seg) (segs : list string) (exact : bool) : bool :=
  match ps, segs with
  | [], [] => true
  | [], _ :: _ => negb exact
  | p :: ps', a :: segs' => seg_matches p a && segs_match ps' segs' exact
  | _ :: _, [] => false
  end.

(** The segments of a request path: what follows the leading "/", split
    on "/", a trailing empty segment dropped. *)
Definition path_segments (path : string) : list string :=
  match path with
  | String "/" rest =>
      match reverse (KubeApi.split_slash rest "") with
      | "" :: r => reverse r
      | l => reverse l
      end
  | _ => [path]
  end.

Definition layer_matches (m : Method) (segs : list string) (L : Layer) : bool :=
  segs_match (pattern L) segs (exact L) &&
  (bool_decide (methods L = []) || bool_decide (m ∈ methods L)).

(** [router.routes()]: the matched layers in registration order, or
    [None] (the request passes the router by) when none of them is a
    route. *)
Definition dispatch (m : Method) (segs : list string) : option (list Layer) :=
  let ls := filter (λ L, layer_matches m segs L = true) router_table in
  if existsb (λ L, bool_decide (methods L ≠ [])) ls then Some ls else None.

(** ** Running the matched layers *)

Section RouterRun.
Context {S : Type} `{!UserService S} `{!UserStore S}.
Variable signedInToSelf : st (RouteState S) bool.
Variable enableAndGetRedirectUri : st (RouteState S) string.
Variable getImpersonation : st (RouteState S) (option string).
Variable getLoginResult : js_user → st (RouteState S) (gmap string RVal).
Variable sendLink : st (RouteState S) Response.
Variable verifyLink : st (RouteState S) Response.

(** [await provider.interactionDetails(ctx.req, ctx.res)] at the start of
    a handler (lines 129, 195, 242 and 252): the handler runs on the
    details, or the provider's rejection (an expired or unknown
    interaction) is thrown before anything else happens. *)
Definition with_details (dt : exc Details) (k : Details → st (RouteState S) Response)
    : st (RouteState S) Response :=
  match dt with Ret d => k d | Throw e => st_lift (Throw e) end.

(** The handler each registration names (lines 102-269), given what
    [interactionDetails] returns for the request. *)
Definition route_handler (req : Request) (dt : exc Details) (r : RouteId)
    : st (RouteState S) Response :=
  match r with
  | R_root => get_root signedInToSelf enableAndGetRedirectUri
  | R_interaction => with_details dt (get_interaction req)
  | R_federated => with_details dt (post_federated req)
  | R_callback_gh => get_callback_gh
  | R_email => post_email sendLink
  | R_impersonate => post_impersonate getImpersonation getLoginResult
  | R_email_sent => get_email_sent
  | R_verify_email => get_verify_email verifyLink
  | R_confirm_tos => with_details dt post_confirm_tos
  | R_update_name => with_details dt (post_update_name req)
  | R_abort => get_abort
  end.

(** The response headers set while the router runs. *)
Definition Headers := gmap string string.

(** A route handler runs on the route state and leaves the headers. *)
Definition lift_rs {A} (m : st (RouteState S) A) : st (RouteState S * Headers) A := λ s,
  let '(r, rs') := m s.1 in (r, (rs', s.2)).

(** [ctx.set(k, v)]. *)
Definition set_header (k v : string) : st (RouteState S * Headers) unit := λ s,
  (Ret tt, (s.1, <[k := v]> s.2)).

(** The error middleware of lines 113-126: it sets [cache-control:
    no-store], then runs the rest of the chain and renders a provider
    error. *)
Definition router_error_middleware (next : st (RouteState S * Headers) Response)
    : st (RouteState S * Headers) Response :=
  _ <- set_header "cache-control" "no-store" ;;
  error_middleware next.

(** koa-compose over the matched layers: the error middleware wraps what
    follows it; a
    handler that calls [next()] passes on to the next layer, and the last
    [next()] leaves the router (koa answers 404). *)
Fixpoint run_layers (req : Request) (d : exc Details) (ls : list Layer)
    : st (RouteState S * Headers) Response :=
  match ls with
  | [] => st_ret Next
  | L :: ls' =>
      match mw L with
      | ErrorMw => router_error_middleware (run_layers req d ls')
      | Route r =>
          resp <- lift_rs (route_handler req d r) ;;
          match resp with Next => run_layers req d ls' | _ => st_ret resp end
      end
  end.

(** A request to the router. *)
Definition handle (m : Method) (path : string) (req : Request) (d : exc Details)
    : st (RouteState S * Headers) Response :=
  match dispatch m (path_segments path) with
  | Some ls => run_layers req d ls
  | None => st_ret Next
  end.
End RouterRun.

(** ** Lemmas *)

(** Two exact patterns some path matches both: same length, and no
    position where both are literals that differ. *)
Definition seg_overlap (p q : Seg) : bool :=
  match p, q with Lit a, Lit b => bool_decide (a = b) | _, _ => true end.

Fixpoint patterns_overlap (ps qs : list Seg) : bool :=
  match ps, qs with
  | [], [] => true
  | p :: ps', q :: qs' => seg_overlap p q && patterns_overlap ps' qs'
  | _, _ => false
  end.

Lemma patterns_overlap_sound ps qs segs :
  segs_match ps segs true = true → segs_match qs segs true = true →
  patterns_overlap ps qs = true.
Proof.
  revert ps qs. induction segs as [|a segs IH]; intros [|p ps] [|q qs]; simpl; try done.
  rewrite !andb_true_iff. intros [Hp Hps] [Hq Hqs]. split; [|by apply (IH ps qs)].
  destruct p, q; simpl in *; try done. apply bool_decide_eq_true in Hp, Hq.
  apply bool_decide_eq_true. congruence.
Qed.

(** The route layers of the table pairwise do not overlap (checked by
    evaluation), and all of them match exactly. *)
Lemma route_layers_disjoint :
  Forall (λ L1, Forall (λ L2, L1 = L2 ∨ patterns_overlap (pattern L1) (pattern L2) = false)
                       (root_layers ++ interaction_layers))
         (root_layers ++ interaction_layers).
Proof. apply (bool_decide_unpack _). vm_compute. reflexivity. Qed.

Lemma route_layers_exact : Forall (λ L, exact L = true ∧ methods L ≠ []) (root_layers ++ interaction_layers).
Proof. apply (bool_decide_unpack _). vm_compute. reflexivity. Qed.

Lemma route_layers_nodup : NoDup (root_layers ++ interaction_layers).
Proof. apply (bool_decide_unpack _). vm_compute. reflexivity. Qed.

Lemma route_match_unique m segs L1 L2 :
  L1 ∈ root_layers ++ interaction_layers → L2 ∈ root_layers ++ interaction_layers →
  layer_matches m segs L1 = true → layer_matches m segs L2 = true → L1 = L2.
Proof.
  intros H1 H2 Hm1 Hm2. pose proof route_layers_exact as Hex. rewrite Forall_forall in Hex.
  destruct (Hex L1 H1) as [He1 _], (Hex L2 H2) as [He2 _].
  unfold layer_matches in Hm1, Hm2. apply andb_true_iff in Hm1 as [Hm1 _], Hm2 as [Hm2 _].
  rewrite He1 in Hm1. rewrite He2 in Hm2.
  pose proof (patterns_overlap_sound _ _ _ Hm1 Hm2) as Ho.
  pose proof route_layers_disjoint as Hd. rewrite Forall_forall in Hd.
  specialize (Hd L1 H1). rewrite Forall_forall in Hd. destruct (Hd L2 H2); congruence.
Qed.

Lemma error_layer_matches m segs : layer_matches m segs error_layer = true.
Proof. unfold layer_matches. simpl. by destruct segs. Qed.

Lemma filter_none {A} (P : A → Prop) `{∀ x, Decision (P x)} (l : list A) :
  (∀ y, y ∈ l → ¬ P y) → filter P l = [].
Proof.
  induction l as [|a l IH]; intros Hn; [done|].
  rewrite filter_cons_False by (apply Hn; set_solver). apply IH. set_solver.
Qed.

(** A filter that at most one element of a duplicate-free list passes
    keeps at most that element. *)
Lemma filter_at_most_one {A} (P : A → Prop) `{∀ x, Decision (P x)} (l : list A) :
  NoDup l → (∀ x y, x ∈ l → y ∈ l → P x → P y → x = y) →
  filter P l = [] ∨ ∃ x, x ∈ l ∧ P x ∧ filter P l = [x].
Proof.
  induction l as [|a l IH]; intros Hnd Hu; [by left|]. apply NoDup_cons in Hnd as [Hna Hnd].
  rewrite filter_cons. destruct (decide (P a)) as [Ha|Ha].
  - right. exists a. split_and!; [set_solver|done|]. f_equal.
    apply filter_none. intros y Hy Py.
    apply Hna. rewrite <-(Hu y a); [done|set_solver..|done|done].
  - destruct IH as [->|(x & Hx & Px & ->)]; [done| |by left|right; exists x; split_and!; [set_solver|done|done]].
    intros x y Hx Hy. apply Hu; set_solver.
Qed.

Lemma route_layers_in_root L : L ∈ root_layers → L ∈ root_layers ++ interaction_layers.
Proof. intros H. apply elem_of_app. by left. Qed.
Lemma route_layers_in_interaction L : L ∈ interaction_layers → L ∈ root_layers ++ interaction_layers.
Proof. intros H. apply elem_of_app. by right. Qed.

Lemma route_layer_methods L : L ∈ root_layers ++ interaction_layers → methods L ≠ [].
Proof. intros HL. pose proof route_layers_exact as H. rewrite Forall_forall in H. apply H, HL. Qed.

Lemma dispatch_cases m segs :
  dispatch m segs = None ∨
  (∃ L, L ∈ root_layers ∧ dispatch m segs = Some [L; error_layer]) ∨
  (∃ L, L ∈ interaction_layers ∧ dispatch m segs = Some [error_layer; L]).
Proof.
  pose proof route_layers_nodup as Hnd. apply NoDup_app in Hnd as (Hnd1 & Hdis & Hnd2).
  pose proof (route_match_unique m segs) as Hu.
  unfold dispatch, router_table. rewrite filter_app, filter_cons_True by apply error_layer_matches.
  destruct (filter_at_most_one (λ L, layer_matches m segs L = true) root_layers Hnd1
              (λ x y Hx Hy, Hu x y (route_layers_in_root x Hx) (route_layers_in_root y Hy)))
    as [-> | (x & Hx & Px & ->)];
  destruct (filter_at_most_one (λ L, layer_matches m segs L = true) interaction_layers Hnd2
              (λ x y Hx Hy, Hu x y (route_layers_in_interaction x Hx) (route_layers_in_interaction y Hy)))
    as [-> | (y & Hy & Py & ->)]; simpl.
  - by left.
  - right; right. exists y. split; [done|].
    by rewrite (bool_decide_eq_true_2 _ (route_layer_methods y (route_layers_in_interaction y Hy))).
  - right; left. exists x. split; [done|].
    by rewrite (bool_decide_eq_true_2 _ (route_layer_methods x (route_layers_in_root x Hx))).
  - exfalso. apply (Hdis x Hx).
    rewrite (Hu x y (route_layers_in_root x Hx) (route_layers_in_interaction y Hy) Px Py). done.
Qed.

(** A route layer the request matches is among the dispatched layers. *)
Lemma dispatch_matching m segs L :
  L ∈ root_layers ++ interaction_layers → layer_matches m segs L = true →
  ∃ ls, dispatch m segs = Some ls ∧ L ∈ ls.
Proof.
  intros HL Hm.
  assert (Ht : L ∈ router_table).
  { unfold router_table. apply elem_of_app in HL as [?|?];
      apply elem_of_app; [by left | right; by apply elem_of_cons; right]. }
  assert (Hf : L ∈ filter (λ L, layer_matches m segs L = true) router_table)
    by (by apply list_elem_of_filter).
  unfold dispatch. destruct (existsb _ _) eqn:E; [by eauto|].
  exfalso. apply not_true_iff_false in E. apply E, existsb_exists.
  exists L. split; [by apply list_elem_of_In|]. by apply bool_decide_eq_true, route_layer_methods.
Qed.

(** The layer a request matches decides its dispatch: a matched root
    route dispatches to itself then the error middleware, a matched
    interaction route to the error middleware then itself. *)
Lemma error_layer_not_route : error_layer ∉ root_layers ++ interaction_layers.
Proof. intros H. by apply route_layer_methods in H. Qed.

Lemma dispatch_root m segs L :
  L ∈ root_layers → layer_matches m segs L = true → dispatch m segs = Some [L; error_layer].
Proof.
  intros HL Hm. pose proof route_layers_nodup as Hnd. apply NoDup_app in Hnd as (_ & Hdis & _).
  pose proof (route_layers_in_root L HL) as HL'.
  destruct (dispatch_matching m segs L HL' Hm) as (ls & Hd & Hin).
  destruct (dispatch_cases m segs) as [Hn | [(L' & HL'' & Hn) | (L' & HL'' & Hn)]];
    rewrite Hd in Hn; simplify_eq;
    (apply elem_of_cons in Hin as [->|Hin]; [|apply list_elem_of_singleton in Hin as ->]).
  - done.
  - by apply error_layer_not_route in HL'.
  - by apply error_layer_not_route in HL'.
  - exfalso. by eapply Hdis.
Qed.

Lemma dispatch_interaction m segs L :
  L ∈ interaction_layers → layer_matches m segs L = true → dispatch m segs = Some [error_layer; L].
Proof.
  intros HL Hm. pose proof route_layers_nodup as Hnd. apply NoDup_app in Hnd as (_ & Hdis & _).
  pose proof (route_layers_in_interaction L HL) as HL'.
  destruct (dispatch_matching m segs L HL' Hm) as (ls & Hd & Hin).
  destruct (dispatch_cases m segs) as [Hn | [(L' & HL'' & Hn) | (L' & HL'' & Hn)]];
    rewrite Hd in Hn; simplify_eq;
    (apply elem_of_cons in Hin as [->|Hin]; [|apply list_elem_of_singleton in Hin as ->]).
  - exfalso. by eapply Hdis.
  - by apply error_layer_not_route in HL'.
  - by apply error_layer_not_route in HL'.
  - done.
Qed.

Lemma error_middleware_renders {W} (h : st W Response) (s : W) status msg s' :
  error_middleware h s ≠ (Throw (OIDCProviderError status msg), s').
Proof. unfold error_middleware. by repeat case_match. Qed.

Definition is_route (L : Layer) : bool := match mw L with Route _ => true | ErrorMw => false end.

Lemma interaction_layers_routes L : L ∈ interaction_layers → is_route L = true.
Proof.
  intros HL. assert (H : Forall (λ L, is_route L = true) interaction_layers) by (repeat constructor).
  rewrite Forall_forall in H. by apply H.
Qed.

Lemma root_layers_root L : L ∈ root_layers → mw L = Route R_root.
Proof.
  intros HL. assert (H : Forall (λ L, mw L = Route R_root) root_layers) by (repeat constructor).
  rewrite Forall_forall in H. by apply H.
Qed.

(** The routes whose handler starts with [interactionDetails]. *)
Definition reads_details (L : Layer) : bool :=
  match mw L with
  | Route (R_interaction | R_federated | R_confirm_tos | R_update_name) => true
  | _ => false
  end.

Section Headers.
Context {S : Type} `{!UserService S} `{!UserStore S}.
Variable signedInToSelf : st (RouteState S) bool.
Variable enableAndGetRedirectUri : st (RouteState S) string.
Variable getImpersonation : st (RouteState S) (option string).
Variable getLoginResult : js_user → st (RouteState S) (gmap string RVal).
Variable sendLink : st (RouteState S) Response.
Variable verifyLink : st (RouteState S) Response.

Local Abbreviation run := (run_layers signedInToSelf enableAndGetRedirectUri getImpersonation getLoginResult
                   sendLink verifyLink).

(** Route layers leave the headers as they are, whatever they answer. *)
Lemma run_routes_headers req d ls (s : RouteState S * Headers) :
  Forall (λ L, is_route L = true) ls → (run req d ls s).2.2 = s.2.
Proof.
  revert s. induction ls as [|L ls IH]; intros [rs h] Hls; [done|].
  inversion Hls as [|? ? HL Hls']; subst. unfold is_route in HL. simpl.
  destruct (mw L) as [|r]; [done|]. unfold st_bind, lift_rs. simpl.
  destruct (route_handler _ _ _ _ _ _ _ _ r rs) as [[resp|e] rs'];
    [destruct resp; try done; by rewrite IH|done].
Qed.

(** The error middleware's layer: the header is set before the rest runs,
    whatever the rest does. *)
Lemma run_error_layer_headers req d ls (s : RouteState S * Headers) :
  Forall (λ L, is_route L = true) ls →
  (run req d (error_layer :: ls) s).2.2 = <["cache-control" := "no-store"]> s.2.
Proof.
  intros Hls. cbn [run_layers mw error_layer].
  unfold router_error_middleware, st_bind, set_header, error_middleware.
  pose proof (run_routes_headers req d ls (s.1, <["cache-control" := "no-store"]> s.2) Hls) as H.
  destruct (run req d ls _) as [[|[]] s'] eqn:E; by simpl in *.
Qed.

Lemma get_root_answers (rs : RouteState S) :
  (get_root signedInToSelf enableAndGetRedirectUri rs).1 ≠ Ret Next.
Proof.
  unfold get_root, st_bind, st_ret. destruct (signedInToSelf rs) as [[[]|e] rs1]; simpl; try done.
  by destruct (enableAndGetRedirectUri rs1) as [[] ?].
Qed.
End Headers.

(** ** Properties *)

Section RouterFacts.
Context {S : Type} `{!UserService S} `{!UserStore S}.
Variable signedInToSelf : st (RouteState S) bool.
Variable enableAndGetRedirectUri : st (RouteState S) string.
Variable getImpersonation : st (RouteState S) (option string).
Variable getLoginResult : js_user → st (RouteState S) (gmap string RVal).
Variable sendLink : st (RouteState S) Response.
Variable verifyLink : st (RouteState S) Response.

(** The shape of every dispatch.  A request reaches no route, or one
    of GET / and /profile followed by the error middleware, or the error
    middleware followed by exactly one interaction route: no two routes of
    the file ever match the same request. *)
Theorem dispatch_shape m (path : string) :
  dispatch m (path_segments path) = None ∨
  (∃ L, L ∈ root_layers ∧ dispatch m (path_segments path) = Some [L; error_layer]) ∨
  (∃ L, L ∈ interaction_layers ∧ dispatch m (path_segments path) = Some [error_layer; L]).
Proof. apply dispatch_cases. Qed.

(** An [OIDCProviderError] leaves the router only from GET / or
    /profile: on every interaction route the error middleware, registered
    before them, renders it. *)
Theorem provider_errors_escape_only_root m path req d (s : RouteState S * Headers) status msg s' :
  handle signedInToSelf enableAndGetRedirectUri getImpersonation getLoginResult sendLink verifyLink
    m path req d s = (Throw (OIDCProviderError status msg), s') →
  ∃ L, L ∈ root_layers ∧ dispatch m (path_segments path) = Some [L; error_layer].
Proof.
  unfold handle. intros Hh.
  destruct (dispatch_cases m (path_segments path)) as [Hd | [(L & HL & Hd) | (L & HL & Hd)]];
    rewrite Hd in Hh |- *; [done | by eauto |].
  cbn [run_layers mw error_layer] in Hh. unfold router_error_middleware, st_bind at 1, set_header in Hh.
  by apply error_middleware_renders in Hh.
Qed.

(** C18: the error middleware does not wrap GET / and /profile: it is
    registered after them, and koa-router runs matched layers in
    registration order, so an [OIDCProviderError] thrown while serving the
    root page propagates instead of being rendered (and the response gets
    no [cache-control: no-store]). *)
Theorem root_errors_escape (rs : RouteState S) (h : Headers) req d status msg rs' :
  get_root signedInToSelf enableAndGetRedirectUri rs = (Throw (OIDCProviderError status msg), rs') →
  handle signedInToSelf enableAndGetRedirectUri getImpersonation getLoginResult sendLink verifyLink
    GET "/" req d (rs, h) = (Throw (OIDCProviderError status msg), (rs', h)).
Proof.
  intros Hr. unfold handle.
  replace (dispatch GET (path_segments "/")) with (Some [get_layer [] R_root; error_layer])
    by (vm_compute; reflexivity).
  cbn [run_layers mw get_layer route_handler]. unfold st_bind, lift_rs. simpl. by rewrite Hr.
Qed.

(** C19: [cache-control: no-store] marks exactly the interaction
    routes.  A request dispatched to an interaction route leaves the
    router with the header set, whatever the handler answers; a request
    dispatched to GET / or /profile leaves it with the headers it came
    with, since the root handler always answers (or throws) before the
    error middleware's layer is reached. *)
Theorem no_store_only_interaction_routes m path req d (rs : RouteState S) (h : Headers) :
  (∀ L, L ∈ interaction_layers → layer_matches m (path_segments path) L = true →
     (handle signedInToSelf enableAndGetRedirectUri getImpersonation getLoginResult sendLink
        verifyLink m path req d (rs, h)).2.2 = <["cache-control" := "no-store"]> h) ∧
  (∀ L, L ∈ root_layers → layer_matches m (path_segments path) L = true →
     (handle signedInToSelf enableAndGetRedirectUri getImpersonation getLoginResult sendLink
        verifyLink m path req d (rs, h)).2.2 = h).
Proof.
  unfold handle. split; intros L HL Hm.
  - rewrite (dispatch_interaction _ _ L HL Hm).
    apply (run_error_layer_headers _ _ _ _ _ _ _ _ _ (rs, h)).
    repeat constructor. by apply interaction_layers_routes.
  - rewrite (dispatch_root _ _ L HL Hm). cbn [run_layers].
    rewrite (root_layers_root L HL). unfold st_bind, lift_rs. simpl.
    pose proof (get_root_answers signedInToSelf enableAndGetRedirectUri rs) as Hn.
    destruct (get_root _ _ rs) as [[[]|e] rs']; by simpl in *.
Qed.
(** C21: an expired or unknown interaction on the routes that load
    it (GET /interaction/:uid and the federated, confirm-tos and
    update-name posts).  [interactionDetails] rejects first, the error
    middleware renders the provider's error with its status, and nothing
    else happens: the store, the audit log and the result are those the
    request found, and the page is marked no-store.  The spec's degraded
    view is only what [render] shows on the pages that do not load the
    interaction first. *)
Theorem expired_interaction_error_page m path req status msg L (rs : RouteState S) (h : Headers) :
  L ∈ interaction_layers → reads_details L = true → layer_matches m (path_segments path) L = true →
  handle signedInToSelf enableAndGetRedirectUri getImpersonation getLoginResult sendLink verifyLink
    m path req (Throw (OIDCProviderError status msg)) (rs, h) =
    (Ret (ErrorPage status msg), (rs, <["cache-control" := "no-store"]> h)).
Proof.
  intros HL Hr Hm. unfold handle. rewrite (dispatch_interaction _ _ L HL Hm).
  unfold reads_details in Hr. cbn [run_layers mw error_layer].
  destruct (mw L) as [|[]]; try discriminate; reflexivity.
Qed.
End RouterFacts.

(** ** Witnesses *)

Definition wit_failing_signed_in : st (RouteState KubeApi.Backend) bool :=
  λ rs, (Throw (OIDCProviderError 500 "server_error"), rs).
Definition wit_unused_uri : st (RouteState KubeApi.Backend) string := λ rs, (Ret "", rs).
Definition wit_no_impersonation : st (RouteState KubeApi.Backend) (option string) :=
  λ rs, (Ret None, rs).
Definition wit_no_login : js_user → st (RouteState KubeApi.Backend) (gmap string RVal) :=
  λ _ rs, (Ret ∅, rs).
Definition wit_no_mail : st (RouteState KubeApi.Backend) Response := λ rs, (Ret Next, rs).

Lemma root_errors_escape_witness :
  get_root wit_failing_signed_in wit_unused_uri (wit_rs None) =
    (Throw (OIDCProviderError 500 "server_error"), wit_rs None) ∧
  handle wit_failing_signed_in wit_unused_uri wit_no_impersonation wit_no_login wit_no_mail wit_no_mail
    GET "/" wit_req (Ret (wit_details "login")) (wit_rs None, ∅) =
    (Throw (OIDCProviderError 500 "server_error"), (wit_rs None, ∅)).
Proof.
  split; [reflexivity|].
  apply root_errors_escape. reflexivity.
Defined.

Lemma provider_errors_escape_only_root_witness :
  handle wit_failing_signed_in wit_unused_uri wit_no_impersonation wit_no_login wit_no_mail wit_no_mail
    GET "/" wit_req (Ret (wit_details "login")) (wit_rs None, ∅) =
    (Throw (OIDCProviderError 500 "server_error"), (wit_rs None, ∅)) ∧
  ∃ L, L ∈ root_layers ∧ dispatch GET (path_segments "/") = Some [L; error_layer].
Proof.
  assert (Hh : handle wit_failing_signed_in wit_unused_uri wit_no_impersonation wit_no_login
                 wit_no_mail wit_no_mail GET "/" wit_req (Ret (wit_details "login")) (wit_rs None, ∅) =
               (Throw (OIDCProviderError 500 "server_error"), (wit_rs None, ∅))) by (vm_compute; reflexivity).
  split; [exact Hh | exact (provider_errors_escape_only_root _ _ _ _ _ _ _ _ _ _ _ _ _ _ Hh)].
Defined.

Lemma no_store_only_interaction_routes_witness :
  get_layer [Lit "interaction"; Param "uid"] R_interaction ∈ interaction_layers ∧
  layer_matches GET (path_segments "/interaction/abc")
    (get_layer [Lit "interaction"; Param "uid"] R_interaction) = true ∧
  get_layer [] R_root ∈ root_layers ∧
  layer_matches GET (path_segments "/") (get_layer [] R_root) = true ∧
  (handle wit_failing_signed_in wit_unused_uri wit_no_impersonation wit_no_login wit_no_mail wit_no_mail
     GET "/interaction/abc" wit_req (Ret (wit_details "tos")) (wit_rs None, ∅)).2.2 =
    {["cache-control" := "no-store"]} ∧
  (handle wit_failing_signed_in wit_unused_uri wit_no_impersonation wit_no_login wit_no_mail wit_no_mail
     GET "/" wit_req (Ret (wit_details "tos")) (wit_rs None, ∅)).2.2 = ∅.
Proof.
  assert (Hi : get_layer [Lit "interaction"; Param "uid"] R_interaction ∈ interaction_layers)
    by (apply list_elem_of_here).
  assert (Hr : get_layer [] R_root ∈ root_layers) by (apply list_elem_of_here).
  assert (Hmi : layer_matches GET (path_segments "/interaction/abc")
                  (get_layer [Lit "interaction"; Param "uid"] R_interaction) = true)
    by (vm_compute; reflexivity).
  assert (Hmr : layer_matches GET (path_segments "/") (get_layer [] R_root) = true)
    by (vm_compute; reflexivity).
  split_and!; [exact Hi | exact Hmi | exact Hr | exact Hmr | |].
  - exact (proj1 (no_store_only_interaction_routes wit_failing_signed_in wit_unused_uri
             wit_no_impersonation wit_no_login wit_no_mail wit_no_mail GET "/interaction/abc" wit_req
             (Ret (wit_details "tos")) (wit_rs None) ∅) _ Hi Hmi).
  - exact (proj2 (no_store_only_interaction_routes wit_failing_signed_in wit_unused_uri
             wit_no_impersonation wit_no_login wit_no_mail wit_no_mail GET "/" wit_req
             (Ret (wit_details "tos")) (wit_rs None) ∅) _ Hr Hmr).
Defined.

Lemma expired_interaction_error_page_witness :
  post_layer [Lit "interaction"; Param "uid"; Lit "update-name"] R_update_name ∈ interaction_layers ∧
  reads_details (post_layer [Lit "interaction"; Param "uid"; Lit "update-name"] R_update_name) = true ∧
  layer_matches POST (path_segments "/interaction/abc/update-name")
    (post_layer [Lit "interaction"; Param "uid"; Lit "update-name"] R_update_name) = true ∧
  handle wit_failing_signed_in wit_unused_uri wit_no_impersonation wit_no_login wit_no_mail wit_no_mail
    POST "/interaction/abc/update-name" wit_req (Throw (OIDCProviderError 400 "invalid_request"))
    (wit_rs None, ∅) =
    (Ret (ErrorPage 400 "invalid_request"), (wit_rs None, {["cache-control" := "no-store"]})).
Proof.
  assert (HL : post_layer [Lit "interaction"; Param "uid"; Lit "update-name"] R_update_name
                 ∈ interaction_layers) by (apply (bool_decide_unpack _); vm_compute; reflexivity).
  assert (Hm : layer_matches POST (path_segments "/interaction/abc/update-name")
                 (post_layer [Lit "interaction"; Param "uid"; Lit "update-name"] R_update_name) = true)
    by (vm_compute; reflexivity).
  split_and!; [exact HL | reflexivity | exact Hm |].
  exact (expired_interaction_error_page wit_failing_signed_in wit_unused_uri wit_no_impersonation
           wit_no_login wit_no_mail wit_no_mail POST "/interaction/abc/update-name" wit_req 400
           "invalid_request" _ (wit_rs None) ∅ HL eq_refl Hm).
Defined.
