(* ===== verification/Provider.v ===== *)
(** * The provider and its security middleware

    src/implementation/setup-provider.js builds the oidc-provider instance
    with [provider.proxy = true] (koa trusts the [X-Forwarded-*] headers of
    the TLS-terminating proxy) and installs a koa middleware that runs
    helmet on every request: it saves [ctx.req.secure], replaces it with
    koa's proxy-aware [ctx.request.secure] while helmet runs, draws a fresh
    nonce [crypto.randomBytes(16).toString('base64')] into
    [ctx.res.locals.cspNonce], and restores [ctx.req.secure] afterwards.
    helmet is configured with [useDefaults: false] and the directives
    helmet's defaults without [form-action] and with [script-src] set to
    ['self'] and the response's nonce.

    helmet, koa's [request.protocol] and Node's base64 encoding are
    modelled from their documented behaviour: helmet serializes the
    directives (merged with its defaults only when [useDefaults] is set),
    calling a function source with the response, and decides HSTS from
    [req.secure]; koa's protocol is "https" on a TLS socket and, behind a
    trusted proxy, the first field of [X-Forwarded-Proto]; base64 encodes
    each group of three bytes as four 6-bit indices into its alphabet,
    padding the last group with "=".  The raw Node request carries no
    [secure] property, so [ctx.req.secure] starts [undefined] (false).

    The repository pins no helmet version (there is no package manifest
    under src/).  That HSTS is decided from [req.secure] is the behaviour
    the middleware's swap of [ctx.req.secure] is written for; a helmet
    that sends [Strict-Transport-Security] on every response would make
    the HSTS conjunct of C27 moot and change nothing else: the CSP parts
    of C27 and the theorems C28 and C29 do not depend on it. *)

From S2P Require Import Prelude.
From Stdlib Require Import Ascii ZArith Strings.Byte.

(** ** Base64 (Node's [Buffer.prototype.toString('base64')]) *)

Definition byte_val (b : byte) : Z := Z.of_N (Byte.to_N b).

(** The alphabet, then the padding character. *)
Definition b64_chars : list ascii :=
  String.list_ascii_of_string "ABCDEFGHIJKLMNOPQRSTUVWXYZabcdefghijklmnopqrstuvwxyz0123456789+/=".

Definition b64_char (i : Z) : ascii := nth (Z.to_nat i) b64_chars "="%char.

(** The 6-bit group of [n] starting at bit [k]. *)
Definition sextet (n k : Z) : Z := Z.land (Z.shiftr n k) 63.

Definition b64_quad (n : Z) : list ascii :=
  [b64_char (sextet n 18); b64_char (sextet n 12); b64_char (sextet n 6); b64_char (sextet n 0)].

Fixpoint base64_list (bs : list byte) : list ascii :=
  match bs with
  | b0 :: b1 :: b2 :: rest =>
      b64_quad (Z.lor (Z.shiftl (byte_val b0) 16)
                      (Z.lor (Z.shiftl (byte_val b1) 8) (byte_val b2))) ++ base64_list rest
  | [b0; b1] =>
      take 3 (b64_quad (Z.lor (Z.shiftl (byte_val b0) 16) (Z.shiftl (byte_val b1) 8))) ++ ["="%char]
  | [b0] => take 2 (b64_quad (Z.shiftl (byte_val b0) 16)) ++ ["="%char; "="%char]
  | [] => []
  end.

Definition base64 (bs : list byte) : string := String.string_of_list_ascii (base64_list bs).

(** ** The CSP directives (lines 22-30) *)

(** A source of a directive: a keyword, or the function
    [(req, res) => `'nonce-${res.locals.cspNonce}'`]. *)
Inductive CspSource :=
| Keyword (k : string)
| NonceSource.

(** Lines 22-24. *)
Definition directives_of (defaults : gmap string (list CspSource))
    : gmap string (list CspSource) :=
  <["script-src" := [Keyword "'self'"; NonceSource]]> (delete "form-action" defaults).

(** The nonce source evaluated for a response whose nonce is [nonce]. *)
Definition render_source (nonce : string) (s : CspSource) : string :=
  match s with
  | Keyword k => k
  | NonceSource => "'nonce-" ++ nonce ++ "'"
  end.

(** [helmet({ contentSecurityPolicy: { useDefaults, directives } })]. *)
Record HelmetOptions := mkHelmetOptions {
  useDefaults : bool;
  csp_directives : gmap string (list CspSource);
}.

(** Lines 25-30. *)
Definition helmet_options_of (defaults : gmap string (list CspSource)) : HelmetOptions :=
  mkHelmetOptions false (directives_of defaults).

(** The policy helmet sends: the given directives, over its defaults only
    when [useDefaults] is set. *)
Definition csp_policy (defaults : gmap string (list CspSource)) (o : HelmetOptions)
    : gmap string (list CspSource) :=
  if useDefaults o then csp_directives o ∪ defaults else csp_directives o.

(** ** koa's request *)

(** What koa reads to compute [ctx.request.protocol]. *)
Record KoaRequest := mkKoaRequest {
  socket_encrypted : bool;
  x_forwarded_proto : option string;
}.

(** [proto.split(/\s*,\s*/, 1)[0]]: the text before the first comma,
    without the blanks that precede it. *)
Fixpoint before_comma (s : string) : string :=
  match s with
  | EmptyString => EmptyString
  | String c rest => if Ascii.eqb c ","%char then EmptyString else String c (before_comma rest)
  end.

Definition is_blank (c : ascii) : bool := Ascii.eqb c " "%char || Ascii.eqb c "009"%char.

Fixpoint drop_blanks (l : list ascii) : list ascii :=
  match l with
  | c :: l' => if is_blank c then drop_blanks l' else l
  | [] => []
  end.

Definition rstrip_blanks (s : string) : string :=
  String.string_of_list_ascii (reverse (drop_blanks (reverse (String.list_ascii_of_string s)))).

(** koa's [request.protocol] getter. *)
Definition koa_protocol (proxy : bool) (r : KoaRequest) : string :=
  if socket_encrypted r then "https"
  else if negb proxy then "http"
  else match x_forwarded_proto r with
       | Some p => if truthy_string (Some p) then rstrip_blanks (before_comma p) else "http"
       | None => "http"
       end.

(** koa's [request.secure]. *)
Definition koa_secure (proxy : bool) (r : KoaRequest) : bool :=
  bool_decide (koa_protocol proxy r = "https").

(** ** The middleware (lines 11-20) *)

(** The parts of the koa context the middleware touches: [ctx.req.secure],
    [ctx.request.secure], [ctx.res.locals.cspNonce], and what helmet wrote
    (the CSP directives as sent, and the [secure] flag HSTS was decided
    from). *)
Record KoaCtx := mkKoaCtx {
  req_secure : bool;
  request_secure : bool;
  cspNonce : option string;
  csp_sent : option (gmap string (list string));
  hsts_from_secure : option bool;
}.

(** helmet with the given options: the policy with each source rendered
    for this response, and HSTS decided from [req.secure]. *)
Definition helmet_apply (defaults : gmap string (list CspSource)) (o : HelmetOptions)
    (c : KoaCtx) : exc KoaCtx :=
  match cspNonce c with
  | Some n =>
      Ret (mkKoaCtx (req_secure c) (request_secure c) (cspNonce c)
                    (Some (map (render_source n) <$> csp_policy defaults o)) (Some (req_secure c)))
  | None => throw TypeError
  end.

(** The middleware of lines 11-19, with the bytes
    [crypto.randomBytes(16)] draws given as [rnd], helmet as [helmet] and
    the rest of the chain as [next]. *)
Definition security_middleware {A} (helmet : KoaCtx → exc KoaCtx) (rnd : list byte)
    (next : st KoaCtx A) : st KoaCtx A := λ c,
  let origSecure := req_secure c in
  let c1 := mkKoaCtx (request_secure c) (request_secure c) (Some (base64 rnd))
                     (csp_sent c) (hsts_from_secure c) in
  match helmet c1 with
  | Ret c2 =>
      next (mkKoaCtx origSecure (request_secure c2) (cspNonce c2)
                     (csp_sent c2) (hsts_from_secure c2))
  | Throw e => (Throw e, c1)
  end.

(** ** The provider (lines 7-33) *)

Record Provider := mkProvider {
  issuer : string;
  proxy : bool;
  helmet_options : HelmetOptions;
}.

Definition setup_provider (ISSUER : string) (defaults : gmap string (list CspSource)) : Provider :=
  mkProvider ISSUER true (helmet_options_of defaults).

(** A request through the provider's koa stack: koa builds the context
    ([ctx.request.secure] from the provider's [proxy] setting), then the
    security middleware runs before the rest of the chain. *)
Definition serve {A} (p : Provider) (defaults : gmap string (list CspSource)) (rnd : list byte)
    (r : KoaRequest) (next : st KoaCtx A) : exc A * KoaCtx :=
  security_middleware (helmet_apply defaults (helmet_options p)) rnd next
    (mkKoaCtx false (koa_secure (proxy p) r) None None None).

(** ** Lemmas *)

Lemma b64_pad_in : "="%char ∈ b64_chars.
Proof. apply (bool_decide_unpack _). vm_compute. reflexivity. Qed.

Lemma b64_char_in i : b64_char i ∈ b64_chars.
Proof.
  unfold b64_char. destruct (decide (Z.to_nat i < length b64_chars)%nat) as [Hlt|Hge].
  - apply list_elem_of_In, nth_In, Hlt.
  - rewrite nth_overflow by lia. apply b64_pad_in.
Qed.

Lemma b64_quad_in n : Forall (λ c, c ∈ b64_chars) (b64_quad n).
Proof.
  unfold b64_quad. repeat (apply List.Forall_cons; [apply b64_char_in|]). apply List.Forall_nil.
Qed.

Ltac pad_solve := repeat (apply List.Forall_cons; [apply b64_pad_in|]); apply List.Forall_nil.

Lemma base64_list_in bs : Forall (λ c, c ∈ b64_chars) (base64_list bs).
Proof.
  revert bs. fix IH 1. intros [|b0 [|b1 [|b2 rest]]]; cbn [base64_list].
  - apply List.Forall_nil.
  - apply Forall_app_2; [apply Forall_take, b64_quad_in | pad_solve].
  - apply Forall_app_2; [apply Forall_take, b64_quad_in | pad_solve].
  - apply Forall_app_2; [apply b64_quad_in | apply IH].
Qed.

Lemma base64_list_length bs : length (base64_list bs) = 4 * ((length bs + 2) / 3).
Proof.
  revert bs. fix IH 1. intros [|b0 [|b1 [|b2 rest]]]; try reflexivity.
  cbn [base64_list length]. rewrite length_app, IH. unfold b64_quad. simpl length.
  replace (S (S (S (length rest))) + 2) with (1 * 3 + (length rest + 2)) by lia.
  rewrite Nat.div_add_l by lia. lia.
Qed.

Lemma string_length_of_list l : String.length (String.string_of_list_ascii l) = length l.
Proof. induction l; simpl; auto. Qed.

Lemma list_of_string_of_list l : String.list_ascii_of_string (String.string_of_list_ascii l) = l.
Proof. induction l; simpl; congruence. Qed.

(** The characters that would end a CSP source or directive. *)
Definition csp_delimiters : list ascii := ["'"%char; ";"%char; " "%char; ","%char].

Lemma b64_chars_no_delimiter c : c ∈ b64_chars → c ∉ csp_delimiters.
Proof. revert c. apply Forall_forall, (bool_decide_unpack _). vm_compute. reflexivity. Qed.

(** ** Properties *)

(** Bounds of the encoding.  The base64 text of [n] bytes has
    [4 * ceil(n / 3)] characters; the 16 random bytes of a nonce give 24. *)
Theorem base64_length (bs : list byte) :
  String.length (base64 bs) = 4 * ((length bs + 2) / 3).
Proof. unfold base64. rewrite string_length_of_list. apply base64_list_length. Qed.

(** C28: the nonce source is well formed.  For every response the
    [script-src] directive sent is ['self'] and ['nonce-N'] where [N] is the
    response's 24-character nonce, and [N] holds no quote, semicolon, blank
    or comma, so the source cannot end early or inject a directive. *)
Theorem csp_nonce_source_wellformed (defaults : gmap string (list CspSource))
    (rnd : list byte) (c : KoaCtx) :
  length rnd = 16 →
  ∃ c', security_middleware (helmet_apply defaults (helmet_options_of defaults)) rnd st_get c
          = (Ret c', c') ∧
    cspNonce c' = Some (base64 rnd) ∧
    (csp_sent c' ≫= (.!! "script-src")) = Some ["'self'"; "'nonce-" ++ base64 rnd ++ "'"]%string ∧
    String.length (base64 rnd) = 24 ∧
    Forall (λ ch, ch ∉ csp_delimiters) (String.list_ascii_of_string (base64 rnd)).
Proof.
  intros Hlen. eexists. split; [reflexivity|]. unfold csp_policy, directives_of. simpl.
  split_and!; [done| | |].
  - unfold directives_of. by rewrite lookup_fmap, lookup_insert_eq.
  - by rewrite base64_length, Hlen.
  - unfold base64. rewrite list_of_string_of_list.
    eapply Forall_impl; [apply base64_list_in | apply b64_chars_no_delimiter].
Qed.

(** The directives sent with a response allow exactly ['self'] and
    that response's nonce for scripts, and have no [form-action], whatever
    helmet's defaults hold ([useDefaults: false]). *)
Theorem csp_directives_sent (defaults : gmap string (list CspSource)) (rnd : list byte)
    (c : KoaCtx) :
  ∃ c', security_middleware (helmet_apply defaults (helmet_options_of defaults)) rnd st_get c
          = (Ret c', c') ∧
    (csp_sent c' ≫= (.!! "script-src")) = Some ["'self'"; "'nonce-" ++ base64 rnd ++ "'"]%string ∧
    (csp_sent c' ≫= (.!! "form-action")) = None.
Proof.
  eexists. split; [reflexivity|]. simpl. unfold helmet_options_of, csp_policy, directives_of. simpl.
  split.
  - by rewrite lookup_fmap, lookup_insert_eq.
  - by rewrite lookup_fmap, lookup_insert_ne, lookup_delete_eq.
Qed.

(** C29: the [secure] swap.  helmet sees koa's proxy-aware
    [request.secure]; when helmet succeeds the rest of the chain sees the
    original [req.secure]; when helmet throws, the swapped value is left in
    place (there is no [finally]). *)
Theorem security_middleware_secure (helmet : KoaCtx → exc KoaCtx) rnd (c : KoaCtx) :
  (∀ c2, helmet (mkKoaCtx (request_secure c) (request_secure c) (Some (base64 rnd))
                          (csp_sent c) (hsts_from_secure c)) = Ret c2 →
     ∃ c', security_middleware helmet rnd st_get c = (Ret c', c') ∧
           req_secure c' = req_secure c) ∧
  (∀ e, helmet (mkKoaCtx (request_secure c) (request_secure c) (Some (base64 rnd))
                         (csp_sent c) (hsts_from_secure c)) = Throw e →
     ∃ c', security_middleware helmet rnd st_get c = (Throw e, c') ∧
           req_secure c' = request_secure c).
Proof.
  unfold security_middleware. split.
  - intros c2 ->. by eexists.
  - intros e ->. by eexists.
Qed.

(** HSTS is decided from koa's proxy-aware [request.secure], and the
    rest of the chain still sees the original [req.secure]. *)
Lemma hsts_uses_request_secure defaults (o : HelmetOptions) rnd (c : KoaCtx) :
  ∃ c', security_middleware (helmet_apply defaults o) rnd st_get c = (Ret c', c') ∧
        hsts_from_secure c' = Some (request_secure c) ∧ req_secure c' = req_secure c.
Proof. by eexists. Qed.

(** Koa's [request.secure] with the provider's [proxy = true]: a TLS
    socket, or a first [X-Forwarded-Proto] field equal to "https"; without
    [proxy] the header is ignored. *)
Theorem koa_secure_proxy (r : KoaRequest) :
  koa_secure (proxy (setup_provider "" ∅)) r =
    socket_encrypted r ||
    match x_forwarded_proto r with
    | Some p => bool_decide (rstrip_blanks (before_comma p) = "https")
    | None => false
    end ∧
  koa_secure false r = socket_encrypted r.
Proof.
  unfold koa_secure, koa_protocol. simpl.
  destruct (socket_encrypted r); [done|]. split; [|done].
  destruct (x_forwarded_proto r) as [p|]; [|done]. simpl.
  destruct (bool_decide (p ≠ "")) eqn:E; [done|].
  apply bool_decide_eq_false in E. apply dec_stable in E. by subst.
Qed.

(** C27: a request served by the provider [setup_provider] builds: the
    CSP sent is exactly the configured directives rendered for the
    response's nonce (helmet's defaults are not merged back, so a default
    [form-action] stays removed), HSTS is decided from the forwarded
    protocol, and the rest of the chain sees [ctx.req.secure] restored. *)
Theorem served_request_security ISSUER (defaults : gmap string (list CspSource)) rnd
    (r : KoaRequest) :
  ∃ c', serve (setup_provider ISSUER defaults) defaults rnd r st_get = (Ret c', c') ∧
    csp_sent c' = Some (map (render_source (base64 rnd)) <$> directives_of defaults) ∧
    hsts_from_secure c' = Some (koa_secure true r) ∧
    req_secure c' = false ∧ cspNonce c' = Some (base64 rnd).
Proof. by eexists. Qed.

(** ** Witnesses *)

Definition wit_rnd : list byte :=
  [x00; x01; x02; x03; x04; x05; x06; x07; x08; x09; x0a; x0b; x0c; x0d; x0e; xff].

Lemma csp_nonce_source_wellformed_witness :
  length wit_rnd = 16 ∧ base64 wit_rnd = "AAECAwQFBgcICQoLDA0O/w=="%string ∧
  ∃ c', security_middleware (helmet_apply ∅ (helmet_options_of ∅)) wit_rnd st_get
          (mkKoaCtx false true None None None) = (Ret c', c') ∧
    cspNonce c' = Some (base64 wit_rnd) ∧
    (csp_sent c' ≫= (.!! "script-src")) = Some ["'self'"; "'nonce-" ++ base64 wit_rnd ++ "'"]%string ∧
    String.length (base64 wit_rnd) = 24 ∧
    Forall (λ ch, ch ∉ csp_delimiters) (String.list_ascii_of_string (base64 wit_rnd)).
Proof.
  split_and!; [reflexivity | vm_compute; reflexivity |].
  apply csp_nonce_source_wellformed. reflexivity.
Defined.
