(* ===== verification/Controller.v ===== *)
(** * The gateway as a state machine

    The interaction controller of the spec is no single function of the
    code: it is the cycle that oidc-provider drives through the code of
    Policy.v and Routes.v.  A browser's authorization request makes the
    provider evaluate the chain ([resolve] of [setup_policies]'s policy);
    a pending prompt suspends the request as an interaction; the browser
    then GETs the interaction ([get_interaction]), POSTs its answers
    ([post_confirm_tos], [post_update_name]) and is redirected to resume,
    which evaluates the chain again from the top.  Signing in through an
    identity provider (out of scope) sets the session's account.

    [step] is that cycle as a relation on [Gateway] states.  Nothing is
    cached between steps: every resumption re-evaluates every prompt on the
    current store.  The theorems: the subsystem never writes an account's
    admin flag or groups and only appends to its conditions, on every
    reachable state (rule induction over [star step]); and the spec's
    scenarios, as sequences of steps. *)

From S2P Require Import Prelude Account KubeApi SiteSession Policy Routes.

Section Gateway.
Context {S : Type} `{!UserService S} `{!UserStore S}.
Context (tos_checksum : string).

(** The state between two requests: the handlers' state, the context
    the provider evaluates the chain in, and the pending prompt with its
    reasons ([None] once the authorization has resumed). *)
Record Gateway := mkGateway {
  gw : RouteState S;
  gctx : OidcCtx;
  pending : option (string * list string);
}.

(** The provider resumes: it evaluates the chain on the submitted result;
    a new interaction starts with the submission as its last submission
    and no result of its own. *)
Definition resume_state (rs : RouteState S) (w : World S) (r : option (string * list string))
    : RouteState S :=
  match r with
  | Some _ => mkRouteState (mkWorld (users w) (site_sessions w) (grants w) None)
                           (audit_log rs) (interaction_result w) (clients rs)
  | None => mkRouteState w (audit_log rs) (last_submission rs) (clients rs)
  end.

Definition with_rs (g : Gateway) (rs : RouteState S) : Gateway :=
  mkGateway rs (gctx g) (pending g).

Inductive step : Gateway → Gateway → Prop :=
| step_resume g r w :
    resolve (gateway_policy tos_checksum) (gctx g) (world (gw g)) = (Ret r, w) →
    step g (mkGateway (resume_state (gw g) w r) (gctx g) r)
| step_resume_error g e w :
    resolve (gateway_policy tos_checksum) (gctx g) (world (gw g)) = (Throw e, w) →
    step g (with_rs g (mkRouteState w (audit_log (gw g)) (last_submission (gw g)) (clients (gw g))))
| step_get g req d r rs :
    get_interaction req d (gw g) = (r, rs) → step g (with_rs g rs)
| step_confirm_tos g d r rs :
    post_confirm_tos d (gw g) = (r, rs) → step g (with_rs g rs)
| step_update_name g req d r rs :
    post_update_name req d (gw g) = (r, rs) → step g (with_rs g rs)
| step_login g id :
    step g (mkGateway (gw g)
              (mkCtx (Some id) (session_jti (gctx g)) (client (gctx g))
                     (requested_scopes (gctx g)) (site_cookie (gctx g)))
              (pending g)).

Inductive star : Gateway → Gateway → Prop :=
| star_refl g : star g g
| star_step g1 g2 g3 : step g1 g2 → star g2 g3 → star g1 g3.

(** ** How an account may change *)

(** The subsystem keeps an account's id, admin flag and groups, and only
    appends to its conditions. *)
Definition account_evolves (a a' : Account) : Prop :=
  accountId a' = accountId a ∧ isAdmin a' = isAdmin a ∧ groups a' = groups a ∧
  conditions a `prefix_of` conditions a'.

Definition store_evolves (s s' : S) : Prop :=
  ∀ id a, findUser s id = UFound a → ∃ a', findUser s' id = UFound a' ∧ account_evolves a a'.

Definition gw_users (g : Gateway) : S := users (world (gw g)).
End Gateway.

Arguments Gateway S : clear implicits.

(** ** The store invariant *)

Create HintDb gateway.

Section Evolves.
Context {S : Type} `{!UserService S} `{!UserStore S}.

#[export] Instance account_evolves_preorder : PreOrder account_evolves.
Proof.
  split; [intros a; unfold account_evolves; done|].
  intros a1 a2 a3 (?&?&?&?) (?&?&?&?). unfold account_evolves.
  split_and!; try congruence. by etrans.
Qed.

#[export] Instance store_evolves_preorder : PreOrder (store_evolves (S:=S)).
Proof.
  split; [intros s id a Ha; exists a; split; [done | reflexivity]|].
  intros s1 s2 s3 H12 H23 id a Ha.
  destruct (H12 id a Ha) as (a2 & Ha2 & E12). destruct (H23 id a2 Ha2) as (a3 & Ha3 & E23).
  exists a3. split; [done | by etrans].
Qed.

(** A handler lets accounts evolve, and nothing more. *)
Definition evolves_users {A} (m : st (RouteState S) A) : Prop :=
  ∀ rs, store_evolves (users (world rs)) (users (world (m rs).2)).

Lemma evolves_read {A} (f : RouteState S → exc A) : evolves_users (λ rs, (f rs, rs)).
Proof. intros rs. simpl. reflexivity. Qed.

Lemma evolves_ret {A} (a : A) : evolves_users (st_ret a).
Proof. apply (evolves_read (λ _, Ret a)). Qed.

Lemma evolves_lift {A} (m : exc A) : evolves_users (st_lift m).
Proof. apply (evolves_read (λ _, m)). Qed.

Lemma evolves_bind {A B} (m : st (RouteState S) A) (f : A → st (RouteState S) B) :
  evolves_users m → (∀ a, evolves_users (f a)) → evolves_users (st_bind m f).
Proof.
  intros Hm Hf rs. unfold st_bind. specialize (Hm rs).
  destruct (m rs) as [[a|e] rs1]; simpl in *; [|done]. etrans; [apply Hm | apply Hf].
Qed.

Lemma evolves_if {A} (b : bool) (m1 m2 : st (RouteState S) A) :
  evolves_users m1 → evolves_users m2 → evolves_users (if b then m1 else m2).
Proof. by destruct b. Qed.

Lemma evolves_modify_world (f : World S → World S) :
  (∀ w, users (f w) = users w) → evolves_users (modify_world f).
Proof. intros Hf rs. simpl. rewrite Hf. reflexivity. Qed.

Lemma evolves_auditLog actor action : evolves_users (auditLog actor action).
Proof. intros rs. simpl. reflexivity. Qed.

Lemma evolves_find_client cid : evolves_users (find_client cid).
Proof. apply (evolves_read (λ rs, _)). Qed.

Lemma evolves_require_account d : evolves_users (require_account d).
Proof. apply evolves_lift. Qed.

Lemma evolves_interactionResult result : evolves_users (interactionResult result).
Proof. intros rs. simpl. reflexivity. Qed.

Lemma evolves_confirm aid n ck :
  evolves_users (modify_users (λ s, store_confirmCondition s aid n ck)).
Proof.
  intros rs id a Ha. simpl. destruct (decide (aid = id)) as [<-|Hne].
  - eexists. split; [by apply store_confirmCondition_self|].
    unfold account_evolves, confirmCondition. simpl. split_and!; try done. by eexists.
  - exists a. rewrite store_confirmCondition_other by done. split; [done | reflexivity].
Qed.

Lemma evolves_update aid p :
  evolves_users (modify_users (λ s, store_updateProfile s aid p)).
Proof.
  intros rs id a Ha. simpl. destruct (decide (aid = id)) as [<-|Hne].
  - eexists. split; [by apply store_updateProfile_self | done].
  - exists a. rewrite store_updateProfile_other by done. split; [done | reflexivity].
Qed.

Lemma evolves_addSiteSession_st req d c : evolves_users (addSiteSession_st req d c).
Proof.
  unfold addSiteSession_st. apply evolves_bind; [apply evolves_require_account|].
  intros aid rs. unfold addSiteSession. simpl. reflexivity.
Qed.

Lemma evolves_addGrant req d c : evolves_users (addGrant req d c).
Proof.
  unfold addGrant. apply evolves_bind; [apply evolves_require_account|]. intros aid.
  apply evolves_bind; [by apply evolves_modify_world | intros; apply evolves_ret].
Qed.
End Evolves.

#[export] Hint Resolve evolves_addSiteSession_st evolves_addGrant evolves_read evolves_ret evolves_lift evolves_auditLog
  evolves_find_client evolves_require_account evolves_interactionResult
  evolves_confirm evolves_update : gateway.

(** [evolves_solve] follows a handler's binds and branches and closes the
    leaves with the hint database. *)
Ltac evolves_solve :=
  repeat first
    [ solve [eauto with gateway]
    | apply evolves_bind; [|intros ?]
    | apply evolves_if
    | apply evolves_modify_world; intros; reflexivity ].

Section Reachable.
Context {S : Type} `{!UserService S} `{!UserStore S}.
Context (tos_checksum : string).

Lemma get_interaction_evolves req d : evolves_users (get_interaction req d).
Proof.
  unfold get_interaction, get_consent, get_tos, get_approval_required, get_groups_required,
    interactionFinished.
  evolves_solve.
Qed.

Lemma post_confirm_tos_evolves d : evolves_users (post_confirm_tos d).
Proof. unfold post_confirm_tos, interactionFinished. evolves_solve. Qed.

Lemma post_update_name_evolves req d : evolves_users (post_update_name req d).
Proof. unfold post_update_name, interactionFinished. evolves_solve. Qed.

Lemma resolve_keeps_users ctx w :
  users (resolve (gateway_policy tos_checksum) ctx w).2 = users w.
Proof. symmetry. apply (resolve_same_reads _ ctx w (gateway_policy_framed tos_checksum)). Qed.

Lemma step_evolves g g' :
  step tos_checksum g g' → store_evolves (gw_users g) (gw_users g').
Proof.
  unfold gw_users. intros [g0 r w Hr | g0 e w Hr | g0 req d r rs E | g0 d r rs E
                           | g0 req d r rs E | g0 id]; simpl.
  - pose proof (resolve_keeps_users (gctx g0) (world (gw g0))) as Hu. rewrite Hr in Hu. simpl in Hu.
    destruct r; simpl; rewrite Hu; reflexivity.
  - pose proof (resolve_keeps_users (gctx g0) (world (gw g0))) as Hu. rewrite Hr in Hu. simpl in Hu.
    simpl. rewrite Hu. reflexivity.
  - pose proof (get_interaction_evolves req d (gw g0)) as H. by rewrite E in H.
  - pose proof (post_confirm_tos_evolves d (gw g0)) as H. by rewrite E in H.
  - pose proof (post_update_name_evolves req d (gw g0)) as H. by rewrite E in H.
  - reflexivity.
Qed.

Lemma star_evolves g g' : star tos_checksum g g' → store_evolves (gw_users g) (gw_users g').
Proof.
  induction 1 as [g|g1 g2 g3 Hs _ IH]; [reflexivity|]. etrans; [apply (step_evolves _ _ Hs) | done].
Qed.

(** A condition an account satisfies stays satisfied on every reachable
    state. *)
Corollary reachable_condition_persists (g g' : Gateway S) id (a : Account) (c : Condition) :
  star tos_checksum g g' → findUser (gw_users g) id = UFound a → checkCondition a c = true →
  ∃ a', findUser (gw_users g') id = UFound a' ∧ checkCondition a' c = true.
Proof.
  intros Hs Ha Hc. destruct (star_evolves g g' Hs id a Ha) as (a' & Ha' & _ & _ & _ & [k Hk]).
  exists a'. split; [done|]. unfold checkCondition in *. rewrite Hk, existsb_app, Hc. done.
Qed.
End Reachable.

(** ** Scenarios *)

Section Scenarios.
Context {S : Type} `{!UserService S} `{!UserStore S}.
Context (tos_version : string).

Lemma step_get_run (g : Gateway S) req d :
  step tos_version g (with_rs g (get_interaction req d (gw g)).2).
Proof. eapply step_get, surjective_pairing. Qed.

Lemma step_confirm_tos_run (g : Gateway S) d :
  step tos_version g (with_rs g (post_confirm_tos d (gw g)).2).
Proof. eapply step_confirm_tos, surjective_pairing. Qed.

Lemma step_update_name_run (g : Gateway S) req d :
  step tos_version g (with_rs g (post_update_name req d (gw g)).2).
Proof. eapply step_update_name, surjective_pairing. Qed.

(** Resuming a signed-in session suspends on the gateway's decision for
    the account as the store holds it. *)
Lemma step_resume_signed_in_audit (g : Gateway S) id (a : Account) :
  session_accountId (gctx g) = Some id → findUser (gw_users g) id = UFound a →
  ∃ g', step tos_version g g' ∧ gw_users g' = gw_users g ∧
    pending g' = gateway_decision tos_version (gctx g) (grants (world (gw g))) id a ∧
    audit_log (gw g') = audit_log (gw g).
Proof.
  intros Hid Ha. pose proof (resolve_signed_in tos_version _ _ _ _ Hid Ha) as Hr.
  pose proof (resolve_keeps_users tos_version (gctx g) (world (gw g))) as Hu.
  destruct (resolve (gateway_policy tos_version) (gctx g) (world (gw g))) as [[r|e] w] eqn:E;
    simplify_eq/=.
  eexists. split; [by apply step_resume|]. unfold gw_users, resume_state. simpl.
  destruct (gateway_decision _ _ _ _ _); simpl; split_and!; congruence.
Qed.

Lemma step_resume_signed_in (g : Gateway S) id (a : Account) :
  session_accountId (gctx g) = Some id → findUser (gw_users g) id = UFound a →
  ∃ g', step tos_version g g' ∧ gw_users g' = gw_users g ∧
    pending g' = gateway_decision tos_version (gctx g) (grants (world (gw g))) id a.
Proof.
  intros Hid Ha. destruct (step_resume_signed_in_audit g id a Hid Ha) as (g' & ? & ? & ? & _).
  by exists g'.
Qed.

Lemma gateway_decision_named ctx gr id (a : Account) rsn :
  truthy_string (profile a !! "name") = true →
  gateway_decision tos_version ctx gr id a ≠ Some ("name", rsn).
Proof. intros Hn. unfold gateway_decision. rewrite Hn. by repeat case_match. Qed.

Lemma gateway_decision_unnamed ctx gr id (a : Account) :
  (isAdmin a || checkCondition a Approved) = true → truthy_string (profile a !! "name") = false →
  gateway_decision tos_version ctx gr id a = Some ("name", ["name_required"]).
Proof. intros Hap Hn. unfold gateway_decision. by rewrite Hap, Hn. Qed.

Lemma gateway_decision_tos_accepted ctx gr id (a : Account) rsn :
  checkCondition a (ToSv1 tos_version) = true →
  gateway_decision tos_version ctx gr id a ≠ Some ("tos", rsn).
Proof. intros Ht. unfold gateway_decision. rewrite Ht. by repeat case_match. Qed.

Lemma tos_served_lookup ck (m : gmap string RVal) :
  ({["tosTextChecksum" := RText ck]} ∪ m) !! "tosTextChecksum" = Some (RText ck).
Proof. by rewrite lookup_union, lookup_singleton_eq, union_Some_l. Qed.

Lemma get_interaction_tos req d :
  prompt_name d = "tos" → get_interaction (S:=S) req d = get_tos req.
Proof. intros Hn. unfold get_interaction. by rewrite Hn. Qed.

Lemma get_interaction_consent req d :
  prompt_name d = "consent" → get_interaction (S:=S) req d = get_consent req d.
Proof. intros Hn. unfold get_interaction. by rewrite Hn. Qed.

(** The handler steps of the scenarios, by what they change. *)
Lemma step_update_name_ok (g : Gateway S) req d aid n :
  prompt_name d = "name" → d_accountId d = Some aid → body_name req = Some n →
  ∃ g1, step tos_version g g1 ∧ gctx g1 = gctx g ∧
    gw_users g1 = store_updateProfile (gw_users g) aid {["name" := n]} ∧
    grants (world (gw g1)) = grants (world (gw g)).
Proof.
  intros Hn Hd Hb. eexists. split; [apply step_update_name_run|].
  by rewrite (post_update_name_run _ _ _ aid n Hn Hd Hb).
Qed.

Lemma step_get_tos (g : Gateway S) req d :
  prompt_name d = "tos" →
  ∃ g1 r, step tos_version g g1 ∧ gctx g1 = gctx g ∧ gw_users g1 = gw_users g ∧
    grants (world (gw g1)) = grants (world (gw g)) ∧
    interaction_result (world (gw g1)) = Some r ∧
    r !! "tosTextChecksum" = Some (RText (tos_checksum req)).
Proof.
  intros Hn. eexists _, _. split; [apply step_get_run|].
  rewrite get_interaction_tos, get_tos_run by done. split_and!; [done..|].
  apply tos_served_lookup.
Qed.

Lemma step_confirm_tos_ok (g : Gateway S) d aid r ck :
  prompt_name d = "tos" → d_accountId d = Some aid →
  interaction_result (world (gw g)) = Some r → r !! "tosTextChecksum" = Some (RText ck) →
  ∃ g2, step tos_version g g2 ∧ gctx g2 = gctx g ∧
    gw_users g2 = store_confirmCondition (gw_users g) aid "tos" (Some ck) ∧
    grants (world (gw g2)) = grants (world (gw g)).
Proof.
  intros Hn Hd Hr Hck. eexists. split; [apply step_confirm_tos_run|].
  rewrite (post_confirm_tos_run _ _ aid r Hn Hd Hr). simpl. by rewrite Hck.
Qed.

(** C10: The name scenario: during the [name] prompt the user submits a
    non-empty name; the next evaluation of the chain no longer asks for
    a name and decides on the account with that name. *)
Theorem name_answer_then_resume (g : Gateway S) req d aid (a : Account) n :
  session_accountId (gctx g) = Some aid → d_accountId d = Some aid →
  prompt_name d = "name" → body_name req = Some n → n ≠ ""%string →
  findUser (gw_users g) aid = UFound a →
  ∃ g1 g2, step tos_version g g1 ∧ step tos_version g1 g2 ∧
    findUser (gw_users g2) aid = UFound (setProfile a (<["name" := n]> (profile a))) ∧
    pending g2 = gateway_decision tos_version (gctx g) (grants (world (gw g))) aid
                   (setProfile a (<["name" := n]> (profile a))) ∧
    ∀ rsn, pending g2 ≠ Some ("name", rsn).
Proof.
  intros Hid Hd Hn Hb Hne Ha.
  destruct (step_update_name_ok g req d aid n Hn Hd Hb) as (g1 & H1 & Hc1 & Hu1 & Hg1).
  pose proof (store_updateProfile_self _ aid {["name" := n]} a Ha) as Ha'.
  rewrite <-insert_union_singleton_l, <-Hu1 in Ha'. rewrite <-Hc1 in Hid.
  destruct (step_resume_signed_in g1 aid _ Hid Ha') as (g2 & H2 & Hu & Hp).
  exists g1, g2. rewrite Hu, Hp, Hc1, Hg1. split_and!; [done..|].
  intros rsn. apply gateway_decision_named. simpl. rewrite lookup_insert_eq.
  by apply truthy_string_Some.
Qed.

(** C20: an empty name is a re-prompt, not an answer.  Posting
    [name=""] during the [name] prompt of an approved account stores the
    empty name, audits "User name updated" and finishes the interaction;
    the chain, evaluated on the resume, asks for the name again. *)
Theorem empty_name_reprompted (g : Gateway S) req d aid (a : Account) :
  session_accountId (gctx g) = Some aid → d_accountId d = Some aid →
  prompt_name d = "name" → body_name req = Some ""%string →
  findUser (gw_users g) aid = UFound a → (isAdmin a || checkCondition a Approved) = true →
  ∃ g1 g2, step tos_version g g1 ∧ step tos_version g1 g2 ∧
    findUser (gw_users g2) aid = UFound (setProfile a (<["name" := ""]> (profile a))) ∧
    audit_log (gw g2) = audit_log (gw g) ++ [mkAuditEvent (Some aid) "User name updated"] ∧
    pending g2 = Some ("name", ["name_required"]).
Proof.
  intros Hid Hd Hn Hb Ha Hap.
  set (g1 := with_rs g (post_update_name req d (gw g)).2).
  assert (Hu1 : gw_users g1 = store_updateProfile (gw_users g) aid {["name" := ""]} ∧
                audit_log (gw g1) = audit_log (gw g) ++ [mkAuditEvent (Some aid) "User name updated"])
    by (subst g1; by rewrite (post_update_name_run _ _ _ aid "" Hn Hd Hb)).
  destruct Hu1 as [Hu1 Hl1].
  pose proof (store_updateProfile_self _ aid {["name" := ""]} a Ha) as Ha'.
  rewrite <-insert_union_singleton_l, <-Hu1 in Ha'.
  destruct (step_resume_signed_in_audit g1 aid _ Hid Ha') as (g2 & H2 & Hu & Hp & Hl).
  exists g1, g2. split_and!; [apply step_update_name_run | done | by rewrite Hu | by rewrite Hl |].
  rewrite Hp. apply gateway_decision_unnamed; [done|]. simpl. by rewrite lookup_insert_eq.
Qed.

(** C9: The ToS scenario: during the [tos] prompt the browser is shown the
    terms, confirms them, and the provider resumes.  The account then
    records exactly the version served, and the next evaluation of the
    chain no longer asks for the terms. *)
Theorem tos_flow_then_resume (g : Gateway S) req d aid (a : Account) :
  session_accountId (gctx g) = Some aid → d_accountId d = Some aid →
  prompt_name d = "tos" → tos_checksum req = tos_version →
  findUser (gw_users g) aid = UFound a →
  ∃ g1 g2 g3, step tos_version g g1 ∧ step tos_version g1 g2 ∧ step tos_version g2 g3 ∧
    findUser (gw_users g3) aid = UFound (confirmTos tos_version a) ∧
    pending g3 = gateway_decision tos_version (gctx g) (grants (world (gw g))) aid
                   (confirmTos tos_version a) ∧
    ∀ rsn, pending g3 ≠ Some ("tos", rsn).
Proof.
  intros Hid Hd Hn Hck Ha.
  destruct (step_get_tos g req d Hn) as (g1 & r & H1 & Hc1 & Hu1 & Hg1 & Hr & Hl).
  rewrite Hck in Hl.
  destruct (step_confirm_tos_ok g1 d aid r tos_version Hn Hd Hr Hl) as (g2 & H2 & Hc2 & Hu2 & Hg2).
  pose proof (store_confirmCondition_self _ aid "tos" (Some tos_version) a Ha) as Ha'.
  rewrite <-Hu1, <-Hu2 in Ha'. rewrite <-Hc1, <-Hc2 in Hid.
  destruct (step_resume_signed_in g2 aid _ Hid Ha') as (g3 & H3 & Hu & Hp).
  exists g1, g2, g3. rewrite Hu, Hp, Hc2, Hc1, Hg2, Hg1. split_and!; [done..|].
  intros rsn. apply gateway_decision_tos_accepted, confirmTos_satisfies.
Qed.
End Scenarios.

(** ** A new account on the Kubernetes store *)

(** C8: A user signing in for the first time gets the account [createUser]
    makes: no admin flag and no conditions.  The chain therefore holds it
    at [approval_required] before anything else, whatever profile the
    identity provider supplied and whatever the client. *)
Theorem new_account_held_for_approval tos_version (g : Gateway KubeApi.Backend) be id prof :
  KubeApi.reachable be = true → KubeApi.docs be !! id = None →
  gw_users g = (KubeApi.createUser be id prof).1 → session_accountId (gctx g) = Some id →
  ∃ g', step tos_version g g' ∧ pending g' = Some ("approval_required", ["approval_required"]).
Proof.
  intros Hr Hd Hu Hid.
  assert (Ha : findUser (gw_users g) id = UFound (KubeApi.new_user_doc id prof)).
  { rewrite Hu. unfold KubeApi.createUser, KubeApi.api_create. rewrite Hr. simpl. rewrite Hd.
    apply KubeApi.findUser_found. simpl. by rewrite lookup_insert_eq. }
  destruct (step_resume_signed_in tos_version g id _ Hid Ha) as (g' & Hs & _ & Hp).
  by exists g'.
Qed.

(** ** Witnesses *)

Definition wit_gw (rs : RouteState KubeApi.Backend) (id : string) : Gateway KubeApi.Backend :=
  mkGateway rs (wit_ctx (Some id) wit_client) None.
Definition wit_fresh_gw : Gateway KubeApi.Backend :=
  wit_gw (mkRouteState (mkWorld (KubeApi.createUser (KubeApi.mkBackend ∅ true) "carol" ∅).1 ∅ ∅ None)
                       [] None ∅) "carol".
Definition wit_ready_rs : RouteState KubeApi.Backend := mkRouteState (wit_world wit_ready ∅) [] None ∅.

Definition wit_unnamed : Account := mkAccount "v" ∅ false [mkConditionRecord "approved" None] ∅.
Definition wit_empty_name_req : Request :=
  mkRequest "tos-v2" (UFound wit_unnamed) "g-1" "s-1" (Some "") None None.
Definition wit_name_details : Details := mkDetails "i-2" "name" {["openid"]} (Some "v") "jti-1" "app" None.

Lemma reachable_condition_persists_witness :
  star "tos-v1" (wit_gw wit_ready_rs "bob") (wit_gw wit_ready_rs "bob") ∧
  findUser (gw_users (wit_gw wit_ready_rs "bob")) "bob" = UFound wit_ready ∧
  checkCondition wit_ready Approved = true ∧
  ∃ a', findUser (gw_users (wit_gw wit_ready_rs "bob")) "bob" = UFound a' ∧
        checkCondition a' Approved = true.
Proof.
  split_and!; [apply star_refl | reflexivity | reflexivity |].
  apply (reachable_condition_persists "tos-v1" (wit_gw wit_ready_rs "bob") (wit_gw wit_ready_rs "bob") "bob" wit_ready Approved);
    [apply star_refl | reflexivity | reflexivity].
Defined.

Lemma name_answer_then_resume_witness :
  session_accountId (gctx (wit_gw (wit_rs None) "u")) = Some "u" ∧
  body_name wit_req = Some "Ann B" ∧
  ∃ g1 g2, step "tos-v2" (wit_gw (wit_rs None) "u") g1 ∧ step "tos-v2" g1 g2 ∧
    findUser (gw_users g2) "u" = UFound (setProfile wit_acct (<["name" := "Ann B"]> (profile wit_acct))) ∧
    pending g2 = gateway_decision "tos-v2" (gctx (wit_gw (wit_rs None) "u"))
                   (grants (world (gw (wit_gw (wit_rs None) "u")))) "u"
                   (setProfile wit_acct (<["name" := "Ann B"]> (profile wit_acct))) ∧
    ∀ rsn, pending g2 ≠ Some ("name", rsn).
Proof.
  split_and!; [reflexivity | reflexivity |].
  apply (name_answer_then_resume "tos-v2" (wit_gw (wit_rs None) "u") wit_req (wit_details "name") "u" wit_acct "Ann B");
    [reflexivity | reflexivity | reflexivity | reflexivity | discriminate | reflexivity].
Defined.

Lemma tos_flow_then_resume_witness :
  tos_checksum wit_req = "tos-v2" ∧
  ∃ g1 g2 g3, step "tos-v2" (wit_gw (wit_rs None) "u") g1 ∧ step "tos-v2" g1 g2 ∧
    step "tos-v2" g2 g3 ∧
    findUser (gw_users g3) "u" = UFound (confirmTos "tos-v2" wit_acct) ∧
    pending g3 = gateway_decision "tos-v2" (gctx (wit_gw (wit_rs None) "u"))
                   (grants (world (gw (wit_gw (wit_rs None) "u")))) "u" (confirmTos "tos-v2" wit_acct) ∧
    ∀ rsn, pending g3 ≠ Some ("tos", rsn).
Proof.
  split; [reflexivity|].
  apply (tos_flow_then_resume "tos-v2" (wit_gw (wit_rs None) "u") wit_req (wit_details "tos") "u" wit_acct);
    reflexivity.
Defined.

Lemma new_account_held_for_approval_witness :
  KubeApi.docs (KubeApi.mkBackend ∅ true) !! "carol" = None ∧
  ∃ g', step "tos-v1" wit_fresh_gw g' ∧ pending g' = Some ("approval_required", ["approval_required"]).
Proof.
  split; [reflexivity|].
  apply (new_account_held_for_approval "tos-v1" wit_fresh_gw (KubeApi.mkBackend ∅ true) "carol" ∅);
    reflexivity.
Defined.

Lemma empty_name_reprompted_witness :
  body_name wit_empty_name_req = Some ""%string ∧
  ∃ g1 g2, step "tos-v2" (wit_gw (mkRouteState (wit_world wit_unnamed ∅) [] None ∅) "v") g1 ∧
    step "tos-v2" g1 g2 ∧
    findUser (gw_users g2) "v" = UFound (setProfile wit_unnamed (<["name" := ""]> (profile wit_unnamed))) ∧
    audit_log (gw g2) = [mkAuditEvent (Some "v") "User name updated"] ∧
    pending g2 = Some ("name", ["name_required"]).
Proof.
  split; [reflexivity|].
  apply (empty_name_reprompted "tos-v2" (wit_gw (mkRouteState (wit_world wit_unnamed ∅) [] None ∅) "v")
           wit_empty_name_req wit_name_details "v" wit_unnamed); reflexivity.
Defined.
