(* ===== verification/Termination.v ===== *)
(** * The interaction loop terminates

    A signed-in user meets the prompts the chain decides one at a time: the
    interaction page asks, the user answers, the provider resumes and
    evaluates the chain again (Controller.v).  Three of the prompts are
    answered by the user: [name] (POST update-name), [tos] (the terms
    page, then POST confirm-tos) and [consent] when scopes are missing (the
    consent page grants them).  [answer] is one such round: the chain's
    decision on the current store is the prompt, the handlers run, and the
    provider resumes.  Each round fixes the condition it answers and no
    round undoes another's, so the number of outstanding conditions
    strictly decreases: no sequence of answers is infinite.

    The approval and groups prompts are answered by an administrator, and
    the site-cookie reason of consent by the browser presenting its cookie;
    they are outside [answer]. *)

From S2P Require Import Prelude Account KubeApi SiteSession Policy Routes Controller.
From Stdlib Require Import Wellfounded.Inclusion Wellfounded.Inverse_Image.

Section Termination.
Context {S : Type} `{!UserService S} `{!UserStore S}.
Context (tos_version : string).

(** The user-answerable conditions still outstanding for account [a]. *)
Definition outstanding_for (ctx : OidcCtx) (g : gmap (string * string) (gset string))
    (id : string) (a : Account) : nat :=
  (if truthy_string (profile a !! "name") then 0 else 1) +
  (if checkCondition a (ToSv1 tos_version) then 0 else 1) +
  (if bool_decide (requested_scopes ctx ⊆ default ∅ (g !! (id, clientId (client ctx)))) then 0 else 1).

Definition outstanding (g : Gateway S) : nat :=
  match session_accountId (gctx g) with
  | Some id =>
      match findUser (gw_users g) id with
      | UFound a => outstanding_for (gctx g) (grants (world (gw g))) id a
      | _ => 0
      end
  | None => 0
  end.

(** The provider resumes: it evaluates the chain and suspends on its
    decision, or completes. *)
Definition resumes (g1 g2 : Gateway S) : Prop :=
  ∃ r w, resolve (gateway_policy tos_version) (gctx g1) (world (gw g1)) = (Ret r, w) ∧
         g2 = mkGateway (resume_state (gw g1) w r) (gctx g1) r.

(** The chain's decision on the current store asks for prompt [p]. *)
Definition decided (g : Gateway S) (aid : string) (a : Account) (p : string) (rsn : list string)
    : Prop :=
  session_accountId (gctx g) = Some aid ∧ findUser (gw_users g) aid = UFound a ∧
  gateway_decision tos_version (gctx g) (grants (world (gw g))) aid a = Some (p, rsn).

(** One round of the interaction loop answered by the user. *)
Inductive answer : Gateway S → Gateway S → Prop :=
| answer_name g g' aid a rsn req d n :
    decided g aid a "name" rsn → prompt_name d = "name" → d_accountId d = Some aid →
    body_name req = Some n → n ≠ ""%string →
    resumes (with_rs g (post_update_name req d (gw g)).2) g' → answer g g'
| answer_tos g g' aid a rsn req d :
    decided g aid a "tos" rsn → prompt_name d = "tos" → d_accountId d = Some aid →
    tos_checksum req = tos_version →
    resumes (with_rs g (st_bind (get_interaction req d) (λ _, post_confirm_tos d) (gw g)).2) g' →
    answer g g'
| answer_consent g g' aid a rsn req d :
    decided g aid a "consent" rsn → "op_scopes_missing" ∈ rsn →
    prompt_name d = "consent" → d_accountId d = Some aid →
    clients (gw g) !! params_client_id d = Some (client (gctx g)) →
    requested_scopes (gctx g) ⊆ prompt_scopes d →
    resumes (with_rs g (get_interaction req d (gw g)).2) g' → answer g g'.

(** ** Lemmas *)

Lemma resumes_reads g1 g2 :
  resumes g1 g2 →
  gctx g2 = gctx g1 ∧ gw_users g2 = gw_users g1 ∧ grants (world (gw g2)) = grants (world (gw g1)).
Proof.
  intros (r & w & Hr & ->).
  pose proof (resolve_same_reads _ (gctx g1) (world (gw g1)) (gateway_policy_framed tos_version))
    as [Hu Hg].
  rewrite Hr in Hu, Hg. simpl in *. unfold gw_users, resume_state.
  destruct r; simpl; by split_and!.
Qed.

Lemma outstanding_at g id (a : Account) :
  session_accountId (gctx g) = Some id → findUser (gw_users g) id = UFound a →
  outstanding g = outstanding_for (gctx g) (grants (world (gw g))) id a.
Proof. intros Hid Ha. unfold outstanding. by rewrite Hid, Ha. Qed.

(** What the decisions say of the account. *)
Lemma decided_name g aid a rsn :
  decided g aid a "name" rsn → truthy_string (profile a !! "name") = false.
Proof.
  intros (_ & _ & Hd). unfold gateway_decision in Hd.
  repeat case_match; simplify_eq/=; try done. by destruct (truthy_string _).
Qed.

Lemma decided_tos g aid a rsn :
  decided g aid a "tos" rsn →
  truthy_string (profile a !! "name") = true ∧ checkCondition a (ToSv1 tos_version) = false.
Proof.
  intros (_ & _ & Hd). unfold gateway_decision in Hd.
  destruct (truthy_string _), (checkCondition a (ToSv1 _)); simpl in Hd;
    repeat case_match; simplify_eq/=; done.
Qed.

Lemma consent_reasons_scopes ctx g id :
  "op_scopes_missing" ∈ consent_reasons ctx g id →
  ¬ requested_scopes ctx ⊆ default ∅ (g !! (id, clientId (client ctx))).
Proof.
  unfold consent_reasons. case_bool_decide; [|done].
  case_match; set_solver.
Qed.

Lemma decided_consent g aid a rsn :
  decided g aid a "consent" rsn → "op_scopes_missing" ∈ rsn →
  truthy_string (profile a !! "name") = true ∧ checkCondition a (ToSv1 tos_version) = true ∧
  ¬ requested_scopes (gctx g) ⊆ default ∅ (grants (world (gw g)) !! (aid, clientId (client (gctx g)))).
Proof.
  intros (_ & _ & Hd) Hin. unfold gateway_decision in Hd.
  destruct (truthy_string _), (checkCondition a (ToSv1 _)); simpl in Hd;
    repeat case_match; simplify_eq/=; try done.
  split_and!; try done. apply consent_reasons_scopes.
  match goal with H : consent_reasons _ _ _ = _ |- _ => by rewrite H end.
Qed.

Lemma tos_answer_run req d (rs : RouteState S) aid :
  prompt_name d = "tos" → d_accountId d = Some aid →
  users (world (st_bind (get_interaction req d) (λ _, post_confirm_tos d) rs).2) =
    store_confirmCondition (users (world rs)) aid "tos" (Some (tos_checksum req)) ∧
  grants (world (st_bind (get_interaction req d) (λ _, post_confirm_tos d) rs).2) = grants (world rs).
Proof.
  intros Hn Hd. unfold st_bind. rewrite get_interaction_tos, get_tos_run by done.
  erewrite (post_confirm_tos_run _ _ aid); [|done..]. simpl.
  by rewrite tos_served_lookup.
Qed.

(** The measure reads only the context, the users and the grants, which
    resuming keeps. *)
Lemma resumes_outstanding g1 g2 : resumes g1 g2 → outstanding g2 = outstanding g1.
Proof.
  intros H. destruct (resumes_reads _ _ H) as (Hc & Hu & Hg).
  unfold outstanding. by rewrite Hc, Hu, Hg.
Qed.

Lemma outstanding_for_update ctx gr aid (a : Account) n :
  n ≠ ""%string → truthy_string (profile a !! "name") = false →
  outstanding_for ctx gr aid (setProfile a ({["name" := n]} ∪ profile a)) <
    outstanding_for ctx gr aid a.
Proof.
  intros Hn Ha. unfold outstanding_for. simpl.
  rewrite lookup_union, lookup_singleton_eq, union_Some_l, truthy_string_Some, Ha by done.
  unfold checkCondition. simpl. lia.
Qed.

Lemma outstanding_for_tos ctx gr aid (a : Account) :
  checkCondition a (ToSv1 tos_version) = false →
  outstanding_for ctx gr aid (confirmCondition "tos" (Some tos_version) a) <
    outstanding_for ctx gr aid a.
Proof.
  intros Ha. pose proof (confirmTos_satisfies a tos_version) as Hc.
  unfold confirmTos in Hc. unfold outstanding_for. rewrite Hc, Ha. simpl. lia.
Qed.

Lemma outstanding_for_grant ctx gr aid (a : Account) sc :
  requested_scopes ctx ⊆ sc →
  ¬ requested_scopes ctx ⊆ default ∅ (gr !! (aid, clientId (client ctx))) →
  outstanding_for ctx (<[(aid, clientId (client ctx)) := sc ∪ default ∅ (gr !! (aid, clientId (client ctx)))]> gr) aid a <
    outstanding_for ctx gr aid a.
Proof.
  intros Hs Hn. unfold outstanding_for. rewrite lookup_insert_eq. simpl.
  rewrite bool_decide_eq_true_2 by set_solver. rewrite bool_decide_eq_false_2 by done. lia.
Qed.

(** ** Each round decreases the measure *)

Lemma answer_decreases g g' : answer g g' → outstanding g' < outstanding g.
Proof.
  intros [g0 g1 aid a rsn req d n Hdec Hn Hd Hb Hne Hr
         |g0 g1 aid a rsn req d Hdec Hn Hd Hck Hr
         |g0 g1 aid a rsn req d Hdec Hin Hn Hd Hc Hs Hr];
    rewrite (resumes_outstanding _ _ Hr);
    pose proof Hdec as (Hid & Ha & _); rewrite (outstanding_at g0 aid a Hid Ha).
  - rewrite (post_update_name_run req d _ aid n Hn Hd Hb).
    rewrite (outstanding_at _ aid (setProfile a ({["name" := n]} ∪ profile a))); [|done|].
    + apply outstanding_for_update; [done|]. by eapply decided_name.
    + apply store_updateProfile_self, Ha.
  - destruct (tos_answer_run req d (gw g0) aid Hn Hd) as [Hu Hg].
    rewrite (outstanding_at _ aid (confirmCondition "tos" (Some tos_version) a)); [|done|].
    + unfold with_rs at 1. simpl. rewrite Hg. apply outstanding_for_tos.
      by eapply decided_tos.
    + unfold gw_users. simpl. rewrite Hu, Hck. apply store_confirmCondition_self, Ha.
  - destruct (decided_consent _ _ _ _ Hdec Hin) as (_ & _ & Hmiss).
    rewrite get_interaction_consent by done.
    destruct (get_consent_grants req d (gw g0) (client (gctx g0)) aid Hc Hd) as [Hu Hg].
    rewrite (outstanding_at _ aid a); [|done|].
    + unfold with_rs at 1. simpl. rewrite Hg. by apply outstanding_for_grant.
    + unfold gw_users. simpl. by rewrite Hu.
Qed.

(** The resumed gateway, when the chain's evaluation returns. *)
Definition resume_of (g : Gateway S) : Gateway S :=
  match resolve (gateway_policy tos_version) (gctx g) (world (gw g)) with
  | (Ret r, w) => mkGateway (resume_state (gw g) w r) (gctx g) r
  | (Throw _, _) => g
  end.

Lemma resumes_resume_of g r w :
  resolve (gateway_policy tos_version) (gctx g) (world (gw g)) = (Ret r, w) →
  resumes g (resume_of g).
Proof. intros Hr. exists r, w. split; [done|]. unfold resume_of. by rewrite Hr. Qed.

Definition resolve_returns (g : Gateway S) : bool :=
  match (resolve (gateway_policy tos_version) (gctx g) (world (gw g))).1 with
  | Ret _ => true
  | Throw _ => false
  end.

Lemma resumes_resume_of_returns g : resolve_returns g = true → resumes g (resume_of g).
Proof.
  unfold resolve_returns. destruct (resolve _ _ _) as [[r|e] w] eqn:E; [|done].
  intros _. by eapply resumes_resume_of.
Qed.

Lemma outstanding_le_3 g : outstanding g ≤ 3.
Proof. unfold outstanding, outstanding_for. repeat case_match; lia. Qed.

(** Every round is a run of the gateway: the handler steps and the
    resume. *)
Lemma answer_steps g g' : answer g g' → star tos_version g g'.
Proof.
  intros [g0 g1 aid a rsn req d n _ _ _ _ _ (r & w & Hr & ->)
         |g0 g1 aid a rsn req d _ Hn _ _ (r & w & Hr & ->)
         |g0 g1 aid a rsn req d _ _ _ _ _ _ (r & w & Hr & ->)].
  - eapply star_step; [apply step_update_name_run|].
    eapply star_step; [by apply step_resume|]. apply star_refl.
  - unfold st_bind in Hr |- *. rewrite get_interaction_tos, get_tos_run in Hr |- * by done.
    eapply star_step; [apply (step_get_run tos_version g0 req d)|].
    rewrite get_interaction_tos, get_tos_run by done.
    eapply star_step; [apply (step_confirm_tos_run tos_version _ d)|].
    eapply star_step; [by apply step_resume|]. apply star_refl.
  - eapply star_step; [apply step_get_run|].
    eapply star_step; [by apply step_resume|]. apply star_refl.
Qed.

(** C16: no infinite sequence of answered prompts.  Each round
    of [answer] (a name, the terms of service, or the missing scopes)
    strictly decreases the number of outstanding user conditions, so the
    relation is well founded. *)
Theorem interaction_rounds_terminate : well_founded (λ g' g, answer g g').
Proof.
  apply (wf_incl _ _ (λ g' g, outstanding g' < outstanding g)).
  - intros g' g. apply answer_decreases.
  - apply (wf_inverse_image _ nat lt outstanding), lt_wf.
Qed.

(** C17: a sequence of [n] answered rounds leaves at least [n]
    fewer conditions outstanding, and at most three are ever outstanding:
    a user answers at most three prompts (name, terms, consent) before the
    chain stops asking. *)
Theorem answer_rounds_bounded n g g' :
  nsteps answer n g g' → n + outstanding g' ≤ outstanding g ∧ outstanding g ≤ 3.
Proof.
  split; [|apply outstanding_le_3].
  induction H as [|n g1 g2 g3 H12 _ IH]; [lia|].
  pose proof (answer_decreases _ _ H12). lia.
Qed.
End Termination.

(** ** Witness: three rounds for an approved account without a name *)

Definition wit_loop_gw : Gateway KubeApi.Backend :=
  wit_gw (mkRouteState (mkWorld (KubeApi.mkBackend {["v" := wit_unnamed]} true) ∅ ∅ None)
                       [] None {["app" := wit_client]}) "v".
Definition wit_loop_details (n : string) : Details :=
  mkDetails "i-2" n {["openid"]} (Some "v") "jti-1" "app" None.
Definition wit_g1 : Gateway KubeApi.Backend :=
  resume_of "tos-v2" (with_rs wit_loop_gw
    (post_update_name wit_req (wit_loop_details "name") (gw wit_loop_gw)).2).
Definition wit_g2 : Gateway KubeApi.Backend :=
  resume_of "tos-v2" (with_rs wit_g1
    (st_bind (get_interaction wit_req (wit_loop_details "tos"))
             (λ _, post_confirm_tos (wit_loop_details "tos")) (gw wit_g1)).2).
Definition wit_g3 : Gateway KubeApi.Backend :=
  resume_of "tos-v2" (with_rs wit_g2 (get_interaction wit_req (wit_loop_details "consent") (gw wit_g2)).2).

Lemma answer_rounds_bounded_witness :
  nsteps (answer "tos-v2") 3 wit_loop_gw wit_g3 ∧
  3 + outstanding "tos-v2" wit_g3 ≤ outstanding "tos-v2" wit_loop_gw ∧
  outstanding "tos-v2" wit_loop_gw ≤ 3.
Proof.
  assert (H : nsteps (answer "tos-v2") 3 wit_loop_gw wit_g3).
  { eapply nsteps_l; [|eapply nsteps_l; [|eapply nsteps_l; [|apply nsteps_O]]].
    - eapply (answer_name _ _ _ "v" wit_unnamed ["name_required"] wit_req (wit_loop_details "name") "Ann B");
        [split_and!; reflexivity | reflexivity.. | discriminate |].
      apply resumes_resume_of_returns. vm_compute. reflexivity.
    - eapply (answer_tos _ _ _ "v" _ ["tos_not_accepted"] wit_req (wit_loop_details "tos"));
        [split_and!; reflexivity | reflexivity.. |].
      apply resumes_resume_of_returns. vm_compute. reflexivity.
    - eapply (answer_consent _ _ _ "v" _ ["op_scopes_missing"] wit_req (wit_loop_details "consent"));
        [split_and!; reflexivity | by left | reflexivity.. | done |].
      apply resumes_resume_of_returns. vm_compute. reflexivity. }
  split; [exact H|]. exact (answer_rounds_bounded "tos-v2" 3 _ _ H).
Defined.
